(** * Colour-scheme derivation engine

    A shallow embedding of the Open Color scheme generator
    ([utils/openColor.ts] and [utils/colorSchemeGenerator.ts]): the hue
    classifier, the group statistics, the shade synthesizer, the
    orchestration [analyzeColorsForSchemeGeneration], the complete-palette
    builder, the nearest-scheme-colour matcher with its ranked and
    family-scoped variants, and the family statistics that the generator
    page ([ColorSchemeGenerator.tsx]) derives from the result.

    Numbers.  A JavaScript [number] is modelled as an extended real: finite
    values are exact reals of type [R] (rounding and overflow of IEEE doubles
    are not modelled), and the special values [Infinity], [-Infinity] and
    [NaN] are constructors of [number].  Quantities that the code can only
    ever produce as finite values have type [R]; the two places where a
    special value arises ([0 / 0] in [globalChroma], the literal [Infinity]
    in the matcher) have type [number].  Where the rounding of doubles
    decides a property, the arithmetic concerned is written a second time
    over binary64 floats, in the module [Binary64].

    Objects used as maps.  [Record<OpenColorHue, T>] is an association list
    in key insertion order; [Record<string, T>] built with [D.set] is a
    [gmap string T]. *)

From Stdlib Require Import Floats.
From Stdlib Require Import QArith Qround Reals Lra Lia ZArith List String Ascii.
From Stdlib Require Import Permutation.
From stdpp Require Import base list sorting gmap strings pretty.

Open Scope R_scope.

(** ** JavaScript numbers *)

#[global] Instance Rlt_decision : RelDecision Rlt := Rlt_dec.
#[global] Instance Rle_decision : RelDecision Rle := Rle_dec.
#[global] Instance Rgt_decision : RelDecision Rgt := Rgt_dec.
#[global] Instance Rge_decision : RelDecision Rge := Rge_dec.
#[global] Instance R_eq_decision : EqDecision R := Req_dec_T.

Inductive number : Type :=
| Fin (x : R)
| PosInf
| NegInf
| NaN.

(** [Math.trunc] on a finite value. *)
Definition Rtrunc (x : R) : Z :=
  if decide (0 <= x) then Int_part x else (- Int_part (- x))%Z.

(** The remainder operator [x % y] on finite values with [y <> 0]: the
    result has the sign of the dividend. *)
Definition Rrem (x y : R) : R := x - y * IZR (Rtrunc (x / y)).

(** [Math.round] on a finite value: the nearest integer, ties upwards. *)
Definition Rround (x : R) : Z := Int_part (x + / 2).

(** [x / y] where both operands are finite. *)
Definition ndiv (x y : R) : number :=
  if decide (y = 0) then
    if decide (x = 0) then NaN
    else if decide (0 < x) then PosInf else NegInf
  else Fin (x / y).

(** [Math.max] and [Math.min]: [NaN] if either argument is [NaN]. *)
Definition nmax (a b : number) : number :=
  match a, b with
  | NaN, _ | _, NaN => NaN
  | PosInf, _ | _, PosInf => PosInf
  | NegInf, y => y
  | x, NegInf => x
  | Fin x, Fin y => Fin (Rmax x y)
  end.

Definition nmin (a b : number) : number :=
  match a, b with
  | NaN, _ | _, NaN => NaN
  | NegInf, _ | _, NegInf => NegInf
  | PosInf, y => y
  | x, PosInf => x
  | Fin x, Fin y => Fin (Rmin x y)
  end.

(** [a * k] for a finite, strictly positive literal [k]. *)
Definition nscale (a : number) (k : R) : number :=
  match a with
  | Fin x => Fin (x * k)
  | other => other
  end.

(** [a < b]: false as soon as one side is [NaN]. *)
Definition nlt (a b : number) : bool :=
  match a, b with
  | NaN, _ | _, NaN => false
  | _, NegInf => false
  | NegInf, _ => true
  | PosInf, _ => false
  | Fin _, PosInf => true
  | Fin x, Fin y => bool_decide (x < y)
  end.

(** ** Colours as the colour library reports them *)

Record HslColor : Type := { hsl_h : R; hsl_s : R; hsl_l : R }.
Record RgbColor : Type := { rgb_r : R; rgb_g : R; rgb_b : R }.

(** The external colour library [colord]: [colord(c).toHsl()],
    [colord(c).toRgb()] and [colord({h, s, l}).toHex()].  The engine only
    requires it; every property below is proved for an arbitrary
    implementation. *)
Class Colord : Type := {
  toHsl : string -> HslColor;
  toRgb : string -> RgbColor;
  hslToHex : number -> number -> number -> string
}.

(** ** Reference palette table ([openColor.ts]) *)

Inductive OpenColorHue : Type :=
| gray | red | pink | grape | violet | indigo | blue
| cyan | teal | green | lime | yellow | orange.

#[global] Instance OpenColorHue_eq_dec : EqDecision OpenColorHue.
Proof. solve_decision. Defined.

Record HueInfo : Type := { info_name : string; info_hue : R; info_color : string }.

(** Keys of [OPEN_COLOR_HUES] (and of [OPEN_COLOR_PALETTE]) in declaration
    order, which is the order [Object.keys] and [Object.entries] yield. *)
Definition OPEN_COLOR_HUE_KEYS : list OpenColorHue :=
  [gray; red; pink; grape; violet; indigo; blue; cyan; teal; green; lime;
   yellow; orange].

(** [OPEN_COLOR_HUES[key]]. *)
Definition hueInfo (key : OpenColorHue) : HueInfo :=
  match key with
  | gray => {| info_name := "Gray"; info_hue := 210; info_color := "#868e96" |}
  | red => {| info_name := "Red"; info_hue := 0; info_color := "#ff6b6b" |}
  | pink => {| info_name := "Pink"; info_hue := 328; info_color := "#f06595" |}
  | grape => {| info_name := "Grape"; info_hue := 294; info_color := "#cc5de8" |}
  | violet => {| info_name := "Violet"; info_hue := 260; info_color := "#845ef7" |}
  | indigo => {| info_name := "Indigo"; info_hue := 242; info_color := "#5c7cfa" |}
  | blue => {| info_name := "Blue"; info_hue := 200; info_color := "#339af0" |}
  | cyan => {| info_name := "Cyan"; info_hue := 187; info_color := "#22b8cf" |}
  | teal => {| info_name := "Teal"; info_hue := 162; info_color := "#20c997" |}
  | green => {| info_name := "Green"; info_hue := 120; info_color := "#51cf66" |}
  | lime => {| info_name := "Lime"; info_hue := 83; info_color := "#94d82d" |}
  | yellow => {| info_name := "Yellow"; info_hue := 44; info_color := "#fcc419" |}
  | orange => {| info_name := "Orange"; info_hue := 25; info_color := "#ff922b" |}
  end.

Definition OPEN_COLOR_HUES : list (OpenColorHue * HueInfo) :=
  map (fun key => (key, hueInfo key)) OPEN_COLOR_HUE_KEYS.

(** [OPEN_COLOR_PALETTE[key]]. *)
Definition paletteShades (key : OpenColorHue) : list string :=
  match key with
  | gray => ["#f8f9fa"; "#f1f3f4"; "#e9ecef"; "#dee2e6"; "#ced4da";
             "#adb5bd"; "#868e96"; "#495057"; "#343a40"; "#212529"]
  | red => ["#fff5f5"; "#ffe3e3"; "#ffc9c9"; "#ffa8a8"; "#ff8787";
            "#ff6b6b"; "#fa5252"; "#f03e3e"; "#e03131"; "#c92a2a"]
  | pink => ["#fff0f6"; "#ffdeeb"; "#fcc2d7"; "#faa2c1"; "#f783ac";
             "#f06595"; "#e64980"; "#d6336c"; "#c2255c"; "#a61e4d"]
  | grape => ["#f8f0fc"; "#f3d9fa"; "#eebefa"; "#e599f7"; "#da77f2";
              "#cc5de8"; "#be4bdb"; "#ae3ec9"; "#9c36b5"; "#862e9c"]
  | violet => ["#f3f0ff"; "#e5dbff"; "#d0bfff"; "#b197fc"; "#9775fa";
               "#845ef7"; "#7950f2"; "#7048e8"; "#6741d9"; "#5f3dc4"]
  | indigo => ["#edf2ff"; "#dbe4ff"; "#bac8ff"; "#91a7ff"; "#748ffc";
               "#5c7cfa"; "#4c6ef5"; "#4263eb"; "#3b5bdb"; "#364fc7"]
  | blue => ["#e7f5ff"; "#d0ebff"; "#a5d8ff"; "#74c0fc"; "#4dabf7";
             "#339af0"; "#228be6"; "#1c7ed6"; "#1971c2"; "#1864ab"]
  | cyan => ["#e3fafc"; "#c5f6fa"; "#99e9f2"; "#66d9ef"; "#3bc9db";
             "#22b8cf"; "#15aabf"; "#1098ad"; "#0c8599"; "#0b7285"]
  | teal => ["#e6fcf5"; "#c3fae8"; "#96f2d7"; "#63e6be"; "#38d9a9";
             "#20c997"; "#12b886"; "#0ca678"; "#099268"; "#087f5b"]
  | green => ["#ebfbee"; "#d3f9d8"; "#b2f2bb"; "#8ce99a"; "#69db7c";
              "#51cf66"; "#40c057"; "#37b24d"; "#2f9e44"; "#2b8a3e"]
  | lime => ["#f4fce3"; "#e9fac8"; "#d8f5a2"; "#c0eb75"; "#a9e34b";
             "#94d82d"; "#82c91e"; "#74b816"; "#66a80f"; "#5c940d"]
  | yellow => ["#fff9db"; "#fff3bf"; "#ffec99"; "#ffe066"; "#ffd43b";
               "#fcc419"; "#fab005"; "#f59f00"; "#f08c00"; "#e67700"]
  | orange => ["#fff4e6"; "#ffe8cc"; "#ffd8a8"; "#ffc078"; "#ffa94d";
               "#ff922b"; "#fd7e14"; "#f76707"; "#e8590c"; "#d9480f"]
  end.

Definition OPEN_COLOR_PALETTE : list (OpenColorHue * list string) :=
  map (fun key => (key, paletteShades key)) OPEN_COLOR_HUE_KEYS.

(** A [Record<OpenColorHue, T>]: entries in key insertion order. *)
Definition HueRecord (T : Type) : Type := list (OpenColorHue * T).

(** [record[key] = f(record[key])] for a key the record already has (the
    entry keeps its position); a record without the key is left alone. *)
Definition record_alter {T : Type} (f : T -> T) (key : OpenColorHue)
    (record : HueRecord T) : HueRecord T :=
  map (fun entry => if decide (entry.1 = key) then (entry.1, f entry.2) else entry)
      record.

(** [record[key] = value]: replaces the entry of an existing key in place,
    appends a new entry otherwise. *)
Definition record_set {T : Type} (key : OpenColorHue) (value : T)
    (record : HueRecord T) : HueRecord T :=
  if bool_decide (key ∈ record.*1)
  then record_alter (fun _ => value) key record
  else record ++ [(key, value)].

(** ** Hue classifier ([openColor.ts]) *)

Section OpenColor.
Context `{Colord}.

Definition calculateHueDistance (hue1 hue2 : R) : R :=
  let diff := Rabs (hue1 - hue2) in
  Rmin diff (360 - diff).

(** One iteration of the [forEach] over [Object.entries(OPEN_COLOR_HUES)]:
    the state is the pair of the mutable locals [closestHue] and
    [minDistance]. *)
Definition closestHueStep (h : R) (state : OpenColorHue * R)
    (entry : OpenColorHue * HueInfo) : OpenColorHue * R :=
  if decide (entry.1 = gray) then state
  else
    let distance := calculateHueDistance h (info_hue entry.2) in
    if decide (distance < state.2) then (entry.1, distance) else state.

Definition findClosestOpenColorHue (hexColor : string) : OpenColorHue :=
  let hsl := toHsl hexColor in
  if decide (hsl_s hsl < 15) then gray
  else (fold_left (closestHueStep (hsl_h hsl)) OPEN_COLOR_HUES (red, 180)).1.

Definition findClosestOpenColorShade (lightness : R) : nat :=
  let normalizedLightness := lightness / 100 in
  let shadeIndex := Rround ((1 - normalizedLightness) * 9) in
  Z.to_nat (Z.max 0 (Z.min 9 shadeIndex)).

(** Both modules define this helper with the same body. *)
Definition calculateColorDistance (hex1 hex2 : string) : R :=
  let rgb1 := toRgb hex1 in
  let rgb2 := toRgb hex2 in
  let dr := rgb_r rgb1 - rgb_r rgb2 in
  let dg := rgb_g rgb1 - rgb_g rgb2 in
  let db := rgb_b rgb1 - rgb_b rgb2 in
  sqrt (dr * dr + dg * dg + db * db).

Record OpenColorReference : Type := {
  ref_hue : OpenColorHue;
  ref_shade : nat;
  ref_distance : R
}.

(** [OPEN_COLOR_PALETTE[closestHue][closestShade]]; the index is clamped to
    0..9 and every list has ten entries, so the default is never read. *)
Definition findClosestOpenColor (hexColor : string) : OpenColorReference :=
  let hsl := toHsl hexColor in
  let closestHue := findClosestOpenColorHue hexColor in
  let closestShade := findClosestOpenColorShade (hsl_l hsl) in
  let referenceColor := nth closestShade (paletteShades closestHue) "#000000"%string in
  let distance := calculateColorDistance hexColor referenceColor in
  {| ref_hue := closestHue; ref_shade := closestShade; ref_distance := distance |}.

(** [grouped[closestHue].push(color)]. *)
Definition pushColor (grouped : HueRecord (list string)) (color : string)
    : HueRecord (list string) :=
  record_alter (fun members => members ++ [color])
               (findClosestOpenColorHue color) grouped.

Definition groupColorsByOpenColorHue (colors : list string)
    : HueRecord (list string) :=
  fold_left pushColor colors (map (fun key => (key, [])) OPEN_COLOR_HUE_KEYS).

(** The members of one family: the input colours classified into it, in
    input order. *)
Definition membersOf (colors : list string) (key : OpenColorHue) : list string :=
  filter (λ color, findClosestOpenColorHue color = key) colors.

End OpenColor.

(** ** Data model of the scheme generator ([colorSchemeGenerator.ts],
       [types/color.ts]) *)

Module ColorOccurrence.
Record t : Type := mk {
  file : string;
  line : Z;
  context : string;
  type : string;
  subType : option string;
  cssProperty : option string
}.
End ColorOccurrence.

Module ColorData.
Record t : Type := mk {
  hexValue : string;
  hue : R;
  primaryCategory : string;
  usagePattern : string;
  semanticMeaning : option (list string);
  occurrences : list ColorOccurrence.t;
  representations : list string * list string * list string * list string;
  aliases : list string * list string * list string * list string
}.
End ColorData.

(** [ColorDataMap = Record<string, ColorData>]: the entries in the order in
    which [Object.values] enumerates them. *)
Definition ColorDataMap : Type := list (string * ColorData.t).

Module TripleHueConfig.
Record t : Type := mk {
  enabled : bool;
  highlightThreshold : option R;
  shadowThreshold : option R
}.
End TripleHueConfig.

(** The object literal [calculateAverageHSL] returns. *)
Module AverageHSL.
Record t : Type := mk {
  avgHue : R;
  avgChroma : R;
  avgLightness : R;
  highlightHue : option R;
  midtoneHue : option R;
  shadowHue : option R;
  highlightColors : option (list string);
  midtoneColors : option (list string);
  shadowColors : option (list string)
}.
End AverageHSL.

Module HueAnalysis.
Record t : Type := mk {
  hue : OpenColorHue;
  colors : list string;
  avgHue : R;
  avgChroma : R;
  avgLightness : R;
  usage : nat;
  highlightHue : option R;
  midtoneHue : option R;
  shadowHue : option R;
  highlightColors : option (list string);
  midtoneColors : option (list string);
  shadowColors : option (list string)
}.
End HueAnalysis.

Module GeneratedColorScheme.
Record t : Type := mk {
  hue : OpenColorHue;
  name : string;
  shades : list string;
  analysis : HueAnalysis.t;
  tripleHueMode : option bool
}.
End GeneratedColorScheme.

Module ColorSchemeAnalysis.
Record t : Type := mk {
  totalColors : nat;
  hueAnalyses : list HueAnalysis.t;
  generatedSchemes : list GeneratedColorScheme.t;
  openColorMapping : gmap string OpenColorReference;
  tripleHueConfig : option TripleHueConfig.t
}.
End ColorSchemeAnalysis.

Module ColorMatch.
Record t : Type := mk {
  color : string;
  hue : OpenColorHue;
  shade : nat;
  schemeName : string;
  distance : number;
  colorName : string
}.
End ColorMatch.

(** The key of a family as a string, as [`${scheme.hue}`] prints it. *)
Definition hueKey (key : OpenColorHue) : string :=
  match key with
  | gray => "gray" | red => "red" | pink => "pink" | grape => "grape"
  | violet => "violet" | indigo => "indigo" | blue => "blue"
  | cyan => "cyan" | teal => "teal" | green => "green" | lime => "lime"
  | yellow => "yellow" | orange => "orange"
  end.

(** ** Spectral order *)

Definition SPECTRAL_ORDER : list OpenColorHue :=
  [red; pink; grape; violet; indigo; blue; cyan; teal; green; lime; yellow;
   orange; gray].

(** [indexOf] answers -1 for an absent element, which the code maps to 999. *)
Definition getSpectralIndex (hue : OpenColorHue) : nat :=
  match list_find (λ entry, entry = hue) SPECTRAL_ORDER with
  | Some (index, _) => index
  | None => 999
  end.

(** [Array.prototype.sort] is stable; with a comparator [key a - key b] it is
    the stable sort by [key], written here as an insertion sort. *)
Fixpoint insertByKey {A : Type} (key : A -> nat) (x : A) (sorted : list A)
    : list A :=
  match sorted with
  | [] => [x]
  | y :: rest =>
      if decide (key x <= key y)%nat then x :: y :: rest
      else y :: insertByKey key x rest
  end.

Definition sortByKey {A : Type} (key : A -> nat) (items : list A) : list A :=
  foldr (insertByKey key) [] items.

(** ** Circular statistics and hue interpolation *)

(** [Math.atan2] on finite arguments (signed zeros are not distinguished). *)
Definition atan2 (y x : R) : R :=
  if decide (0 < x) then atan (y / x)
  else if decide (x < 0) then
    if decide (0 <= y) then atan (y / x) + PI else atan (y / x) - PI
  else if decide (0 < y) then PI / 2
  else if decide (y < 0) then - (PI / 2)
  else 0.

Definition calculateCircularMean (hues : list R) : R :=
  if decide (length hues = 0%nat) then 0
  else
    let vectors :=
      map (fun hue => (cos (hue * PI / 180), sin (hue * PI / 180))) hues in
    let avgX :=
      fold_left (fun sum v => sum + v.1) vectors 0 / INR (length vectors) in
    let avgY :=
      fold_left (fun sum v => sum + v.2) vectors 0 / INR (length vectors) in
    let avgHue := atan2 avgY avgX * 180 / PI in
    if decide (avgHue < 0) then avgHue + 360 else avgHue.

(** [((hue % 360) + 360) % 360], which the code writes out at each use. *)
Definition normalizeHue (hue : R) : R := Rrem (Rrem hue 360 + 360) 360.

Definition interpolateHue (hue1 hue2 factor : R) : R :=
  let h1 := normalizeHue hue1 in
  let h2 := normalizeHue hue2 in
  let diff := h2 - h1 in
  let diff :=
    if decide (diff > 180) then diff - 360
    else if decide (diff < -180) then diff + 360
    else diff in
  let result := h1 + diff * factor in
  normalizeHue result.

(** ** Hue normalization and interpolation in double precision *)

Module Binary64.

(** The remainder operator [x % y] on doubles.  It is exact: the result is
    the dividend minus the divisor times the truncated quotient, with the
    sign of the dividend; [NaN] for an infinite dividend or a zero divisor. *)
Definition rem (x y : float) : float :=
  match Prim2SF x, Prim2SF y with
  | S754_nan, _ | _, S754_nan => nan
  | S754_infinity _, _ => nan
  | _, S754_zero _ => nan
  | S754_zero _, _ => x
  | S754_finite _ _ _, S754_infinity _ => x
  | S754_finite sx mx ex, S754_finite _ my ey =>
      let e := Z.min ex ey in
      let r := ((Z.pos mx * 2 ^ (ex - e)) mod (Z.pos my * 2 ^ (ey - e)))%Z in
      SF2Prim (binary_normalize prec emax (if sx then (- r)%Z else r) e sx)
  end.

(** [((hue % 360) + 360) % 360]. *)
Definition normalizeHue (hue : float) : float :=
  rem (rem hue 360 + 360)%float 360%float.

Definition interpolateHue (hue1 hue2 factor : float) : float :=
  let h1 := normalizeHue hue1 in
  let h2 := normalizeHue hue2 in
  let diff := (h2 - h1)%float in
  let diff :=
    if (180 <? diff)%float then (diff - 360)%float
    else if (diff <? -180)%float then (diff + 360)%float
    else diff in
  let result := (h1 + diff * factor)%float in
  normalizeHue result.

(** The [Math] object of the JavaScript runtime, as far as the circular
    mean uses it.  The runtime approximates the three functions; the engine
    only requires them. *)
Class MathLibrary : Type := {
  Math_PI : float;
  Math_cos : float -> float;
  Math_sin : float -> float;
  Math_atan2 : float -> float -> float
}.

(** [hues.length] as a double. *)
Definition ofLength {A : Type} (items : list A) : float :=
  PrimFloat.of_uint63 (Uint63.of_Z (Z.of_nat (length items))).

Definition calculateCircularMean `{MathLibrary} (hues : list float) : float :=
  if decide (length hues = 0%nat) then 0%float
  else
    let vectors :=
      map (fun hue => (Math_cos (hue * Math_PI / 180)%float,
                       Math_sin (hue * Math_PI / 180)%float)) hues in
    let avgX :=
      (fold_left (fun sum v => (sum + v.1)%float) vectors 0%float
       / ofLength vectors)%float in
    let avgY :=
      (fold_left (fun sum v => (sum + v.2)%float) vectors 0%float
       / ofLength vectors)%float in
    let avgHue := (Math_atan2 avgY avgX * 180 / Math_PI)%float in
    if (avgHue <? 0)%float then (avgHue + 360)%float else avgHue.

(** The [Math] object at one input: [Math.PI], and the correctly rounded
    values of [Math.cos], [Math.sin] and [Math.atan2] at the arguments that
    the circular mean of the hues 355 and 5 reaches ([NaN] anywhere else).
    The runtime is not part of the repository; the values are those of a
    correctly rounding library.  In decimal: the arguments are 6.19591884457987 and 0.08726646259971647,
    both cosines are 0.9961946980917455, the sines are -0.08715574274765832
    and 0.08715574274765817, and the arc tangent of -7.632783294297951e-17
    over 0.9961946980917455 is -7.661939286485745e-17. *)
Definition mathAtHues355And5 : MathLibrary :=
  {| Math_PI := 0x1.921fb54442d18p+1%float;
     Math_cos x :=
       if (x =? 0x1.8c89ef3189006p+2)%float then 0x1.fe0d3b41815a2p-1%float
       else if (x =? 0x1.657184ae74487p-4)%float then 0x1.fe0d3b41815a2p-1%float
       else nan;
     Math_sin x :=
       if (x =? 0x1.8c89ef3189006p+2)%float then (-0x1.64fd6b8c2810dp-4)%float
       else if (x =? 0x1.657184ae74487p-4)%float then 0x1.64fd6b8c28102p-4%float
       else nan;
     Math_atan2 y x :=
       if ((y =? -0x1.6p-54) && (x =? 0x1.fe0d3b41815a2p-1))%float
       then (-0x1.61583694524c4p-54)%float
       else nan |}.

(** The double of an integer hue. *)
Definition ofHue (hue : nat) : float :=
  PrimFloat.of_uint63 (Uint63.of_Z (Z.of_nat hue)).

(** What [interpolateHue] computes from an integer hue to itself, with the
    product [diff * factor] replaced by a zero of either sign: the shortest
    arc is [+0] and both zeros lead back to the hue. *)
Definition sameHueCheck (hue : nat) : bool :=
  let h1 := normalizeHue (ofHue hue) in
  let diff := (h1 - h1)%float in
  let diff :=
    if (180 <? diff)%float then (diff - 360)%float
    else if (diff <? -180)%float then (diff + 360)%float
    else diff in
  Leibniz.eqb diff 0%float
  && Leibniz.eqb (normalizeHue (h1 + 0)%float) (ofHue hue)
  && Leibniz.eqb (normalizeHue (h1 + -0)%float) (ofHue hue).


(** *** The shade synthesizer in double precision

    [generateOpenColorShades] once more, on doubles: the decision between
    the three-zone branch and the single hue compares rounded differences,
    so it is taken here as the code takes it. *)

(** [Math.max] and [Math.min] of two doubles: [NaN] if either is [NaN];
    of the two zeros, [Math.max] prefers [+0] and [Math.min] prefers [-0]. *)
Definition Math_max (x y : float) : float :=
  if is_nan x || is_nan y then nan
  else if (x <? y)%float then y
  else if (y <? x)%float then x
  else if get_sign x then y else x.

Definition Math_min (x y : float) : float :=
  if is_nan x || is_nan y then nan
  else if (x <? y)%float then x
  else if (y <? x)%float then y
  else if get_sign x then x else y.

(** [colord({h, s, l}).toHex()] on doubles; the engine only requires it. *)
Class ColourLibrary : Type := {
  hslToHex : float -> float -> float -> string
}.

Definition lightnessSteps : list float :=
  [96; 90; 82; 70; 56; 45; 37; 29; 22; 16]%float.

(** The local [useTripleHue]: [highlightHue - midtoneHue] and
    [midtoneHue - shadowHue] are double subtractions. *)
Definition useTripleHue (tripleHueMode : option bool)
    (highlightHue midtoneHue shadowHue : option float) : bool :=
  match tripleHueMode, highlightHue, midtoneHue, shadowHue with
  | Some true, Some hl, Some mid, Some sh =>
      (5 <? abs (hl - mid))%float || (5 <? abs (mid - sh))%float
  | _, _, _, _ => false
  end.

(** The literals [0.7] and [0.85] denote the doubles nearest to them,
    [0x1.6666666666666p-1] and [0x1.b333333333333p-1]. *)
Definition getChromaForLightness (baseChroma lightness : float) : float :=
  let numericChroma := Math_min 100 (Math_max 0 baseChroma) in
  if (85 <? lightness)%float then (numericChroma * 0x1.6666666666666p-1)%float
  else if (75 <? lightness)%float then (numericChroma * 0x1.b333333333333p-1)%float
  else if (35 <? lightness)%float then numericChroma
  else if (20 <? lightness)%float then (numericChroma * 0x1.b333333333333p-1)%float
  else (numericChroma * 0x1.6666666666666p-1)%float.

Definition threeZoneHue (highlightHue midtoneHue shadowHue lightness : float)
    : float :=
  if (75 <=? lightness)%float then
    let factor := Math_max 0 (Math_min 1 ((lightness - 75) / (96 - 75))%float) in
    interpolateHue midtoneHue highlightHue factor
  else if (40 <=? lightness)%float then
    let factor := ((lightness - 40) / (75 - 40))%float in
    if (factor <? 0.5)%float then
      let localFactor := (factor * 2)%float in
      interpolateHue shadowHue midtoneHue localFactor
    else
      let localFactor := ((factor - 0.5) * 2)%float in
      interpolateHue midtoneHue highlightHue localFactor
  else
    let factor := Math_max 0 (Math_min 1 ((lightness - 16) / (40 - 16))%float) in
    interpolateHue shadowHue midtoneHue factor.

(** [hueToUse] in the chromatic branch; the defaults of the non-null
    assertions are never taken, as [useTripleHue] makes the three hues
    defined. *)
Definition hueToUse (baseHue : float) (tripleHueMode : option bool)
    (highlightHue midtoneHue shadowHue : option float) (lightness : float)
    : float :=
  if useTripleHue tripleHueMode highlightHue midtoneHue shadowHue then
    threeZoneHue (default 0%float highlightHue) (default 0%float midtoneHue)
                 (default 0%float shadowHue) lightness
  else normalizeHue baseHue.

Definition generateOpenColorShades `{ColourLibrary} (baseHue baseChroma : float)
    (hueCategory : OpenColorHue) (tripleHueMode : option bool)
    (highlightHue midtoneHue shadowHue : option float) : list string :=
  if decide (hueCategory = gray) then
    map (fun lightness => hslToHex 210%float 8%float lightness) lightnessSteps
  else
    map (fun lightness =>
           let adjustedChroma := getChromaForLightness baseChroma lightness in
           hslToHex
             (hueToUse baseHue tripleHueMode highlightHue midtoneHue shadowHue
                       lightness)
             (Math_min 100 (Math_max 0 adjustedChroma))
             (Math_min 100 (Math_max 0 lightness)))
        lightnessSteps.

(** The condition under which the three-zone branch is taken, as the code
    decides it: the mode is on, the three zone hues are defined, and the
    double [highlightHue - midtoneHue] or the double
    [midtoneHue - shadowHue] is more than 5 in absolute value. *)
Definition adjacentZonesDiffer (tripleHueMode : option bool)
    (highlightHue midtoneHue shadowHue : option float) : Prop :=
  tripleHueMode = Some true /\
  exists hl mid sh : float,
    highlightHue = Some hl /\ midtoneHue = Some mid /\ shadowHue = Some sh /\
    ((5 <? abs (hl - mid))%float = true \/ (5 <? abs (mid - sh))%float = true).


End Binary64.

(** ** Group statistics *)

Section SchemeGenerator.
Context `{Colord}.

(** The three arrays [highlights], [midtones], [shadows] that the [forEach]
    pushes onto. *)
Definition separateStep (highlightThreshold shadowThreshold : R)
    (groups : list string * list string * list string) (color : string)
    : list string * list string * list string :=
  let '(highlights, midtones, shadows) := groups in
  let hsl := toHsl color in
  if decide (hsl_l hsl >= highlightThreshold) then
    (highlights ++ [color], midtones, shadows)
  else if decide (hsl_l hsl >= shadowThreshold) then
    (highlights, midtones ++ [color], shadows)
  else
    (highlights, midtones, shadows ++ [color]).

Definition separateIntoThreeGroups (colors : list string)
    (highlightThreshold shadowThreshold : R)
    : list string * list string * list string :=
  fold_left (separateStep highlightThreshold shadowThreshold) colors ([], [], []).

(** A result of [calculateAverageHSL] whose six triple-hue fields are
    [undefined]. *)
Definition singleHueResult (avgHue avgChroma avgLightness : R) : AverageHSL.t :=
  AverageHSL.mk avgHue avgChroma avgLightness None None None None None None.

(** The circular mean of the hues of a non-empty zone, [undefined] for an
    empty one. *)
Definition zoneHue (zone : list string) : option R :=
  if decide (zone = []) then None
  else Some (calculateCircularMean (map (fun color => hsl_h (toHsl color)) zone)).

Definition calculateAverageHSL (colors : list string) (hueCategory : OpenColorHue)
    (tripleHueConfig : option TripleHueConfig.t) : AverageHSL.t :=
  if decide (colors = []) then singleHueResult 0 0 0
  else if decide (hueCategory = gray) then
    let hslValues := map toHsl colors in
    let totalLightness := fold_left (fun sum hsl => sum + hsl_l hsl) hslValues 0 in
    singleHueResult 210 5 (totalLightness / INR (length colors))
  else
    let chromaticColors := filter (λ color, hsl_s (toHsl color) >= 15) colors in
    if decide (chromaticColors = []) then
      let referenceHue := hueInfo hueCategory in
      singleHueResult (info_hue referenceHue) 50 50
    else
      let hslValues := map toHsl chromaticColors in
      let avgHue := calculateCircularMean (map hsl_h hslValues) in
      let totalSaturation := fold_left (fun sum hsl => sum + hsl_s hsl) hslValues 0 in
      let totalLightness := fold_left (fun sum hsl => sum + hsl_l hsl) hslValues 0 in
      let avgChroma := totalSaturation / INR (length chromaticColors) in
      let avgLightness := totalLightness / INR (length chromaticColors) in
      match tripleHueConfig with
      | Some config =>
          if TripleHueConfig.enabled config then
            let '(highlights, midtones, shadows) :=
              separateIntoThreeGroups chromaticColors
                (default 66 (TripleHueConfig.highlightThreshold config))
                (default 33 (TripleHueConfig.shadowThreshold config)) in
            let highlightHue := zoneHue highlights in
            let midtoneHue := zoneHue midtones in
            let shadowHue := zoneHue shadows in
            let '(highlightHue, midtoneHue, shadowHue) :=
              match highlightHue, midtoneHue, shadowHue with
              | None, None, None => (Some avgHue, Some avgHue, Some avgHue)
              | _, _, _ =>
                  let availableHues :=
                    omap (λ hue : option R, hue)
                         [highlightHue; midtoneHue; shadowHue] in
                  match availableHues with
                  | fallbackHue :: _ =>
                      (Some (default fallbackHue highlightHue),
                       Some (default fallbackHue midtoneHue),
                       Some (default fallbackHue shadowHue))
                  | [] => (highlightHue, midtoneHue, shadowHue)
                  end
              end in
            let midtoneHue :=
              match highlightHue, midtoneHue, shadowHue with
              | Some hl, Some mid, Some sh =>
                  let extremesAverage := interpolateHue sh hl 0.5 in
                  Some (interpolateHue mid extremesAverage 0.5)
              | _, _, _ => midtoneHue
              end in
            AverageHSL.mk avgHue avgChroma avgLightness
              highlightHue midtoneHue shadowHue
              (Some highlights) (Some midtones) (Some shadows)
          else singleHueResult avgHue avgChroma avgLightness
      | None => singleHueResult avgHue avgChroma avgLightness
      end.

(** ** Shade synthesizer *)

Definition lightnessSteps : list R := [96; 90; 82; 70; 56; 45; 37; 29; 22; 16].

(** The local [useTripleHue] of [generateOpenColorShades]. *)
Definition useTripleHue (tripleHueMode : option bool)
    (highlightHue midtoneHue shadowHue : option R) : bool :=
  match tripleHueMode, highlightHue, midtoneHue, shadowHue with
  | Some true, Some hl, Some mid, Some sh =>
      bool_decide (Rabs (hl - mid) > 5) || bool_decide (Rabs (mid - sh) > 5)
  | _, _, _, _ => false
  end.

Definition getChromaForLightness (baseChroma : number) (lightness : R) : number :=
  let numericChroma := nmin (Fin 100) (nmax (Fin 0) baseChroma) in
  if decide (lightness > 85) then nscale numericChroma 0.7
  else if decide (lightness > 75) then nscale numericChroma 0.85
  else if decide (lightness > 35) then numericChroma
  else if decide (lightness > 20) then nscale numericChroma 0.85
  else nscale numericChroma 0.7.

(** The hue of the three-zone branch for one lightness step. *)
Definition threeZoneHue (highlightHue midtoneHue shadowHue lightness : R) : R :=
  if decide (lightness >= 75) then
    let factor := Rmax 0 (Rmin 1 ((lightness - 75) / (96 - 75))) in
    interpolateHue midtoneHue highlightHue factor
  else if decide (lightness >= 40) then
    let factor := (lightness - 40) / (75 - 40) in
    if decide (factor < 0.5) then
      let localFactor := factor * 2 in
      interpolateHue shadowHue midtoneHue localFactor
    else
      let localFactor := (factor - 0.5) * 2 in
      interpolateHue midtoneHue highlightHue localFactor
  else
    let factor := Rmax 0 (Rmin 1 ((lightness - 16) / (40 - 16))) in
    interpolateHue shadowHue midtoneHue factor.

(** [hueToUse] in the chromatic branch.  The non-null assertions
    [highlightHue!] and so on are read only when [useTripleHue] holds, which
    makes all three hues defined; the default is never taken. *)
Definition hueToUse (baseHue : R) (tripleHueMode : option bool)
    (highlightHue midtoneHue shadowHue : option R) (lightness : R) : R :=
  if useTripleHue tripleHueMode highlightHue midtoneHue shadowHue then
    threeZoneHue (default 0 highlightHue) (default 0 midtoneHue)
                 (default 0 shadowHue) lightness
  else normalizeHue baseHue.

Definition generateOpenColorShades (baseHue : R) (baseChroma : number)
    (hueCategory : OpenColorHue) (tripleHueMode : option bool)
    (highlightHue midtoneHue shadowHue : option R) : list string :=
  if decide (hueCategory = gray) then
    map (fun lightness => hslToHex (Fin 210) (Fin 8) (Fin lightness))
        lightnessSteps
  else
    map (fun lightness =>
           let adjustedChroma := getChromaForLightness baseChroma lightness in
           hslToHex
             (Fin (hueToUse baseHue tripleHueMode highlightHue midtoneHue
                            shadowHue lightness))
             (nmin (Fin 100) (nmax (Fin 0) adjustedChroma))
             (Fin (Rmin 100 (Rmax 0 lightness))))
        lightnessSteps.

(** ** Orchestration *)

(** [colors.find(c => c.hexValue === hexColor)?.occurrences.length || 0]. *)
Definition occurrenceCount (colors : list ColorData.t) (hexColor : string) : nat :=
  match find (fun c => bool_decide (ColorData.hexValue c = hexColor)) colors with
  | Some colorData => length (ColorData.occurrences colorData)
  | None => 0
  end.

Definition groupUsage (colors : list ColorData.t) (hueColors : list string) : nat :=
  fold_left (fun sum hexColor => (sum + occurrenceCount colors hexColor)%nat)
            hueColors 0%nat.

(** The callback of the [.map] over the non-empty groups. *)
Definition analyzeGroup (colors : list ColorData.t)
    (tripleHueConfig : option TripleHueConfig.t)
    (entry : OpenColorHue * list string) : HueAnalysis.t :=
  let '(hue, hueColors) := entry in
  let analysis := calculateAverageHSL hueColors hue tripleHueConfig in
  let usage := groupUsage colors hueColors in
  {| HueAnalysis.hue := hue;
     HueAnalysis.colors := hueColors;
     HueAnalysis.avgHue := AverageHSL.avgHue analysis;
     HueAnalysis.avgChroma := AverageHSL.avgChroma analysis;
     HueAnalysis.avgLightness := AverageHSL.avgLightness analysis;
     HueAnalysis.usage := usage;
     HueAnalysis.highlightHue := AverageHSL.highlightHue analysis;
     HueAnalysis.midtoneHue := AverageHSL.midtoneHue analysis;
     HueAnalysis.shadowHue := AverageHSL.shadowHue analysis;
     HueAnalysis.highlightColors := AverageHSL.highlightColors analysis;
     HueAnalysis.midtoneColors := AverageHSL.midtoneColors analysis;
     HueAnalysis.shadowColors := AverageHSL.shadowColors analysis |}.

Definition computeHueAnalyses (colors : list ColorData.t)
    (tripleHueConfig : option TripleHueConfig.t) : list HueAnalysis.t :=
  let hexColors := map ColorData.hexValue colors in
  let groupedColors := groupColorsByOpenColorHue hexColors in
  sortByKey (fun a => getSpectralIndex (HueAnalysis.hue a))
    (map (analyzeGroup colors tripleHueConfig)
         (filter (λ entry, entry.2 ≠ []) groupedColors)).

(** [sum of avgChroma / hueAnalyses.length]: [0 / 0], that is [NaN], when no
    group has a member. *)
Definition globalChromaOf (hueAnalyses : list HueAnalysis.t) : number :=
  ndiv (fold_left (fun sum analysis => sum + HueAnalysis.avgChroma analysis)
                  hueAnalyses 0)
       (INR (length hueAnalyses)).

(** The callback of the [.map] that builds the generated schemes. *)
Definition buildScheme (tripleHueConfig : option TripleHueConfig.t)
    (globalChroma : number) (analysis : HueAnalysis.t) : GeneratedColorScheme.t :=
  let shades :=
    generateOpenColorShades
      (HueAnalysis.avgHue analysis)
      (nmax (Fin (HueAnalysis.avgChroma analysis)) globalChroma)
      (HueAnalysis.hue analysis)
      (TripleHueConfig.enabled <$> tripleHueConfig)
      (HueAnalysis.highlightHue analysis)
      (HueAnalysis.midtoneHue analysis)
      (HueAnalysis.shadowHue analysis) in
  let hueInfo := hueInfo (HueAnalysis.hue analysis) in
  {| GeneratedColorScheme.hue := HueAnalysis.hue analysis;
     GeneratedColorScheme.name := info_name hueInfo;
     GeneratedColorScheme.shades := shades;
     GeneratedColorScheme.analysis := analysis;
     GeneratedColorScheme.tripleHueMode :=
       TripleHueConfig.enabled <$> tripleHueConfig |}.

Definition analyzeColorsForSchemeGeneration (colorData : ColorDataMap)
    (tripleHueConfig : option TripleHueConfig.t) : ColorSchemeAnalysis.t :=
  let colors := colorData.*2 in
  let openColorMapping :=
    fold_left
      (fun acc color =>
         let reference := findClosestOpenColor (ColorData.hexValue color) in
         <[ColorData.hexValue color := reference]> acc)
      colors (∅ : gmap string OpenColorReference) in
  let hueAnalyses := computeHueAnalyses colors tripleHueConfig in
  let globalChroma := globalChromaOf hueAnalyses in
  let generatedSchemes :=
    map (buildScheme tripleHueConfig globalChroma)
        (filter (λ analysis, (0 < HueAnalysis.usage analysis)%nat) hueAnalyses) in
  {| ColorSchemeAnalysis.totalColors := length colors;
     ColorSchemeAnalysis.hueAnalyses := hueAnalyses;
     ColorSchemeAnalysis.generatedSchemes := generatedSchemes;
     ColorSchemeAnalysis.openColorMapping := openColorMapping;
     ColorSchemeAnalysis.tripleHueConfig := tripleHueConfig |}.

(** ** Complete palette *)

Definition overrideWithScheme (palette : HueRecord (list string))
    (scheme : GeneratedColorScheme.t) : HueRecord (list string) :=
  if decide (1 <= HueAnalysis.usage (GeneratedColorScheme.analysis scheme))%nat
  then record_set (GeneratedColorScheme.hue scheme)
                  (GeneratedColorScheme.shades scheme) palette
  else palette.

Definition generateCompleteOpenColorPalette (colorData : ColorDataMap)
    (tripleHueConfig : option TripleHueConfig.t) : HueRecord (list string) :=
  let analysis := analyzeColorsForSchemeGeneration colorData tripleHueConfig in
  let palette :=
    fold_left (fun palette entry => record_set entry.1 entry.2 palette)
              OPEN_COLOR_PALETTE [] in
  fold_left overrideWithScheme
            (ColorSchemeAnalysis.generatedSchemes analysis) palette.

(** ** Scheme matcher *)

Definition defaultMatch : ColorMatch.t :=
  {| ColorMatch.color := "#000000";
     ColorMatch.hue := gray;
     ColorMatch.shade := 9;
     ColorMatch.schemeName := "Gray";
     ColorMatch.distance := PosInf;
     ColorMatch.colorName := "gray-9" |}.

(** The body of the inner [forEach]: one shade of one scheme. *)
Definition matchShade (inputColor : string) (scheme : GeneratedColorScheme.t)
    (closestMatch : ColorMatch.t) (indexed : nat * string) : ColorMatch.t :=
  let '(shadeIndex, shadeColor) := indexed in
  let distance := Fin (calculateColorDistance inputColor shadeColor) in
  if nlt distance (ColorMatch.distance closestMatch) then
    {| ColorMatch.color := shadeColor;
       ColorMatch.hue := GeneratedColorScheme.hue scheme;
       ColorMatch.shade := shadeIndex;
       ColorMatch.schemeName := GeneratedColorScheme.name scheme;
       ColorMatch.distance := distance;
       ColorMatch.colorName :=
         hueKey (GeneratedColorScheme.hue scheme) +:+ "-" +:+ pretty shadeIndex |}
  else closestMatch.

Definition matchScheme (inputColor : string) (closestMatch : ColorMatch.t)
    (scheme : GeneratedColorScheme.t) : ColorMatch.t :=
  fold_left (matchShade inputColor scheme)
            (imap (fun index shade => (index, shade))
                  (GeneratedColorScheme.shades scheme))
            closestMatch.

Definition findClosestSchemeColor (inputColor : string)
    (analysis : ColorSchemeAnalysis.t) : ColorMatch.t :=
  fold_left (matchScheme inputColor)
            (ColorSchemeAnalysis.generatedSchemes analysis) defaultMatch.

End SchemeGenerator.

(** ** Vocabulary of the properties *)

(** The condition under which the shade synthesizer interpolates over three
    zones, in exact arithmetic: the mode is on, the three zone hues are
    defined, and the highlight and midtone hues, or the midtone and shadow
    hues, are more than 5 apart.  [Binary64.adjacentZonesDiffer] is the
    condition on doubles, with the rounded differences that the code
    compares. *)
Definition adjacentZonesDiffer (tripleHueMode : option bool)
    (highlightHue midtoneHue shadowHue : option R) : Prop :=
  tripleHueMode = Some true /\
  exists hl mid sh : R,
    highlightHue = Some hl /\ midtoneHue = Some mid /\ shadowHue = Some sh /\
    (Rabs (hl - mid) > 5 \/ Rabs (mid - sh) > 5).

(** Whether [generateOpenColorShades] takes its three-zone branch: the gray
    family returns before the decision is made. *)
Definition usesThreeZone (hueCategory : OpenColorHue) (tripleHueMode : option bool)
    (highlightHue midtoneHue shadowHue : option R) : bool :=
  if decide (hueCategory = gray) then false
  else useTripleHue tripleHueMode highlightHue midtoneHue shadowHue.

(** Whether the shades of a generated scheme were synthesized by three-zone
    interpolation, from the arguments [buildScheme] passes on. *)
Definition schemeUsedThreeZone (tripleHueConfig : option TripleHueConfig.t)
    (scheme : GeneratedColorScheme.t) : bool :=
  let analysis := GeneratedColorScheme.analysis scheme in
  usesThreeZone (HueAnalysis.hue analysis)
                (TripleHueConfig.enabled <$> tripleHueConfig)
                (HueAnalysis.highlightHue analysis)
                (HueAnalysis.midtoneHue analysis)
                (HueAnalysis.shadowHue analysis).

(** ** A reference implementation of the colour library

    A model of the colord library, an external dependency whose source is
    not part of the repository: [#rgb], [#rgba], [#rrggbb] and [#rrggbbaa]
    strings parse to their channels (anything else is black), [toHsl] goes
    through HSV and rounds each component to an integer, and [toHex] goes
    back through HSV and prints the rounded channels.  It serves as the
    concrete library in the worked examples; no general theorem depends on
    it. *)

Definition hexDigit (c : ascii) : option Z :=
  let n := Z.of_nat (nat_of_ascii c) in
  if ((48 <=? n) && (n <=? 57))%Z then Some (n - 48)%Z
  else if ((97 <=? n) && (n <=? 102))%Z then Some (n - 87)%Z
  else if ((65 <=? n) && (n <=? 70))%Z then Some (n - 55)%Z
  else None.

Definition parseHex (hex : string) : option (Z * Z * Z) :=
  match list_ascii_of_string hex with
  | "#"%char :: digits =>
      match mapM hexDigit digits with
      | Some [r; g; b] | Some [r; g; b; _] =>
          Some (17 * r, 17 * g, 17 * b)%Z
      | Some [r1; r2; g1; g2; b1; b2] | Some [r1; r2; g1; g2; b1; b2; _; _] =>
          Some (16 * r1 + r2, 16 * g1 + g2, 16 * b1 + b2)%Z
      | _ => None
      end
  | _ => None
  end.

(** [colord(input)]: an input that does not parse is black. *)
Definition colordRgb (input : string) : Z * Z * Z :=
  default (0, 0, 0)%Z (parseHex input).

Definition roundQ (x : Q) : Z := Qfloor (x + (1 # 2))%Q.

(** [rgbaToHsla] followed by [roundHsla], in exact rational arithmetic. *)
Definition rgbToHslRounded (rgb : Z * Z * Z) : Z * Z * Z :=
  let '(r, g, b) := rgb in
  let max := Z.max r (Z.max g b) in
  let delta := (max - Z.min r (Z.min g b))%Z in
  let q := inject_Z in
  let hh : Q :=
    if (delta =? 0)%Z then 0%Q
    else if (max =? r)%Z then (q (g - b)%Z / q delta)%Q
    else if (max =? g)%Z then (2 + q (b - r)%Z / q delta)%Q
    else (4 + q (r - g)%Z / q delta)%Q in
  let h := (60 * (if Qlt_le_dec hh 0 then hh + 6 else hh))%Q in
  let s := if (max =? 0)%Z then 0%Q else (q delta / q max * 100)%Q in
  let v := (q max / 255 * 100)%Q in
  let hh2 := ((200 - s) * v / 100)%Q in
  let s2 :=
    if Qlt_le_dec 0 hh2 then
      if Qlt_le_dec hh2 200 then
        (s * v / 100 / (if Qlt_le_dec 100 hh2 then 200 - hh2 else hh2) * 100)%Q
      else 0%Q
    else 0%Q in
  (roundQ h, roundQ s2, roundQ (hh2 / 2)).

Definition colord_toHsl (input : string) : HslColor :=
  let '(h, s, l) := rgbToHslRounded (colordRgb input) in
  {| hsl_h := IZR h; hsl_s := IZR s; hsl_l := IZR l |}.

Definition colord_toRgb (input : string) : RgbColor :=
  let '(r, g, b) := colordRgb input in
  {| rgb_r := IZR r; rgb_g := IZR g; rgb_b := IZR b |}.

(** [clamp(value, 0, 100)]: [NaN] fails both comparisons and yields 0. *)
Definition clampPercent (value : number) : R :=
  match value with
  | Fin x => if decide (x > 100) then 100 else if decide (x > 0) then x else 0
  | PosInf => 100
  | NegInf | NaN => 0
  end.

(** [clampHue]: a non-finite hue is 0; a hue that is not positive after
    the remainder gets one turn added. *)
Definition clampHue (value : number) : R :=
  let degrees := match value with Fin x => Rrem x 360 | _ => 0 end in
  if decide (degrees > 0) then degrees else degrees + 360.

Definition hexPair (channel : Z) : string :=
  let digit (d : Z) : ascii :=
    if (d <? 10)%Z then ascii_of_nat (Z.to_nat (48 + d))
    else ascii_of_nat (Z.to_nat (87 + d)) in
  String (digit (channel / 16)%Z) (String (digit (channel mod 16)%Z) EmptyString).

Definition colord_hslToHex (h s l : number) : string :=
  let h := clampHue h in
  let l := clampPercent l in
  let s := clampPercent s * (if decide (l < 50) then l else 100 - l) / 100 in
  let sv := if decide (s > 0) then 2 * s / (l + s) * 100 else 0 in
  let v := l + s in
  let h6 := h / 360 * 6 in
  let sf := sv / 100 in
  let vf := v / 100 in
  let hh := Int_part h6 in
  let b := vf * (1 - sf) in
  let c := vf * (1 - (h6 - IZR hh) * sf) in
  let d := vf * (1 - (1 - h6 + IZR hh) * sf) in
  let sector := Z.to_nat (hh mod 6) in
  let red := nth sector [vf; c; b; b; d; vf] 0 * 255 in
  let green := nth sector [d; vf; vf; c; b; b] 0 * 255 in
  let blue := nth sector [b; b; d; vf; vf; c] 0 * 255 in
  "#" +:+ hexPair (Rround red) +:+ hexPair (Rround green) +:+ hexPair (Rround blue).

Definition colord_reference : Colord :=
  {| toHsl := colord_toHsl; toRgb := colord_toRgb; hslToHex := colord_hslToHex |}.



(** ** Worked inputs *)

Definition sampleOccurrence : ColorOccurrence.t :=
  ColorOccurrence.mk "header.css" 10 "color: #808080" "text" None None.

(** A mid-gray sample with the given usage sites; [hue] and the category
    fields are free. *)
Definition graySample (hue : R) (category : string)
    (occurrences : list ColorOccurrence.t) : ColorData.t :=
  ColorData.mk "#808080" hue category "global-design-system" None occurrences
    (["#808080"], [], [], []) ([], [], [], []).

Definition usedGray : ColorDataMap :=
  [("neutral", graySample 0 "brand" [sampleOccurrence])].

Definition unusedGray : ColorDataMap :=
  [("neutral", graySample 0 "brand" [])].

Definition tripleHueOn : option TripleHueConfig.t :=
  Some (TripleHueConfig.mk true None None).

(** [usedGray] with another informational hue and another category. *)
Definition usedGrayRelabelled : ColorDataMap :=
  [("neutral", graySample 123 "legacy" [sampleOccurrence])].

(** The one scheme that [usedGray] generates with the reference colour
    library. *)
Definition usedGrayScheme (tripleHueConfig : option TripleHueConfig.t)
    : GeneratedColorScheme.t :=
  @buildScheme colord_reference tripleHueConfig
    (globalChromaOf
       (@computeHueAnalyses colord_reference usedGray.*2 tripleHueConfig))
    (@analyzeGroup colord_reference usedGray.*2 tripleHueConfig
       (gray, ["#808080"])).

(** What the engine reads of a colour sample: its hex value and its list of
    usage sites. *)
Definition sampleCore (sample : ColorData.t)
    : string * list ColorOccurrence.t :=
  (ColorData.hexValue sample, ColorData.occurrences sample).

(** The shade lists of the complete palette after the schemes have been
    written over the reference lists, as a function of the family. *)
Definition paletteAfter (schemes : list GeneratedColorScheme.t)
    (shadesOf : OpenColorHue -> list string) : OpenColorHue -> list string :=
  fold_left
    (fun shadesOf scheme =>
       if decide (1 <= HueAnalysis.usage (GeneratedColorScheme.analysis scheme))%nat
       then fun key =>
              if decide (key = GeneratedColorScheme.hue scheme)
              then GeneratedColorScheme.shades scheme
              else shadesOf key
       else shadesOf)
    schemes shadesOf.

(** ** Ranked and family-scoped matching *)

Section SchemeMatcherVariants.
Context `{Colord}.

(** The object that the inner [forEach] of [findClosestSchemeColors] pushes
    for one shade of one scheme. *)
Definition candidateMatch (inputColor : string) (scheme : GeneratedColorScheme.t)
    (indexed : nat * string) : ColorMatch.t :=
  let '(shadeIndex, shadeColor) := indexed in
  let distance := Fin (calculateColorDistance inputColor shadeColor) in
  {| ColorMatch.color := shadeColor;
     ColorMatch.hue := GeneratedColorScheme.hue scheme;
     ColorMatch.shade := shadeIndex;
     ColorMatch.schemeName := GeneratedColorScheme.name scheme;
     ColorMatch.distance := distance;
     ColorMatch.colorName :=
       hueKey (GeneratedColorScheme.hue scheme) +:+ "-" +:+ pretty shadeIndex |}.

(** The array [matches] after the two nested loops. *)
Definition collectMatches (inputColor : string)
    (analysis : ColorSchemeAnalysis.t) : list ColorMatch.t :=
  flat_map
    (fun scheme =>
       map (candidateMatch inputColor scheme)
           (imap (fun index shade => (index, shade))
                 (GeneratedColorScheme.shades scheme)))
    (ColorSchemeAnalysis.generatedSchemes analysis).

(** [matches.sort((a, b) => a.distance - b.distance)]: the stable sort by
    distance.  The comparator is positive exactly when [b.distance <
    a.distance]; an element is inserted before the first one that is not
    strictly nearer. *)
Fixpoint insertByDistance (x : ColorMatch.t) (sorted : list ColorMatch.t)
    : list ColorMatch.t :=
  match sorted with
  | [] => [x]
  | y :: rest =>
      if nlt (ColorMatch.distance y) (ColorMatch.distance x)
      then y :: insertByDistance x rest
      else x :: y :: rest
  end.

Definition sortByDistance (matches : list ColorMatch.t) : list ColorMatch.t :=
  foldr insertByDistance [] matches.

(** [array.slice(0, count)] for an integer [count]: a negative count is
    taken from the end. *)
Definition sliceFromStart {A : Type} (count : Z) (items : list A) : list A :=
  if (count <? 0)%Z
  then take (Z.to_nat (Z.max 0 (Z.of_nat (length items) + count))) items
  else take (Z.to_nat count) items.

(** [count] is an optional parameter with the default 5. *)
Definition findClosestSchemeColors (inputColor : string)
    (analysis : ColorSchemeAnalysis.t) (count : option Z) : list ColorMatch.t :=
  sliceFromStart (default 5%Z count)
                 (sortByDistance (collectMatches inputColor analysis)).

(** What [findClosestColorInHue] returns: [null] when no scheme has the
    family; otherwise a match.  The match the loop starts from holds
    [scheme.shades[0]], which is [undefined] for a scheme without shades, so
    that such a scheme yields a match object without a colour. *)
Inductive HueMatchResult : Type :=
| NoScheme
| ColourlessMatch (hue : OpenColorHue) (schemeName : string)
| HueMatch (closestMatch : ColorMatch.t).

Definition findClosestColorInHue (inputColor : string) (hue : OpenColorHue)
    (analysis : ColorSchemeAnalysis.t) : HueMatchResult :=
  match find (fun s => bool_decide (GeneratedColorScheme.hue s = hue))
             (ColorSchemeAnalysis.generatedSchemes analysis) with
  | None => NoScheme
  | Some scheme =>
      match GeneratedColorScheme.shades scheme with
      | [] =>
          ColourlessMatch (GeneratedColorScheme.hue scheme)
                          (GeneratedColorScheme.name scheme)
      | firstShade :: _ =>
          HueMatch
            (fold_left (matchShade inputColor scheme)
               (imap (fun index shade => (index, shade))
                     (GeneratedColorScheme.shades scheme))
               {| ColorMatch.color := firstShade;
                  ColorMatch.hue := GeneratedColorScheme.hue scheme;
                  ColorMatch.shade := 0;
                  ColorMatch.schemeName := GeneratedColorScheme.name scheme;
                  ColorMatch.distance := PosInf;
                  ColorMatch.colorName :=
                    hueKey (GeneratedColorScheme.hue scheme) +:+ "-0" |})
      end
  end.

End SchemeMatcherVariants.

(** ** Family statistics of the generator page ([ColorSchemeGenerator.tsx]) *)

Module HueStat.
Record t : Type := mk {
  hue : OpenColorHue;
  name : string;
  colors : nat;
  usage : nat
}.
End HueStat.

(** The body of the [openColorStats] memo: one row per family of
    [OPEN_COLOR_HUES], with the member count and the usage of its analysis
    (0 when the family has none), sorted by spectral index. *)
Definition openColorStats (analysis : ColorSchemeAnalysis.t) : list HueStat.t :=
  let stats :=
    map (fun hue =>
           let hueAnalysis :=
             find (fun h => bool_decide (HueAnalysis.hue h = hue))
                  (ColorSchemeAnalysis.hueAnalyses analysis) in
           {| HueStat.hue := hue;
              HueStat.name := info_name (hueInfo hue);
              HueStat.colors :=
                match hueAnalysis with
                | Some h => length (HueAnalysis.colors h)
                | None => 0
                end;
              HueStat.usage :=
                match hueAnalysis with
                | Some h => HueAnalysis.usage h
                | None => 0
                end |})
        OPEN_COLOR_HUE_KEYS in
  sortByKey (fun stat => getSpectralIndex (HueStat.hue stat)) stats.

(** ** Vocabulary of the further properties *)

(** The condition under which [calculateAverageHSL] reaches its triple-hue
    branch: the configuration is present and enabled, the family is not
    gray, and some member has a saturation of at least 15. *)
Definition tripleHueApplies `{Colord} (colors : list string)
    (hueCategory : OpenColorHue) (tripleHueConfig : option TripleHueConfig.t)
    : Prop :=
  (exists config, tripleHueConfig = Some config /\
                  TripleHueConfig.enabled config = true) /\
  hueCategory ≠ gray /\
  exists color, color ∈ colors /\ hsl_s (toHsl color) >= 15.

(** What each iteration of the matcher loops does with one candidate: the
    candidate replaces the match held so far when it is strictly nearer. *)
Definition nearer (closestMatch candidate : ColorMatch.t) : ColorMatch.t :=
  if nlt (ColorMatch.distance candidate) (ColorMatch.distance closestMatch)
  then candidate else closestMatch.

(** [a] is at most as far from the query as [b]. *)
Definition noFartherThan (a b : ColorMatch.t) : Prop :=
  nlt (ColorMatch.distance b) (ColorMatch.distance a) = false.

(** [winner] is the first of the candidates at the smallest distance: it is
    strictly nearer than every candidate before it and no farther than any
    candidate after it. *)
Definition firstNearest (candidates : list ColorMatch.t)
    (winner : ColorMatch.t) : Prop :=
  exists before after,
    candidates = before ++ winner :: after /\
    (forall c, c ∈ before ->
               nlt (ColorMatch.distance winner) (ColorMatch.distance c) = true) /\
    (forall c, c ∈ after -> noFartherThan winner c).

(** The distance of a candidate is a finite number. *)
Definition finiteDistance (candidate : ColorMatch.t) : Prop :=
  exists d : R, ColorMatch.distance candidate = Fin d.

(** ** Further worked inputs *)

(** A sample with one usage site. *)
Definition usedSample (hexValue : string) : ColorData.t :=
  ColorData.mk hexValue 0 "brand" "global-design-system" None [sampleOccurrence]
    ([hexValue], [], [], []) ([], [], [], []).

(** Two reds on either side of the hue seam (hues 355 and 5). *)
Definition usedReds : ColorDataMap :=
  [("accent", usedSample "#ff0015"); ("warm", usedSample "#ff1500")].

(** The analysis of the red family of [usedReds] with the reference colour
    library. *)
Definition usedRedsAnalysis (tripleHueConfig : option TripleHueConfig.t)
    : HueAnalysis.t :=
  @analyzeGroup colord_reference usedReds.*2 tripleHueConfig
    (red, ["#ff0015"; "#ff1500"]).

(** * Properties *)

(** ** Arithmetic of the number model *)

(** Settles the comparisons between concrete reals that evaluating the code
    leaves behind as [decide]. *)
Ltac decide_reals :=
  repeat match goal with
         | |- context [decide ?P] =>
             first [ rewrite (decide_True (P := P)) by lra
                   | rewrite (decide_False (P := P)) by lra ]
         end.

Lemma Int_part_unique (x : R) (k : Z) :
  IZR k <= x < IZR k + 1 -> Int_part x = k.
Proof.
  intros [Hlo Hhi]. symmetry. apply Int_part_spec. lra.
Qed.

Lemma Rtrunc_nonneg (x : R) (k : Z) :
  0 <= x -> IZR k <= x < IZR k + 1 -> Rtrunc x = k.
Proof.
  intros Hx Hk. unfold Rtrunc.
  destruct (decide (0 <= x)) as [_ | Hneg]; [| contradiction].
  by apply Int_part_unique.
Qed.

(** The remainder of a non-negative dividend by a positive divisor. *)
Lemma Rrem_nonneg_spec (x y : R) (k : Z) :
  0 < y -> 0 <= x -> IZR k * y <= x < (IZR k + 1) * y ->
  Rrem x y = x - y * IZR k.
Proof.
  intros Hy Hx [Hlo Hhi]. unfold Rrem.
  rewrite (Rtrunc_nonneg (x / y) k); [reflexivity | |].
  - apply Rmult_le_pos; [lra |]. left. by apply Rinv_0_lt_compat.
  - split.
    + apply (Rmult_le_reg_r y); [lra |]. unfold Rdiv.
      rewrite Rmult_assoc, Rinv_l by lra. lra.
    + apply (Rmult_lt_reg_r y); [lra |]. unfold Rdiv.
      rewrite Rmult_assoc, Rinv_l by lra. lra.
Qed.

Lemma Rrem_small (x y : R) : 0 <= x < y -> Rrem x y = x.
Proof.
  intros [Hlo Hhi]. rewrite (Rrem_nonneg_spec x y 0); lra.
Qed.

Lemma Rrem_nonneg_range (x y : R) : 0 < y -> 0 <= x -> 0 <= Rrem x y < y.
Proof.
  intros Hy Hx. unfold Rrem, Rtrunc.
  destruct (decide (0 <= x / y)) as [_ | Hneg].
  - destruct (base_Int_part (x / y)) as [Hlo Hhi].
    assert (Hxy : x = x / y * y) by (field; lra).
    split; nra.
  - exfalso. apply Hneg. apply Rmult_le_pos; [lra |].
    left. by apply Rinv_0_lt_compat.
Qed.

Lemma Rrem_neg_range (x y : R) : 0 < y -> x < 0 -> - y < Rrem x y <= 0.
Proof.
  intros Hy Hx. unfold Rrem, Rtrunc.
  assert (Hq : x / y < 0).
  { unfold Rdiv. rewrite <- (Rmult_0_l (/ y)).
    apply Rmult_lt_compat_r; [by apply Rinv_0_lt_compat | lra]. }
  destruct (decide (0 <= x / y)) as [Hpos | _]; [lra |].
  destruct (base_Int_part (- (x / y))) as [Hlo Hhi].
  rewrite opp_IZR.
  assert (Hxy : x = x / y * y) by (field; lra).
  split; nra.
Qed.

Lemma Rrem_range (x y : R) : 0 < y -> - y < Rrem x y < y.
Proof.
  intros Hy. destruct (Rle_or_lt 0 x) as [Hx | Hx].
  - pose proof (Rrem_nonneg_range x y Hy Hx). lra.
  - pose proof (Rrem_neg_range x y Hy Hx). lra.
Qed.

Lemma normalizeHue_range (hue : R) : 0 <= normalizeHue hue < 360.
Proof.
  unfold normalizeHue.
  pose proof (Rrem_range hue 360 ltac:(lra)) as Hinner.
  apply Rrem_nonneg_range; lra.
Qed.

Lemma normalizeHue_id (hue : R) : 0 <= hue < 360 -> normalizeHue hue = hue.
Proof.
  intros Hh. unfold normalizeHue.
  rewrite (Rrem_small hue 360) by lra.
  rewrite (Rrem_nonneg_spec (hue + 360) 360 1); lra.
Qed.

Lemma normalizeHue_360 : normalizeHue 360 = 0.
Proof.
  unfold normalizeHue.
  rewrite (Rrem_nonneg_spec 360 360 1) by lra.
  replace (360 - 360 * 1 + 360) with 360 by lra.
  rewrite (Rrem_nonneg_spec 360 360 1); lra.
Qed.

(** X2. For a factor from 0 to 1, the range every caller passes, the
    interpolated hue lies in [0, 360): the step along the shortest arc is
    at most half a turn, the value before the final normalization stays in
    [-180, 540), and the normalization brings it back by at most one turn.
    The restriction on the factor matters in double precision, where the
    product of the step and the factor 2^1023 overflows and the result is
    [NaN]. *)
Lemma interpolateHue_range (hue1 hue2 factor : R) :
  0 <= factor <= 1 ->
  0 <= interpolateHue hue1 hue2 factor < 360 /\
  (exists diff : R,
     -180 <= diff <= 180 /\
     -180 <= normalizeHue hue1 + diff * factor < 540 /\
     interpolateHue hue1 hue2 factor
     = normalizeHue (normalizeHue hue1 + diff * factor)) /\
  is_nan (Binary64.interpolateHue 0 20 0x1p1023) = true.
Proof.
  intros Hfactor.
  split; [unfold interpolateHue; apply normalizeHue_range |].
  split; [| vm_compute; reflexivity].
  unfold interpolateHue. cbv zeta.
  pose proof (normalizeHue_range hue1) as H1.
  pose proof (normalizeHue_range hue2) as H2.
  set (h1 := normalizeHue hue1) in *. set (h2 := normalizeHue hue2) in *.
  destruct (decide (h2 - h1 > 180)) as [Hfar | Hnear].
  - exists (h2 - h1 - 360). split; [lra |]. split; [nra | done].
  - destruct (decide (h2 - h1 < -180)) as [Hfar' | Hnear'].
    + exists (h2 - h1 + 360). split; [lra |]. split; [nra | done].
    + exists (h2 - h1). split; [lra |]. split; [nra | done].
Qed.

(** From the hue 350 to the hue 10 with the factor 0.5. *)
Lemma interpolateHue_range_witness :
  0 <= interpolateHue 350 10 0.5 < 360 /\
  (exists diff : R,
     -180 <= diff <= 180 /\
     -180 <= normalizeHue 350 + diff * 0.5 < 540 /\
     interpolateHue 350 10 0.5 = normalizeHue (normalizeHue 350 + diff * 0.5)) /\
  is_nan (Binary64.interpolateHue 0 20 0x1p1023) = true.
Proof. apply interpolateHue_range. lra. Defined.

Lemma interpolateHue_through_seam : interpolateHue 350 10 0.5 = 0.
Proof.
  unfold interpolateHue.
  rewrite (normalizeHue_id 350), (normalizeHue_id 10) by lra.
  decide_reals.
  replace (350 + (10 - 350 + 360) * 0.5) with 360 by lra.
  apply normalizeHue_360.
Qed.

Lemma interpolateHue_same (h f : R) :
  0 <= h < 360 -> interpolateHue h h f = h.
Proof.
  intros Hh. unfold interpolateHue.
  rewrite (normalizeHue_id h) by lra.
  decide_reals.
  replace (h + (h - h) * f) with h by lra.
  by apply normalizeHue_id.
Qed.

(** ** Circular mean *)

Lemma atan2_bound (y x : R) : - PI < atan2 y x <= PI.
Proof.
  pose proof PI_RGT_0 as Hpi. unfold atan2.
  destruct (decide (0 < x)) as [Hx | Hx].
  { pose proof (atan_bound (y / x)). lra. }
  destruct (decide (x < 0)) as [Hx' | Hx'].
  - pose proof (atan_bound (y / x)) as Hb.
    assert (Hinv : / x < 0) by (by apply Rinv_lt_0_compat).
    destruct (decide (0 <= y)) as [Hy | Hy].
    + assert (Hq : y / x <= 0) by (unfold Rdiv; nra).
      assert (atan (y / x) <= 0).
      { destruct Hq as [Hq | Hq].
        - left. rewrite <- atan_0. by apply atan_increasing.
        - rewrite Hq, atan_0. lra. }
      lra.
    + assert (Hq : 0 < y / x) by (unfold Rdiv; nra).
      assert (0 < atan (y / x)).
      { rewrite <- atan_0. by apply atan_increasing. }
      lra.
  - destruct (decide (0 < y)); [lra |].
    destruct (decide (y < 0)); lra.
Qed.

Lemma calculateCircularMean_range (hues : list R) :
  0 <= calculateCircularMean hues < 360.
Proof.
  pose proof PI_RGT_0 as Hpi. unfold calculateCircularMean.
  destruct (decide (length hues = 0%nat)) as [_ | _]; [lra |].
  cbv zeta.
  match goal with
  | |- context [atan2 ?y ?x] =>
      destruct (atan2_bound y x) as [Hlo Hhi]; set (angle := atan2 y x) in *
  end.
  assert (Hdeg : -180 < angle * 180 / PI <= 180).
  { split.
    - apply (Rmult_lt_reg_r PI); [lra |]. unfold Rdiv.
      rewrite Rmult_assoc, Rinv_l by lra. lra.
    - apply (Rmult_le_reg_r PI); [lra |]. unfold Rdiv.
      rewrite Rmult_assoc, Rinv_l by lra. lra. }
  destruct (decide (angle * 180 / PI < 0)); lra.
Qed.

Lemma cos_sin_350 :
  cos (350 * PI / 180) = cos (10 * PI / 180) /\
  sin (350 * PI / 180) = - sin (10 * PI / 180).
Proof.
  replace (350 * PI / 180) with (2 * PI - 10 * PI / 180) by lra.
  rewrite cos_minus, sin_minus, cos_2PI, sin_2PI. lra.
Qed.

Lemma calculateCircularMean_350_10 : calculateCircularMean [350; 10] = 0.
Proof.
  pose proof PI_RGT_0 as Hpi.
  destruct cos_sin_350 as [Hc Hs].
  assert (Hpos : 0 < cos (10 * PI / 180)) by (apply cos_gt_0; lra).
  unfold calculateCircularMean. simpl. rewrite Hc, Hs.
  set (c := cos (10 * PI / 180)) in *. set (s := sin (10 * PI / 180)) in *.
  replace ((0 + - s + s) / (1 + 1)) with 0 by lra.
  replace ((0 + c + c) / (1 + 1)) with c by lra.
  unfold atan2. decide_reals.
  replace (0 / c) with 0 by (unfold Rdiv; lra).
  rewrite atan_0. replace (0 * 180 / PI) with 0 by (unfold Rdiv; lra).
  by decide_reals.
Qed.

Lemma calculateCircularMean_four_quadrants :
  calculateCircularMean [0; 90; 180; 270] = 0.
Proof.
  pose proof PI_RGT_0 as Hpi.
  unfold calculateCircularMean. simpl.
  replace (0 * PI / 180) with 0 by lra.
  replace (90 * PI / 180) with (PI / 2) by lra.
  replace (180 * PI / 180) with PI by (field; lra).
  replace (270 * PI / 180) with (3 * (PI / 2)) by lra.
  rewrite cos_0, sin_0, cos_PI2, sin_PI2, cos_PI, sin_PI, cos_3PI2, sin_3PI2.
  replace ((0 + 0 + 1 + 0 + -1) / (1 + 1 + 1 + 1)) with 0 by lra.
  replace ((0 + 1 + 0 + -1 + 0) / (1 + 1 + 1 + 1)) with 0 by lra.
  unfold atan2. decide_reals.
  replace (0 * 180 / PI) with 0 by (unfold Rdiv; lra).
  by decide_reals.
Qed.

(** In exact arithmetic only (the doubles of the code differ, see C5
    below): the circular mean of [350; 10] is 0 (not 180); the mean of
    [0; 90; 180; 270], whose vector average is the zero vector, is the value
    [atan2 0 0 = 0]; the mean of the empty list is 0; and every returned
    value lies in [0, 360). *)
Theorem circular_mean_exact :
  calculateCircularMean [350; 10] = 0 /\
  calculateCircularMean [0; 90; 180; 270] = 0 /\
  calculateCircularMean [] = 0 /\
  forall hues : list R, 0 <= calculateCircularMean hues < 360.
Proof.
  split; [apply calculateCircularMean_350_10 |].
  split; [apply calculateCircularMean_four_quadrants |].
  split; [reflexivity | apply calculateCircularMean_range].
Qed.

(** C5 (the defect). In double precision the circular mean leaves the
    interval [0, 360): for the hues 355 and 5 the two sines do not cancel,
    the mean angle is -4.39e-15 degrees, and adding 360 to it rounds to 360
    itself, which the function returns. *)
Theorem C5_circular_mean_reaches_360 :
  @Binary64.calculateCircularMean Binary64.mathAtHues355And5
    [355%float; 5%float]
  = 360%float.
Proof. vm_compute. reflexivity. Qed.

(** ** Hue interpolation in double precision *)

Lemma zero_times_finite (factor : float) :
  is_finite factor = true ->
  (0 * factor)%float = 0%float \/ (0 * factor)%float = (-0)%float.
Proof.
  intros Hfin.
  rewrite <- (SF2Prim_Prim2SF (0 * factor)), mul_spec.
  rewrite <- (SF2Prim_Prim2SF factor) in Hfin.
  replace (Prim2SF 0) with (S754_zero false) by (vm_compute; reflexivity).
  destruct (Prim2SF factor) as [s | s | | s m e].
  - destruct s; [right | left]; vm_compute; reflexivity.
  - destruct s; vm_compute in Hfin; discriminate Hfin.
  - vm_compute in Hfin. discriminate Hfin.
  - destruct s; [right | left]; vm_compute; reflexivity.
Qed.

Lemma sameHueCheck_all : forallb Binary64.sameHueCheck (seq 0 360) = true.
Proof. vm_compute. reflexivity. Qed.

(** In double precision, interpolating from an integer hue to itself gives
    the hue back, whatever the finite factor. *)
Lemma interpolateHue_same_integer (hue : nat) (factor : float) :
  (hue < 360)%nat -> is_finite factor = true ->
  Binary64.interpolateHue (Binary64.ofHue hue) (Binary64.ofHue hue) factor
  = Binary64.ofHue hue.
Proof.
  intros Hhue Hfin.
  pose proof sameHueCheck_all as Hall.
  rewrite forallb_forall in Hall.
  specialize (Hall hue ltac:(apply in_seq; lia)).
  unfold Binary64.sameHueCheck in Hall. cbv zeta in Hall.
  apply andb_prop in Hall as [Hall Hminus].
  apply andb_prop in Hall as [Hdiff Hplus].
  apply Leibniz.eqb_spec in Hdiff, Hplus, Hminus.
  unfold Binary64.interpolateHue. cbv zeta. rewrite Hdiff.
  destruct (zero_times_finite factor Hfin) as [-> | ->]; assumption.
Qed.

(** C6 (as amended). [interpolateHue 350 10 0.5] is 0, the shortest arc
    through the 0/360 seam, in exact arithmetic and in double precision
    alike.  Interpolating from a hue [h] of [0, 360) to itself gives [h]
    back for every factor in exact arithmetic, and in double precision for
    every integer hue and every finite factor. *)
Theorem C6_interpolateHue_wraparound (h f : R) (hue : nat) (factor : float) :
  0 <= h < 360 -> (hue < 360)%nat -> is_finite factor = true ->
  interpolateHue 350 10 0.5 = 0 /\
  interpolateHue h h f = h /\
  Binary64.interpolateHue 350 10 0.5 = 0%float /\
  Binary64.interpolateHue (Binary64.ofHue hue) (Binary64.ofHue hue) factor
  = Binary64.ofHue hue.
Proof.
  intros Hh Hhue Hfin.
  split; [apply interpolateHue_through_seam |].
  split; [by apply interpolateHue_same |].
  split; [vm_compute; reflexivity |].
  by apply interpolateHue_same_integer.
Qed.

(** The hue 120 and the factor 0.25 meet the hypotheses of C6. *)
Lemma C6_interpolateHue_wraparound_witness :
  interpolateHue 350 10 0.5 = 0 /\
  interpolateHue 120 120 0.25 = 120 /\
  Binary64.interpolateHue 350 10 0.5 = 0%float /\
  Binary64.interpolateHue (Binary64.ofHue 120) (Binary64.ofHue 120) 0.25
  = Binary64.ofHue 120.
Proof.
  apply C6_interpolateHue_wraparound; [lra | lia | reflexivity].
Defined.

(** The claim as stated fails in double precision: the double nearest to
    0.1 lies in [0, 360), and interpolating from it to itself with the
    factor 0.5 gives the double nearest to 0.10000000000002274, because
    the sum with 360 inside the normalization is rounded. *)
Lemma C6_rounding_counterexample :
  (0 <=? 0x1.999999999999ap-4)%float = true /\
  (0x1.999999999999ap-4 <? 360)%float = true /\
  Binary64.interpolateHue 0x1.999999999999ap-4 0x1.999999999999ap-4 0.5
  = 0x1.999999999ap-4%float /\
  (Binary64.interpolateHue 0x1.999999999999ap-4 0x1.999999999999ap-4 0.5
   =? 0x1.999999999999ap-4)%float = false.
Proof. repeat split; vm_compute; reflexivity. Qed.

(** ** Records keyed by hue family *)

Lemma OPEN_COLOR_HUE_KEYS_NoDup : NoDup OPEN_COLOR_HUE_KEYS.
Proof. compute_done. Qed.

Lemma OPEN_COLOR_HUE_KEYS_complete (key : OpenColorHue) :
  key ∈ OPEN_COLOR_HUE_KEYS.
Proof. destruct key; compute_done. Qed.

Create HintDb hue_keys.
#[global] Hint Resolve OPEN_COLOR_HUE_KEYS_NoDup OPEN_COLOR_HUE_KEYS_complete
  : hue_keys.

Lemma record_alter_keys {T : Type} (f : T -> T) (key : OpenColorHue)
    (record : HueRecord T) :
  (record_alter f key record).*1 = record.*1.
Proof.
  unfold record_alter. induction record as [| [k v] rest IH]; [done |].
  cbn. rewrite IH. by destruct (decide (k = key)).
Qed.

Lemma record_alter_length {T : Type} (f : T -> T) (key : OpenColorHue)
    (record : HueRecord T) :
  length (record_alter f key record) = length record.
Proof. unfold record_alter. by rewrite length_map. Qed.

(** Altering a record that is tabulated over its keys re-tabulates it. *)
Lemma record_alter_tabulate {T : Type} (f : T -> T) (key : OpenColorHue)
    (g : OpenColorHue -> T) (keys : list OpenColorHue) :
  record_alter f key (map (fun k => (k, g k)) keys)
  = map (fun k => (k, if decide (k = key) then f (g k) else g k)) keys.
Proof.
  unfold record_alter. rewrite map_map. apply map_ext. intros k. cbn.
  by destruct (decide (k = key)).
Qed.

Lemma record_set_tabulate {T : Type} (key : OpenColorHue) (value : T)
    (g : OpenColorHue -> T) (keys : list OpenColorHue) :
  key ∈ keys ->
  record_set key value (map (fun k => (k, g k)) keys)
  = map (fun k => (k, if decide (k = key) then value else g k)) keys.
Proof.
  intros Hin. unfold record_set.
  rewrite bool_decide_eq_true_2.
  - apply record_alter_tabulate.
  - rewrite <- list_fmap_compose. by rewrite list_fmap_id.
Qed.

(** Adding one element to the part of exactly one key adds it to the
    gathered list. *)
Lemma concat_cons_at_key {A K : Type} `{EqDecision K} (key : K) (x : A)
    (g : K -> list A) (keys : list K) :
  NoDup keys -> key ∈ keys ->
  concat (map (fun k => if decide (key = k) then x :: g k else g k) keys)
  ≡ₚ x :: concat (map g keys).
Proof.
  intros Hnodup. induction Hnodup as [| k keys Hnotin Hnodup IH]; intros Hin.
  - by apply elem_of_nil in Hin.
  - cbn [map concat]. destruct (decide (key = k)) as [-> | Hne].
    + cbn. rewrite (map_ext_in _ g keys); [done |].
      intros k' Hk'%list_elem_of_In.
      destruct (decide (k = k')) as [-> | _]; [contradiction | done].
    + apply elem_of_cons in Hin as [-> | Hin]; [contradiction |].
      rewrite (IH Hin). by rewrite Permutation_middle.
Qed.

(** Splitting a list by a key function and gathering the parts over a
    duplicate-free list of keys that covers it gives the list back, up to
    order. *)
Lemma concat_filter_by_key {A K : Type} `{EqDecision K} (f : A -> K)
    (keys : list K) (items : list A) :
  NoDup keys -> (forall item, item ∈ items -> f item ∈ keys) ->
  concat (map (fun k => filter (λ item, f item = k) items) keys) ≡ₚ items.
Proof.
  intros Hnodup. induction items as [| item items IH]; intros Hcover.
  - clear. induction keys as [| k keys IHk]; [done | by cbn].
  - assert (Hhead : f item ∈ keys) by (apply Hcover; by left).
    assert (Htail : forall i, i ∈ items -> f i ∈ keys)
      by (intros i Hi; apply Hcover; by right).
    etransitivity; [| apply perm_skip, (IH Htail)].
    etransitivity;
      [| exact (concat_cons_at_key (f item) item _ keys Hnodup Hhead)].
    reflexivity.
Qed.

(** ** The hue groups partition the input *)

Section Grouping.
Context `{Colord}.

Lemma pushColor_tabulate (processed : list string) (color : string) :
  pushColor (map (fun key => (key, membersOf processed key)) OPEN_COLOR_HUE_KEYS)
            color
  = map (fun key => (key, membersOf (processed ++ [color]) key))
        OPEN_COLOR_HUE_KEYS.
Proof.
  unfold pushColor. rewrite record_alter_tabulate.
  apply map_ext. intros key. f_equal. unfold membersOf.
  rewrite filter_app, filter_cons, filter_nil.
  destruct (decide (key = findClosestOpenColorHue color)) as [-> | Hne].
  - by rewrite decide_True.
  - rewrite decide_False by done. by rewrite app_nil_r.
Qed.

Lemma fold_pushColor_tabulate (colors processed : list string) :
  fold_left pushColor colors
    (map (fun key => (key, membersOf processed key)) OPEN_COLOR_HUE_KEYS)
  = map (fun key => (key, membersOf (processed ++ colors) key))
        OPEN_COLOR_HUE_KEYS.
Proof.
  revert processed. induction colors as [| color colors IH]; intros processed.
  - by rewrite app_nil_r.
  - cbn [fold_left]. rewrite pushColor_tabulate, IH.
    by rewrite <- app_assoc.
Qed.

(** The grouping is the table of the thirteen families, each with the input
    colours classified into it. *)
Lemma groupColorsByOpenColorHue_tabulate (colors : list string) :
  groupColorsByOpenColorHue colors
  = map (fun key => (key, membersOf colors key)) OPEN_COLOR_HUE_KEYS.
Proof.
  unfold groupColorsByOpenColorHue.
  exact (fold_pushColor_tabulate colors []).
Qed.

Lemma groupColorsByOpenColorHue_keys (colors : list string) :
  (groupColorsByOpenColorHue colors).*1 = OPEN_COLOR_HUE_KEYS.
Proof.
  rewrite groupColorsByOpenColorHue_tabulate.
  rewrite <- list_fmap_compose. apply list_fmap_id.
Qed.

Lemma groupColorsByOpenColorHue_lookup (colors : list string)
    (key : OpenColorHue) (members : list string) :
  (key, members) ∈ groupColorsByOpenColorHue colors <->
  members = membersOf colors key.
Proof.
  rewrite groupColorsByOpenColorHue_tabulate, list_elem_of_fmap. split.
  - intros (k & [= -> ->] & _). done.
  - intros ->. exists key. split; [done | apply OPEN_COLOR_HUE_KEYS_complete].
Qed.

(** C4. Grouping is a total partition of the input: the output has exactly
    the thirteen families as keys (a family without members has the empty
    list); the member list of a family is the list of input colours that
    classify into it, so a colour belongs to the list of its own family and
    to no other; and the member lists together are the input, each
    occurrence exactly once. *)
Theorem C4_grouping_is_total_partition (colors : list string) :
  (groupColorsByOpenColorHue colors).*1 = OPEN_COLOR_HUE_KEYS /\
  NoDup (groupColorsByOpenColorHue colors).*1 /\
  (forall key : OpenColorHue, key ∈ (groupColorsByOpenColorHue colors).*1) /\
  (forall key : OpenColorHue,
     (key, filter (λ color, findClosestOpenColorHue color = key) colors)
       ∈ groupColorsByOpenColorHue colors) /\
  (forall (key : OpenColorHue) (members : list string) (color : string),
     (key, members) ∈ groupColorsByOpenColorHue colors ->
     (color ∈ members <-> color ∈ colors /\ findClosestOpenColorHue color = key)) /\
  concat (groupColorsByOpenColorHue colors).*2 ≡ₚ colors.
Proof.
  rewrite groupColorsByOpenColorHue_keys.
  split; [done |].
  split; [auto with hue_keys |].
  split; [auto with hue_keys |].
  split; [intros key; by apply groupColorsByOpenColorHue_lookup |].
  split.
  - intros key members color ->%groupColorsByOpenColorHue_lookup.
    unfold membersOf. rewrite list_elem_of_filter. tauto.
  - rewrite groupColorsByOpenColorHue_tabulate.
    rewrite <- list_fmap_compose.
    apply (concat_filter_by_key findClosestOpenColorHue); auto with hue_keys.
Qed.

End Grouping.

(** ** The three-zone decision of the shade synthesizer *)

Lemma useTripleHue_spec (tripleHueMode : option bool)
    (highlightHue midtoneHue shadowHue : option R) :
  useTripleHue tripleHueMode highlightHue midtoneHue shadowHue = true <->
  adjacentZonesDiffer tripleHueMode highlightHue midtoneHue shadowHue.
Proof.
  unfold useTripleHue, adjacentZonesDiffer. split.
  - destruct tripleHueMode as [[|] |], highlightHue as [hl |],
      midtoneHue as [mid |], shadowHue as [sh |]; try discriminate.
    intros Hor. apply orb_true_iff in Hor.
    split; [done |]. exists hl, mid, sh. repeat split.
    destruct Hor as [Hd | Hd]; apply bool_decide_eq_true in Hd; tauto.
  - intros [-> (hl & mid & sh & -> & -> & -> & Hor)].
    apply orb_true_iff.
    destruct Hor as [Hd | Hd]; [left | right]; by apply bool_decide_eq_true.
Qed.

Lemma generateOpenColorShades_length `{Colord} (baseHue : R)
    (baseChroma : number) (hueCategory : OpenColorHue)
    (tripleHueMode : option bool) (highlightHue midtoneHue shadowHue : option R) :
  length (generateOpenColorShades baseHue baseChroma hueCategory tripleHueMode
            highlightHue midtoneHue shadowHue) = 10%nat.
Proof.
  unfold generateOpenColorShades.
  destruct (decide (hueCategory = gray)); by rewrite length_map.
Qed.






(** ** Structure of the orchestration *)

Lemma insertByKey_Permutation {A : Type} (key : A -> nat) (x : A)
    (sorted : list A) :
  insertByKey key x sorted ≡ₚ x :: sorted.
Proof.
  induction sorted as [| y rest IH]; [done |]. cbn.
  destruct (decide (key x <= key y)%nat); [done |].
  rewrite IH. apply perm_swap.
Qed.

Lemma sortByKey_Permutation {A : Type} (key : A -> nat) (items : list A) :
  sortByKey key items ≡ₚ items.
Proof.
  unfold sortByKey. induction items as [| x items IH]; [done |]. cbn.
  by rewrite insertByKey_Permutation, IH.
Qed.

Lemma filter_fst_sublist {A B : Type} (P : A * B -> Prop)
    `{forall entry, Decision (P entry)} (entries : list (A * B)) :
  (filter P entries).*1 `sublist_of` entries.*1.
Proof.
  induction entries as [| entry entries IH]; [done |].
  rewrite filter_cons. destruct (decide (P entry)); cbn.
  - by apply sublist_skip.
  - by apply sublist_cons.
Qed.

Section Orchestration.
Context `{Colord}.

Lemma analyzeGroup_hue (colors : list ColorData.t)
    (tripleHueConfig : option TripleHueConfig.t)
    (entry : OpenColorHue * list string) :
  HueAnalysis.hue (analyzeGroup colors tripleHueConfig entry) = entry.1.
Proof. by destruct entry. Qed.

Lemma analyzeGroup_colors (colors : list ColorData.t)
    (tripleHueConfig : option TripleHueConfig.t)
    (entry : OpenColorHue * list string) :
  HueAnalysis.colors (analyzeGroup colors tripleHueConfig entry) = entry.2.
Proof. by destruct entry. Qed.

Lemma analyzeGroup_usage (colors : list ColorData.t)
    (tripleHueConfig : option TripleHueConfig.t)
    (entry : OpenColorHue * list string) :
  HueAnalysis.usage (analyzeGroup colors tripleHueConfig entry)
  = groupUsage colors entry.2.
Proof. by destruct entry. Qed.

(** The per-family analyses are, up to the spectral sort, the analyses of
    the non-empty groups. *)
Lemma computeHueAnalyses_Permutation (colors : list ColorData.t)
    (tripleHueConfig : option TripleHueConfig.t) :
  computeHueAnalyses colors tripleHueConfig
  ≡ₚ map (analyzeGroup colors tripleHueConfig)
         (filter (λ entry, entry.2 ≠ [])
                 (groupColorsByOpenColorHue (map ColorData.hexValue colors))).
Proof. unfold computeHueAnalyses. apply sortByKey_Permutation. Qed.

Lemma elem_of_computeHueAnalyses (colors : list ColorData.t)
    (tripleHueConfig : option TripleHueConfig.t) (analysis : HueAnalysis.t) :
  analysis ∈ computeHueAnalyses colors tripleHueConfig <->
  exists entry,
    analysis = analyzeGroup colors tripleHueConfig entry /\
    entry ∈ groupColorsByOpenColorHue (map ColorData.hexValue colors) /\
    entry.2 ≠ [].
Proof.
  rewrite computeHueAnalyses_Permutation, list_elem_of_fmap.
  split; intros (entry & Heq & Hin); exists entry.
  - apply list_elem_of_filter in Hin. tauto.
  - split; [done |]. apply list_elem_of_filter. tauto.
Qed.

(** No family is analysed twice. *)
Lemma computeHueAnalyses_NoDup_hue (colors : list ColorData.t)
    (tripleHueConfig : option TripleHueConfig.t) :
  NoDup (HueAnalysis.hue <$> computeHueAnalyses colors tripleHueConfig).
Proof.
  rewrite computeHueAnalyses_Permutation.
  rewrite <- list_fmap_compose.
  rewrite (list_fmap_ext (HueAnalysis.hue ∘ analyzeGroup colors tripleHueConfig)
             fst _ (fun _ entry _ => analyzeGroup_hue _ _ entry)).
  eapply sublist_NoDup; [| apply filter_fst_sublist].
  rewrite groupColorsByOpenColorHue_keys. apply OPEN_COLOR_HUE_KEYS_NoDup.
Qed.

Lemma elem_of_generatedSchemes (colorData : ColorDataMap)
    (tripleHueConfig : option TripleHueConfig.t)
    (scheme : GeneratedColorScheme.t) :
  scheme ∈ ColorSchemeAnalysis.generatedSchemes
             (analyzeColorsForSchemeGeneration colorData tripleHueConfig) <->
  exists analysis,
    scheme = buildScheme tripleHueConfig
               (globalChromaOf (computeHueAnalyses colorData.*2 tripleHueConfig))
               analysis /\
    analysis ∈ computeHueAnalyses colorData.*2 tripleHueConfig /\
    (0 < HueAnalysis.usage analysis)%nat.
Proof.
  cbn. rewrite list_elem_of_fmap.
  split; intros (analysis & Heq & Hin); exists analysis.
  - apply list_elem_of_filter in Hin. tauto.
  - split; [done |]. apply list_elem_of_filter. tauto.
Qed.

Lemma generatedSchemes_NoDup_hue (colorData : ColorDataMap)
    (tripleHueConfig : option TripleHueConfig.t) :
  NoDup (GeneratedColorScheme.hue <$>
           ColorSchemeAnalysis.generatedSchemes
             (analyzeColorsForSchemeGeneration colorData tripleHueConfig)).
Proof.
  cbn. rewrite <- list_fmap_compose.
  rewrite (list_fmap_ext (GeneratedColorScheme.hue ∘ buildScheme _ _)
             HueAnalysis.hue _ (fun _ _ _ => eq_refl)).
  eapply sublist_NoDup;
    [apply (computeHueAnalyses_NoDup_hue colorData.*2 tripleHueConfig) |].
  apply fmap_sublist, sublist_filter.
Qed.

End Orchestration.

(** ** The empty input *)

Section EmptyInput.
Context `{Colord}.

Lemma computeHueAnalyses_nil (tripleHueConfig : option TripleHueConfig.t) :
  computeHueAnalyses [] tripleHueConfig = [].
Proof. reflexivity. Qed.

(** The overall mean chroma of no analyses is [0 / 0]. *)
Lemma globalChromaOf_nil : globalChromaOf [] = NaN.
Proof.
  unfold globalChromaOf, ndiv. cbn. by decide_reals.
Qed.

(** C3. On the empty collection, under any configuration, the orchestration
    returns the record with [totalColors = 0], no per-family analysis, no
    generated scheme and the empty reference mapping. The one division by
    zero that is evaluated, the overall mean chroma [0 / 0 = NaN], is a local
    that no field of the result holds. *)
Theorem C3_empty_input (tripleHueConfig : option TripleHueConfig.t) :
  analyzeColorsForSchemeGeneration [] tripleHueConfig
  = {| ColorSchemeAnalysis.totalColors := 0;
       ColorSchemeAnalysis.hueAnalyses := [];
       ColorSchemeAnalysis.generatedSchemes := [];
       ColorSchemeAnalysis.openColorMapping := ∅;
       ColorSchemeAnalysis.tripleHueConfig := tripleHueConfig |} /\
  globalChromaOf (computeHueAnalyses [] tripleHueConfig) = NaN.
Proof.
  split; [reflexivity |].
  rewrite computeHueAnalyses_nil. apply globalChromaOf_nil.
Qed.

End EmptyInput.

(** ** The worked inputs, evaluated with the reference colour library *)

Lemma colord_toHsl_mid_gray :
  colord_toHsl "#808080" = {| hsl_h := 0; hsl_s := 0; hsl_l := 50 |}.
Proof.
  unfold colord_toHsl.
  replace (rgbToHslRounded (colordRgb "#808080")) with (0, 0, 50)%Z
    by (vm_compute; reflexivity).
  reflexivity.
Qed.

Lemma mid_gray_is_gray :
  @findClosestOpenColorHue colord_reference "#808080" = gray.
Proof.
  unfold findClosestOpenColorHue. cbn [toHsl colord_reference].
  rewrite colord_toHsl_mid_gray. cbn [hsl_s]. by decide_reals.
Qed.

Lemma mid_gray_group :
  filter (λ entry : OpenColorHue * list string, entry.2 ≠ [])
         (@groupColorsByOpenColorHue colord_reference ["#808080"])
  = [(gray, ["#808080"])].
Proof.
  rewrite groupColorsByOpenColorHue_tabulate. unfold membersOf.
  assert (Hmembers : forall key,
            filter (λ color, @findClosestOpenColorHue colord_reference color = key)
                   ["#808080"]
            = if decide (gray = key) then ["#808080"] else []).
  { intros key. rewrite filter_cons, filter_nil. by rewrite mid_gray_is_gray. }
  rewrite (map_ext _ _ (fun key => f_equal (pair key) (Hmembers key))).
  reflexivity.
Qed.

Lemma mid_gray_analyses (colors : list ColorData.t)
    (tripleHueConfig : option TripleHueConfig.t) :
  map ColorData.hexValue colors = ["#808080"] ->
  @computeHueAnalyses colord_reference colors tripleHueConfig
  = [@analyzeGroup colord_reference colors tripleHueConfig (gray, ["#808080"])].
Proof.
  intros Hhex. unfold computeHueAnalyses. rewrite Hhex, mid_gray_group.
  reflexivity.
Qed.

Lemma usedGray_schemes (tripleHueConfig : option TripleHueConfig.t) :
  ColorSchemeAnalysis.generatedSchemes
    (@analyzeColorsForSchemeGeneration colord_reference usedGray tripleHueConfig)
  = [usedGrayScheme tripleHueConfig].
Proof.
  unfold analyzeColorsForSchemeGeneration.
  cbn [ColorSchemeAnalysis.generatedSchemes].
  rewrite (mid_gray_analyses usedGray.*2 tripleHueConfig) by reflexivity.
  reflexivity.
Qed.

Lemma unusedGray_schemes (tripleHueConfig : option TripleHueConfig.t) :
  ColorSchemeAnalysis.generatedSchemes
    (@analyzeColorsForSchemeGeneration colord_reference unusedGray tripleHueConfig)
  = [].
Proof.
  unfold analyzeColorsForSchemeGeneration.
  cbn [ColorSchemeAnalysis.generatedSchemes].
  rewrite (mid_gray_analyses unusedGray.*2 tripleHueConfig) by reflexivity.
  reflexivity.
Qed.

(** *** Neutral stability *)

(** X3. A colour whose saturation is below 15 classifies into the gray
    family, whatever its hue. *)
Theorem low_saturation_is_gray `{Colord} (hexColor : string) :
  hsl_s (toHsl hexColor) < 15 -> findClosestOpenColorHue hexColor = gray.
Proof.
  intros Hlow. unfold findClosestOpenColorHue. by rewrite decide_True.
Qed.

(** Mid gray has saturation 0. *)
Lemma low_saturation_is_gray_witness :
  @findClosestOpenColorHue colord_reference "#808080" = gray.
Proof.
  apply (@low_saturation_is_gray colord_reference).
  cbn [toHsl colord_reference]. rewrite colord_toHsl_mid_gray. cbn [hsl_s]. lra.
Defined.

(** *** Two reds on either side of the seam

    The samples [#ff0015] and [#ff1500] have the HSL hues 355 and 5 at full
    saturation; both classify into the red family, so the red group takes
    the circular mean of the hue list [355; 5]. *)

Lemma closestHueStep_gray (h : R) (state : OpenColorHue * R) (info : HueInfo) :
  closestHueStep h state (gray, info) = state.
Proof. unfold closestHueStep. by rewrite decide_True. Qed.

Lemma closestHueStep_farther (h : R) (state : OpenColorHue * R)
    (entry : OpenColorHue * HueInfo) :
  entry.1 ≠ gray ->
  ~ calculateHueDistance h (info_hue entry.2) < state.2 ->
  closestHueStep h state entry = state.
Proof.
  intros Hkey Hfar. unfold closestHueStep.
  by rewrite decide_False, decide_False.
Qed.

Lemma closestHueStep_closer (h : R) (state : OpenColorHue * R)
    (entry : OpenColorHue * HueInfo) :
  entry.1 ≠ gray ->
  calculateHueDistance h (info_hue entry.2) < state.2 ->
  closestHueStep h state entry
  = (entry.1, calculateHueDistance h (info_hue entry.2)).
Proof.
  intros Hkey Hnear. unfold closestHueStep.
  by rewrite decide_False, decide_True.
Qed.

(** Evaluates a circular hue distance between concrete hues. *)
Ltac hue_distance :=
  unfold calculateHueDistance, Rmin, Rabs; cbn [info_hue hueInfo snd fst];
  repeat match goal with
         | |- context [Rcase_abs ?x] => destruct (Rcase_abs x)
         | |- context [Rle_dec ?x ?y] => destruct (Rle_dec x y)
         end;
  lra.

(** A hue within 5 of the seam is nearest to red, whose reference hue is
    0. *)
Lemma near_seam_is_red (h : R) :
  h = 355 \/ h = 5 ->
  (fold_left (closestHueStep h) OPEN_COLOR_HUES (red, 180)).1 = red.
Proof.
  intros Hh. unfold OPEN_COLOR_HUES, OPEN_COLOR_HUE_KEYS. cbn [map fold_left].
  rewrite closestHueStep_gray.
  assert (Hred : calculateHueDistance h (info_hue (hueInfo red)) = 5)
    by (destruct Hh as [-> | ->]; hue_distance).
  rewrite (closestHueStep_closer h (red, 180) (red, hueInfo red))
    by first [discriminate | cbn [fst snd]; rewrite Hred; lra].
  cbn [fst snd]. rewrite Hred.
  repeat rewrite (closestHueStep_farther h (red, 5))
    by first [discriminate
             | cbn [fst snd]; destruct Hh as [-> | ->]; hue_distance].
  reflexivity.
Qed.

Lemma colord_toHsl_reds :
  colord_toHsl "#ff0015" = {| hsl_h := 355; hsl_s := 100; hsl_l := 50 |} /\
  colord_toHsl "#ff1500" = {| hsl_h := 5; hsl_s := 100; hsl_l := 50 |}.
Proof.
  unfold colord_toHsl.
  replace (rgbToHslRounded (colordRgb "#ff0015")) with (355, 100, 50)%Z
    by (vm_compute; reflexivity).
  replace (rgbToHslRounded (colordRgb "#ff1500")) with (5, 100, 50)%Z
    by (vm_compute; reflexivity).
  split; reflexivity.
Qed.

Lemma reds_are_red :
  @findClosestOpenColorHue colord_reference "#ff0015" = red /\
  @findClosestOpenColorHue colord_reference "#ff1500" = red.
Proof.
  destruct colord_toHsl_reds as [H1 H2].
  unfold findClosestOpenColorHue. cbn [toHsl colord_reference].
  rewrite H1, H2. cbn [hsl_s hsl_h]. decide_reals.
  split; apply near_seam_is_red; tauto.
Qed.

(** The average hue of that red group is the circular mean of [355; 5]. *)
Lemma red_group_mean :
  AverageHSL.avgHue
    (@calculateAverageHSL colord_reference ["#ff0015"; "#ff1500"] red None)
  = calculateCircularMean [355; 5].
Proof.
  destruct colord_toHsl_reds as [H1 H2].
  unfold calculateAverageHSL.
  rewrite decide_False by discriminate. rewrite decide_False by discriminate.
  rewrite !filter_cons, filter_nil. cbn [toHsl colord_reference].
  rewrite H1, H2. cbn [hsl_s]. decide_reals.
  rewrite decide_False by discriminate.
  cbn [map AverageHSL.avgHue singleHueResult toHsl colord_reference].
  by rewrite H1, H2.
Qed.

(** ** Usage gating and the multi-zone flag *)

Lemma NoDup_fmap_elem_inj {A B : Type} (f : A -> B) (l : list A) (x y : A) :
  NoDup (f <$> l) -> x ∈ l -> y ∈ l -> f x = f y -> x = y.
Proof.
  induction l as [| z l IH]; intros Hnodup Hx Hy Hxy.
  - by apply elem_of_nil in Hx.
  - rewrite fmap_cons in Hnodup. apply NoDup_cons in Hnodup as [Hz Hnodup].
    apply elem_of_cons in Hx as [-> | Hx]; apply elem_of_cons in Hy as [-> | Hy].
    + done.
    + exfalso. apply Hz. rewrite Hxy. by apply list_elem_of_fmap_2.
    + exfalso. apply Hz. rewrite <- Hxy. by apply list_elem_of_fmap_2.
    + by apply IH.
Qed.

(** C7. A hue group with members whose total usage is zero keeps its entry
    in the per-family analyses and has no generated scheme; every generated
    scheme originates from an analysis of the list with usage strictly
    greater than zero. *)
Theorem C7_usage_gating `{Colord} (colorData : ColorDataMap)
    (tripleHueConfig : option TripleHueConfig.t)
    (key : OpenColorHue) (members : list string) :
  (key, members)
    ∈ groupColorsByOpenColorHue (map ColorData.hexValue colorData.*2) ->
  members ≠ [] ->
  groupUsage colorData.*2 members = 0%nat ->
  (exists analysis,
     analysis ∈ ColorSchemeAnalysis.hueAnalyses
                  (analyzeColorsForSchemeGeneration colorData tripleHueConfig) /\
     HueAnalysis.hue analysis = key /\
     HueAnalysis.colors analysis = members /\
     HueAnalysis.usage analysis = 0%nat) /\
  (forall scheme,
     scheme ∈ ColorSchemeAnalysis.generatedSchemes
                (analyzeColorsForSchemeGeneration colorData tripleHueConfig) ->
     GeneratedColorScheme.hue scheme ≠ key) /\
  (forall scheme,
     scheme ∈ ColorSchemeAnalysis.generatedSchemes
                (analyzeColorsForSchemeGeneration colorData tripleHueConfig) ->
     (0 < HueAnalysis.usage (GeneratedColorScheme.analysis scheme))%nat /\
     GeneratedColorScheme.analysis scheme
       ∈ ColorSchemeAnalysis.hueAnalyses
           (analyzeColorsForSchemeGeneration colorData tripleHueConfig) /\
     GeneratedColorScheme.hue scheme
     = HueAnalysis.hue (GeneratedColorScheme.analysis scheme)).
Proof.
  intros Hgroup Hmembers Husage.
  set (zero := analyzeGroup colorData.*2 tripleHueConfig (key, members)).
  assert (Hzero : zero ∈ computeHueAnalyses colorData.*2 tripleHueConfig).
  { apply elem_of_computeHueAnalyses. by exists (key, members). }
  split; [| split].
  - exists zero. by repeat split.
  - intros scheme (analysis & -> & Hin & Hpos)%elem_of_generatedSchemes Hhue.
    cbn in Hhue.
    assert (analysis = zero) as ->.
    { eapply NoDup_fmap_elem_inj;
        [apply (computeHueAnalyses_NoDup_hue colorData.*2 tripleHueConfig)
        | done | done | done]. }
    unfold zero in Hpos. rewrite analyzeGroup_usage in Hpos.
    cbn [snd] in Hpos. rewrite Husage in Hpos. lia.
  - intros scheme (analysis & -> & Hin & Hpos)%elem_of_generatedSchemes.
    by repeat split.
Qed.

(** One mid-gray sample without usage sites: the gray group has a member
    and usage zero. *)
Lemma C7_usage_gating_witness :
  (exists analysis,
     analysis ∈ ColorSchemeAnalysis.hueAnalyses
                  (@analyzeColorsForSchemeGeneration colord_reference
                     unusedGray tripleHueOn) /\
     HueAnalysis.hue analysis = gray /\
     HueAnalysis.colors analysis = ["#808080"] /\
     HueAnalysis.usage analysis = 0%nat) /\
  (forall scheme,
     scheme ∈ ColorSchemeAnalysis.generatedSchemes
                (@analyzeColorsForSchemeGeneration colord_reference
                   unusedGray tripleHueOn) ->
     GeneratedColorScheme.hue scheme ≠ gray) /\
  (forall scheme,
     scheme ∈ ColorSchemeAnalysis.generatedSchemes
                (@analyzeColorsForSchemeGeneration colord_reference
                   unusedGray tripleHueOn) ->
     (0 < HueAnalysis.usage (GeneratedColorScheme.analysis scheme))%nat /\
     GeneratedColorScheme.analysis scheme
       ∈ ColorSchemeAnalysis.hueAnalyses
           (@analyzeColorsForSchemeGeneration colord_reference
              unusedGray tripleHueOn) /\
     GeneratedColorScheme.hue scheme
     = HueAnalysis.hue (GeneratedColorScheme.analysis scheme)).
Proof.
  apply (@C7_usage_gating colord_reference unusedGray tripleHueOn gray
           ["#808080"]).
  - apply groupColorsByOpenColorHue_lookup. unfold membersOf.
    change (map ColorData.hexValue unusedGray.*2) with ["#808080"].
    rewrite filter_cons, filter_nil. by rewrite mid_gray_is_gray.
  - discriminate.
  - reflexivity.
Defined.

(** C2 (as amended). The multi-zone flag of a generated scheme is the
    [enabled] setting of the configuration (and is absent when no
    configuration is given); so whenever the shades of the scheme were
    synthesized by three-zone interpolation the flag is [true]. *)
Theorem C2_flag_records_configuration `{Colord} (colorData : ColorDataMap)
    (tripleHueConfig : option TripleHueConfig.t)
    (scheme : GeneratedColorScheme.t) :
  scheme ∈ ColorSchemeAnalysis.generatedSchemes
             (analyzeColorsForSchemeGeneration colorData tripleHueConfig) ->
  GeneratedColorScheme.tripleHueMode scheme
  = TripleHueConfig.enabled <$> tripleHueConfig /\
  (exists chroma : number,
     GeneratedColorScheme.shades scheme
     = generateOpenColorShades
         (HueAnalysis.avgHue (GeneratedColorScheme.analysis scheme))
         chroma
         (HueAnalysis.hue (GeneratedColorScheme.analysis scheme))
         (TripleHueConfig.enabled <$> tripleHueConfig)
         (HueAnalysis.highlightHue (GeneratedColorScheme.analysis scheme))
         (HueAnalysis.midtoneHue (GeneratedColorScheme.analysis scheme))
         (HueAnalysis.shadowHue (GeneratedColorScheme.analysis scheme))) /\
  (schemeUsedThreeZone tripleHueConfig scheme = true ->
   GeneratedColorScheme.tripleHueMode scheme = Some true).
Proof.
  intros (analysis & -> & Hin & Hpos)%elem_of_generatedSchemes.
  split; [done |]. split; [by eexists |].
  unfold schemeUsedThreeZone, usesThreeZone. cbn.
  destruct (decide (HueAnalysis.hue analysis = gray)); [discriminate |].
  intros Huse%useTripleHue_spec. by destruct Huse as [-> _].
Qed.

(** The scheme that one used mid-gray sample generates with the mode on. *)
Lemma C2_flag_records_configuration_witness :
  GeneratedColorScheme.tripleHueMode (usedGrayScheme tripleHueOn)
  = TripleHueConfig.enabled <$> tripleHueOn /\
  (exists chroma : number,
     GeneratedColorScheme.shades (usedGrayScheme tripleHueOn)
     = @generateOpenColorShades colord_reference
         (HueAnalysis.avgHue
            (GeneratedColorScheme.analysis (usedGrayScheme tripleHueOn)))
         chroma
         (HueAnalysis.hue
            (GeneratedColorScheme.analysis (usedGrayScheme tripleHueOn)))
         (TripleHueConfig.enabled <$> tripleHueOn)
         (HueAnalysis.highlightHue
            (GeneratedColorScheme.analysis (usedGrayScheme tripleHueOn)))
         (HueAnalysis.midtoneHue
            (GeneratedColorScheme.analysis (usedGrayScheme tripleHueOn)))
         (HueAnalysis.shadowHue
            (GeneratedColorScheme.analysis (usedGrayScheme tripleHueOn)))) /\
  (schemeUsedThreeZone tripleHueOn (usedGrayScheme tripleHueOn) = true ->
   GeneratedColorScheme.tripleHueMode (usedGrayScheme tripleHueOn) = Some true).
Proof.
  apply (@C2_flag_records_configuration colord_reference usedGray tripleHueOn).
  rewrite usedGray_schemes. apply list_elem_of_singleton. reflexivity.
Defined.

(** The claim as stated fails: with the mode on, a collection of one used
    mid-gray sample generates one scheme, for the gray family, whose flag is
    [true] although its shades were not synthesized by three-zone
    interpolation. *)
Lemma C2_flag_without_interpolation :
  ColorSchemeAnalysis.generatedSchemes
    (@analyzeColorsForSchemeGeneration colord_reference usedGray tripleHueOn)
  = [usedGrayScheme tripleHueOn] /\
  GeneratedColorScheme.tripleHueMode (usedGrayScheme tripleHueOn) = Some true /\
  schemeUsedThreeZone tripleHueOn (usedGrayScheme tripleHueOn) = false.
Proof.
  split; [apply usedGray_schemes |]. split; reflexivity.
Qed.

(** ** The matcher without schemes *)

(** The composite name of a match is the family key, a dash and the shade
    index; the default match carries the name of gray shade 9. *)
Example colorName_gray_9 : hueKey gray +:+ "-" +:+ pretty 9%nat = "gray-9".
Proof. reflexivity. Qed.

(** C8. When the analysis holds no generated scheme, the global matcher
    returns, for every query colour, the default match: black, the gray
    family and the darkest shade index 9. *)
Theorem C8_default_match `{Colord} (inputColor : string)
    (analysis : ColorSchemeAnalysis.t) :
  ColorSchemeAnalysis.generatedSchemes analysis = [] ->
  findClosestSchemeColor inputColor analysis
  = {| ColorMatch.color := "#000000";
       ColorMatch.hue := gray;
       ColorMatch.shade := 9;
       ColorMatch.schemeName := "Gray";
       ColorMatch.distance := PosInf;
       ColorMatch.colorName := "gray-9" |}.
Proof.
  intros Hempty. unfold findClosestSchemeColor. by rewrite Hempty.
Qed.

(** The analysis of the empty collection holds no scheme. *)
Lemma C8_default_match_witness :
  @findClosestSchemeColor colord_reference "#336699"
    (@analyzeColorsForSchemeGeneration colord_reference [] None)
  = {| ColorMatch.color := "#000000";
       ColorMatch.hue := gray;
       ColorMatch.shade := 9;
       ColorMatch.schemeName := "Gray";
       ColorMatch.distance := PosInf;
       ColorMatch.colorName := "gray-9" |}.
Proof.
  apply (@C8_default_match colord_reference). reflexivity.
Defined.

(** ** The orchestration reads hex values and usage sites only *)

Section InputDependence.
Context `{Colord}.

Lemma sampleCore_hexValue (colors1 colors2 : list ColorData.t) :
  map sampleCore colors1 = map sampleCore colors2 ->
  map ColorData.hexValue colors1 = map ColorData.hexValue colors2.
Proof.
  intros Hcore. apply (f_equal (map fst)) in Hcore.
  by rewrite !map_map in Hcore.
Qed.

Lemma sampleCore_occurrenceCount (colors1 colors2 : list ColorData.t)
    (hexColor : string) :
  map sampleCore colors1 = map sampleCore colors2 ->
  occurrenceCount colors1 hexColor = occurrenceCount colors2 hexColor.
Proof.
  unfold occurrenceCount. revert colors2.
  induction colors1 as [| c1 colors1 IH]; intros [| c2 colors2] Hcore;
    try discriminate; [done |].
  cbn [map] in Hcore. unfold sampleCore at 1 3 in Hcore.
  injection Hcore as Hhex Hocc Htail.
  cbn [find]. rewrite Hhex.
  destruct (bool_decide (ColorData.hexValue c2 = hexColor)).
  - by rewrite Hocc.
  - by apply IH.
Qed.

Lemma sampleCore_groupUsage (colors1 colors2 : list ColorData.t)
    (hueColors : list string) :
  map sampleCore colors1 = map sampleCore colors2 ->
  groupUsage colors1 hueColors = groupUsage colors2 hueColors.
Proof.
  intros Hcore. unfold groupUsage. generalize 0%nat.
  induction hueColors as [| hexColor hueColors IH]; intros sum; [done |].
  cbn [fold_left].
  rewrite (sampleCore_occurrenceCount colors1 colors2 hexColor Hcore).
  apply IH.
Qed.

Lemma sampleCore_computeHueAnalyses (colors1 colors2 : list ColorData.t)
    (tripleHueConfig : option TripleHueConfig.t) :
  map sampleCore colors1 = map sampleCore colors2 ->
  computeHueAnalyses colors1 tripleHueConfig
  = computeHueAnalyses colors2 tripleHueConfig.
Proof.
  intros Hcore. unfold computeHueAnalyses.
  rewrite (sampleCore_hexValue colors1 colors2 Hcore).
  f_equal. apply map_ext. intros [hue hueColors]. unfold analyzeGroup.
  by rewrite (sampleCore_groupUsage colors1 colors2 hueColors Hcore).
Qed.

Lemma sampleCore_openColorMapping (colors1 colors2 : list ColorData.t)
    (mapping : gmap string OpenColorReference) :
  map sampleCore colors1 = map sampleCore colors2 ->
  fold_left
    (fun acc color =>
       let reference := findClosestOpenColor (ColorData.hexValue color) in
       <[ColorData.hexValue color := reference]> acc)
    colors1 mapping
  = fold_left
      (fun acc color =>
         let reference := findClosestOpenColor (ColorData.hexValue color) in
         <[ColorData.hexValue color := reference]> acc)
      colors2 mapping.
Proof.
  revert colors2 mapping.
  induction colors1 as [| c1 colors1 IH]; intros [| c2 colors2] mapping Hcore;
    try discriminate; [done |].
  cbn [map] in Hcore. unfold sampleCore at 1 3 in Hcore.
  injection Hcore as Hhex Hocc Htail.
  cbn [fold_left]. rewrite Hhex. by apply IH.
Qed.

(** C9. Two collections whose samples agree, one by one, on hex value and
    usage sites give the same result under the same configuration, whatever
    their keys, informational hues and category metadata are. *)
Theorem C9_depends_on_hex_and_occurrences (colorData1 colorData2 : ColorDataMap)
    (tripleHueConfig : option TripleHueConfig.t) :
  map sampleCore colorData1.*2 = map sampleCore colorData2.*2 ->
  analyzeColorsForSchemeGeneration colorData1 tripleHueConfig
  = analyzeColorsForSchemeGeneration colorData2 tripleHueConfig.
Proof.
  intros Hcore. unfold analyzeColorsForSchemeGeneration. cbv zeta.
  rewrite (sampleCore_computeHueAnalyses _ _ tripleHueConfig Hcore).
  rewrite (sampleCore_openColorMapping _ _ ∅ Hcore).
  f_equal.
  apply (f_equal (@length _)) in Hcore. rewrite !length_map in Hcore.
  by rewrite !length_map.
Qed.

End InputDependence.

(** Two collections that differ in the informational hue and the category
    of their one sample. *)
Lemma C9_depends_on_hex_and_occurrences_witness :
  @analyzeColorsForSchemeGeneration colord_reference usedGray tripleHueOn
  = @analyzeColorsForSchemeGeneration colord_reference usedGrayRelabelled
      tripleHueOn.
Proof.
  apply (@C9_depends_on_hex_and_occurrences colord_reference). reflexivity.
Defined.

(** ** The complete palette *)

Lemma paletteShades_length (key : OpenColorHue) :
  length (paletteShades key) = 10%nat.
Proof. by destruct key. Qed.

(** Copying the reference table entry by entry rebuilds the table. *)
Lemma palette_copy :
  fold_left (fun palette (entry : OpenColorHue * list string) =>
               record_set entry.1 entry.2 palette)
            OPEN_COLOR_PALETTE []
  = map (fun key => (key, paletteShades key)) OPEN_COLOR_HUE_KEYS.
Proof. reflexivity. Qed.

Lemma fold_overrideWithScheme_tabulate (schemes : list GeneratedColorScheme.t)
    (shadesOf : OpenColorHue -> list string) :
  fold_left overrideWithScheme schemes
            (map (fun key => (key, shadesOf key)) OPEN_COLOR_HUE_KEYS)
  = map (fun key => (key, paletteAfter schemes shadesOf key)) OPEN_COLOR_HUE_KEYS.
Proof.
  revert shadesOf. induction schemes as [| scheme schemes IH]; intros shadesOf;
    [done |].
  cbn [fold_left]. unfold paletteAfter. cbn [fold_left]. fold paletteAfter.
  unfold overrideWithScheme at 2.
  destruct (decide (1 <= HueAnalysis.usage (GeneratedColorScheme.analysis scheme))%nat).
  - rewrite record_set_tabulate by apply OPEN_COLOR_HUE_KEYS_complete.
    apply IH.
  - apply IH.
Qed.

Lemma paletteAfter_untouched (schemes : list GeneratedColorScheme.t)
    (shadesOf : OpenColorHue -> list string) (key : OpenColorHue) :
  (forall scheme, scheme ∈ schemes -> GeneratedColorScheme.hue scheme ≠ key) ->
  paletteAfter schemes shadesOf key = shadesOf key.
Proof.
  revert shadesOf. induction schemes as [| scheme schemes IH];
    intros shadesOf Hother; [done |].
  unfold paletteAfter. cbn [fold_left]. fold paletteAfter.
  rewrite IH by (intros s Hs; apply Hother; by right).
  destruct (decide (1 <= _)%nat); [| done].
  rewrite decide_False; [done |].
  intros Heq. apply (Hother scheme); [by left | done].
Qed.

Lemma paletteAfter_overridden (schemes : list GeneratedColorScheme.t)
    (shadesOf : OpenColorHue -> list string) (scheme : GeneratedColorScheme.t) :
  NoDup (GeneratedColorScheme.hue <$> schemes) ->
  scheme ∈ schemes ->
  (1 <= HueAnalysis.usage (GeneratedColorScheme.analysis scheme))%nat ->
  paletteAfter schemes shadesOf (GeneratedColorScheme.hue scheme)
  = GeneratedColorScheme.shades scheme.
Proof.
  revert shadesOf. induction schemes as [| first schemes IH];
    intros shadesOf Hnodup Hin Husage.
  - by apply elem_of_nil in Hin.
  - rewrite fmap_cons in Hnodup. apply NoDup_cons in Hnodup as [Hfirst Hnodup].
    unfold paletteAfter. cbn [fold_left]. fold paletteAfter.
    apply elem_of_cons in Hin as [-> | Hin].
    + rewrite paletteAfter_untouched.
      * rewrite decide_True by done. by rewrite decide_True.
      * intros other Hother Heq. apply Hfirst. rewrite <- Heq.
        by apply list_elem_of_fmap_2.
    + by apply IH.
Qed.

Lemma paletteAfter_length (schemes : list GeneratedColorScheme.t)
    (shadesOf : OpenColorHue -> list string) (key : OpenColorHue) :
  (forall k, length (shadesOf k) = 10%nat) ->
  (forall scheme, scheme ∈ schemes ->
                  length (GeneratedColorScheme.shades scheme) = 10%nat) ->
  length (paletteAfter schemes shadesOf key) = 10%nat.
Proof.
  revert shadesOf. induction schemes as [| scheme schemes IH];
    intros shadesOf Hbase Hschemes; [apply Hbase |].
  unfold paletteAfter. cbn [fold_left]. fold paletteAfter.
  apply IH; [| intros s Hs; apply Hschemes; by right].
  intros k. destruct (decide (1 <= _)%nat); [| apply Hbase].
  destruct (decide (k = _)); [apply Hschemes; by left | apply Hbase].
Qed.

(** C10. The complete palette has exactly the thirteen families, each once
    and each with ten shades; a family without a generated scheme keeps the
    reference shade list; and each generated scheme, whose usage is at least
    1, has its shades in place of the reference list of its family. *)
Theorem C10_complete_palette `{Colord} (colorData : ColorDataMap)
    (tripleHueConfig : option TripleHueConfig.t) :
  (generateCompleteOpenColorPalette colorData tripleHueConfig).*1
  = OPEN_COLOR_HUE_KEYS /\
  NoDup (generateCompleteOpenColorPalette colorData tripleHueConfig).*1 /\
  (forall key shades,
     (key, shades) ∈ generateCompleteOpenColorPalette colorData tripleHueConfig ->
     length shades = 10%nat) /\
  (forall key,
     (forall scheme,
        scheme ∈ ColorSchemeAnalysis.generatedSchemes
                   (analyzeColorsForSchemeGeneration colorData tripleHueConfig) ->
        GeneratedColorScheme.hue scheme ≠ key) ->
     (key, paletteShades key)
       ∈ generateCompleteOpenColorPalette colorData tripleHueConfig) /\
  (forall scheme,
     scheme ∈ ColorSchemeAnalysis.generatedSchemes
                (analyzeColorsForSchemeGeneration colorData tripleHueConfig) ->
     (1 <= HueAnalysis.usage (GeneratedColorScheme.analysis scheme))%nat /\
     (GeneratedColorScheme.hue scheme, GeneratedColorScheme.shades scheme)
       ∈ generateCompleteOpenColorPalette colorData tripleHueConfig).
Proof.
  unfold generateCompleteOpenColorPalette. cbv zeta.
  rewrite palette_copy, fold_overrideWithScheme_tabulate.
  set (schemes := ColorSchemeAnalysis.generatedSchemes _).
  assert (Hkeys : (map (fun key => (key, paletteAfter schemes paletteShades key))
                       OPEN_COLOR_HUE_KEYS).*1 = OPEN_COLOR_HUE_KEYS).
  { rewrite <- list_fmap_compose. apply list_fmap_id. }
  assert (Husage : forall scheme, scheme ∈ schemes ->
            (1 <= HueAnalysis.usage (GeneratedColorScheme.analysis scheme))%nat).
  { intros scheme (analysis & -> & _ & Hpos)%elem_of_generatedSchemes. cbn. lia. }
  assert (Hlen : forall scheme, scheme ∈ schemes ->
            length (GeneratedColorScheme.shades scheme) = 10%nat).
  { intros scheme (analysis & -> & _)%elem_of_generatedSchemes.
    apply generateOpenColorShades_length. }
  rewrite Hkeys.
  split; [done |]. split; [auto with hue_keys |].
  split; [| split].
  - intros key shades (k & [= -> ->] & _)%list_elem_of_fmap.
    apply paletteAfter_length; [apply paletteShades_length | done].
  - intros key Hnone. apply list_elem_of_fmap. exists key.
    split; [| auto with hue_keys].
    by rewrite paletteAfter_untouched.
  - intros scheme Hin. split; [by apply Husage |].
    apply list_elem_of_fmap. exists (GeneratedColorScheme.hue scheme).
    split; [| auto with hue_keys].
    rewrite paletteAfter_overridden; [done | | done | by apply Husage].
    apply generatedSchemes_NoDup_hue.
Qed.

(** * Further properties of the classifier *)

Section ClassifierProperties.
Context `{Colord}.

(** The loop over the family table keeps the smallest distance seen so far
    below the initial bound, and the family that first reached it. *)
Lemma closestHue_fold_invariant (h : R) (entries : list (OpenColorHue * HueInfo))
    (k0 : OpenColorHue) (d0 : R) :
  let final := fold_left (closestHueStep h) entries (k0, d0) in
  final.2 <= d0 /\
  (forall entry, entry ∈ entries -> entry.1 ≠ gray ->
                 final.2 <= calculateHueDistance h (info_hue entry.2)) /\
  (final = (k0, d0) \/
   exists entry, entry ∈ entries /\ entry.1 ≠ gray /\
                 final = (entry.1, calculateHueDistance h (info_hue entry.2))).
Proof.
  revert k0 d0. induction entries as [| entry entries IH]; intros k0 d0.
  - cbn. split; [lra |]. split; [| by left].
    intros entry Hin. by apply elem_of_nil in Hin.
  - cbn [fold_left]. cbv zeta.
    destruct (decide (entry.1 = gray)) as [Hgray | Hchromatic].
    + replace (closestHueStep h (k0, d0) entry) with (k0, d0)
        by (unfold closestHueStep; by rewrite decide_True).
      destruct (IH k0 d0) as (Hle & Hmin & Hfrom).
      split; [done |]. split.
      * intros e [-> | Hin]%elem_of_cons Hne; [contradiction | by apply Hmin].
      * destruct Hfrom as [Heq | (e & Hin & Hne & Heq)]; [by left | right].
        exists e. split; [by right | done].
    + destruct (decide (calculateHueDistance h (info_hue entry.2) < d0))
        as [Hnear | Hfar].
      * rewrite closestHueStep_closer by done.
        destruct (IH entry.1 (calculateHueDistance h (info_hue entry.2)))
          as (Hle & Hmin & Hfrom).
        split; [lra |]. split.
        -- intros e [-> | Hin]%elem_of_cons Hne; [done | by apply Hmin].
        -- right. destruct Hfrom as [Heq | (e & Hin & Hne & Heq)].
           ++ exists entry. split; [by left | done].
           ++ exists e. split; [by right | done].
      * rewrite closestHueStep_farther by done.
        destruct (IH k0 d0) as (Hle & Hmin & Hfrom).
        split; [done |]. split.
        -- intros e [-> | Hin]%elem_of_cons Hne; [lra | by apply Hmin].
        -- destruct Hfrom as [Heq | (e & Hin & Hne & Heq)]; [by left | right].
           exists e. split; [by right | done].
Qed.

(** X4. A colour whose saturation is at least 15 is never classified as
    gray, and the family it gets is nearest in circular hue distance: no
    chromatic family within 180 of the colour's hue is strictly nearer. *)
Theorem chromatic_colour_gets_nearest_family (hexColor : string)
    (key : OpenColorHue) :
  15 <= hsl_s (toHsl hexColor) ->
  key ≠ gray ->
  calculateHueDistance (hsl_h (toHsl hexColor)) (info_hue (hueInfo key)) < 180 ->
  findClosestOpenColorHue hexColor ≠ gray /\
  calculateHueDistance (hsl_h (toHsl hexColor))
    (info_hue (hueInfo (findClosestOpenColorHue hexColor)))
  <= calculateHueDistance (hsl_h (toHsl hexColor)) (info_hue (hueInfo key)).
Proof.
  intros Hsat Hkey Hwithin. unfold findClosestOpenColorHue. cbv zeta.
  rewrite decide_False by lra.
  destruct (closestHue_fold_invariant (hsl_h (toHsl hexColor))
              OPEN_COLOR_HUES red 180) as (Hle & Hmin & Hfrom).
  cbv zeta in Hle, Hmin, Hfrom.
  assert (Hin : (key, hueInfo key) ∈ OPEN_COLOR_HUES).
  { unfold OPEN_COLOR_HUES. apply list_elem_of_fmap. exists key.
    split; [done | auto with hue_keys]. }
  specialize (Hmin (key, hueInfo key) Hin Hkey). cbn [fst snd] in Hmin.
  destruct Hfrom as [Heq | (entry & Hentry & Hne & Heq)].
  - rewrite Heq in Hmin. cbn [snd] in Hmin. lra.
  - rewrite Heq in Hmin |- *. cbn [fst snd] in *.
    split; [done |].
    unfold OPEN_COLOR_HUES in Hentry.
    apply list_elem_of_fmap in Hentry as (k & -> & _). done.
Qed.

(** Rounding to the nearest integer is monotone. *)
Lemma Rround_monotone (x y : R) : x <= y -> (Rround x <= Rround y)%Z.
Proof.
  intros Hxy. unfold Rround.
  destruct (base_Int_part (x + / 2)) as [Hx _].
  destruct (base_Int_part (y + / 2)) as [_ Hy].
  apply Z.lt_succ_r, lt_IZR. rewrite succ_IZR. lra.
Qed.

(** X5. The shade index of a lightness is one of 0..9, and a lighter colour
    never gets a darker (higher) index. *)
Theorem shade_index_bounded_and_antitone (lightness1 lightness2 : R) :
  lightness1 <= lightness2 ->
  (findClosestOpenColorShade lightness2 <= findClosestOpenColorShade lightness1
   <= 9)%nat.
Proof.
  intros Hle. unfold findClosestOpenColorShade. cbv zeta.
  pose proof (Rround_monotone ((1 - lightness2 / 100) * 9)
                ((1 - lightness1 / 100) * 9) ltac:(lra)) as Hround.
  lia.
Qed.

(** X6. The RGB distance is never negative, is symmetric, is zero from a
    colour to itself, and is zero only between colours with the same RGB
    channels. *)
Theorem calculateColorDistance_metric (hex1 hex2 : string) :
  0 <= calculateColorDistance hex1 hex2 /\
  calculateColorDistance hex1 hex2 = calculateColorDistance hex2 hex1 /\
  calculateColorDistance hex1 hex1 = 0 /\
  (calculateColorDistance hex1 hex2 = 0 <-> toRgb hex1 = toRgb hex2).
Proof.
  unfold calculateColorDistance. cbv zeta.
  split; [apply sqrt_pos |]. split; [f_equal; lra |]. split.
  { replace (_ + _ + _) with 0 by lra. apply sqrt_0. }
  split.
  - destruct (toRgb hex1) as [r1 g1 b1], (toRgb hex2) as [r2 g2 b2].
    cbn [rgb_r rgb_g rgb_b]. intros Hzero.
    pose proof (Rle_0_sqr (r1 - r2)) as Hr.
    pose proof (Rle_0_sqr (g1 - g2)) as Hg.
    pose proof (Rle_0_sqr (b1 - b2)) as Hb.
    unfold Rsqr in Hr, Hg, Hb.
    apply sqrt_eq_0 in Hzero; [| lra].
    f_equal; nra.
  - intros ->. replace (_ + _ + _) with 0 by lra. apply sqrt_0.
Qed.

End ClassifierProperties.

(** The red [#ff0015] (hue 355) and the pink family (reference hue 328). *)
Lemma chromatic_colour_gets_nearest_family_witness :
  @findClosestOpenColorHue colord_reference "#ff0015" ≠ gray /\
  calculateHueDistance (hsl_h (colord_toHsl "#ff0015"))
    (info_hue (hueInfo (@findClosestOpenColorHue colord_reference "#ff0015")))
  <= calculateHueDistance (hsl_h (colord_toHsl "#ff0015"))
       (info_hue (hueInfo pink)).
Proof.
  destruct colord_toHsl_reds as [Hred _].
  apply (@chromatic_colour_gets_nearest_family colord_reference "#ff0015" pink);
    cbn [toHsl colord_reference]; rewrite ?Hred; cbn [hsl_s hsl_h].
  - lra.
  - discriminate.
  - hue_distance.
Defined.

Lemma shade_index_bounded_and_antitone_witness :
  (findClosestOpenColorShade 80 <= findClosestOpenColorShade 20 <= 9)%nat.
Proof. apply shade_index_bounded_and_antitone. lra. Defined.

(** * Further properties of the group statistics *)

(** Splitting a list by two tests in sequence loses and repeats nothing. *)
Lemma three_way_filter_Permutation {A : Type} (P Q : A -> Prop)
    `{forall x, Decision (P x)} `{forall x, Decision (Q x)} (items : list A) :
  filter P items
    ++ filter (λ x, ¬ P x /\ Q x) items
    ++ filter (λ x, ¬ P x /\ ¬ Q x) items
  ≡ₚ items.
Proof.
  induction items as [| x items IH]; [done |].
  rewrite !filter_cons.
  destruct (decide (P x)) as [HP | HP].
  - rewrite decide_False by tauto. rewrite decide_False by tauto.
    cbn. by rewrite IH.
  - destruct (decide (Q x)) as [HQ | HQ].
    + rewrite decide_True by tauto. rewrite decide_False by tauto.
      rewrite <- app_comm_cons, <- Permutation_middle. by rewrite IH.
    + rewrite decide_False by tauto. rewrite decide_True by tauto.
      rewrite app_assoc, <- Permutation_middle, <- app_assoc. by rewrite IH.
Qed.

Section StatisticsProperties.
Context `{Colord}.

Lemma fold_separateStep (colors : list string) (highlightThreshold shadowThreshold : R)
    (highlights midtones shadows : list string) :
  fold_left (separateStep highlightThreshold shadowThreshold) colors
            (highlights, midtones, shadows)
  = (highlights
       ++ filter (λ color, hsl_l (toHsl color) >= highlightThreshold) colors,
     midtones
       ++ filter (λ color, ¬ hsl_l (toHsl color) >= highlightThreshold /\
                           hsl_l (toHsl color) >= shadowThreshold) colors,
     shadows
       ++ filter (λ color, ¬ hsl_l (toHsl color) >= highlightThreshold /\
                           ¬ hsl_l (toHsl color) >= shadowThreshold) colors).
Proof.
  revert highlights midtones shadows.
  induction colors as [| color colors IH]; intros highlights midtones shadows.
  - cbn. by rewrite !app_nil_r.
  - cbn [fold_left]. unfold separateStep at 2. cbv zeta.
    rewrite !filter_cons.
    destruct (decide (hsl_l (toHsl color) >= highlightThreshold)) as [Hhl | Hhl].
    + rewrite IH. rewrite decide_False by tauto. rewrite decide_False by tauto.
      by rewrite <- app_assoc.
    + destruct (decide (hsl_l (toHsl color) >= shadowThreshold)) as [Hsh | Hsh].
      * rewrite IH. rewrite decide_True by tauto. rewrite decide_False by tauto.
        by rewrite <- app_assoc.
      * rewrite IH. rewrite decide_False by tauto. rewrite decide_True by tauto.
        by rewrite <- app_assoc.
Qed.

Lemma separateIntoThreeGroups_filters (colors : list string)
    (highlightThreshold shadowThreshold : R) :
  separateIntoThreeGroups colors highlightThreshold shadowThreshold
  = (filter (λ color, hsl_l (toHsl color) >= highlightThreshold) colors,
     filter (λ color, ¬ hsl_l (toHsl color) >= highlightThreshold /\
                      hsl_l (toHsl color) >= shadowThreshold) colors,
     filter (λ color, ¬ hsl_l (toHsl color) >= highlightThreshold /\
                      ¬ hsl_l (toHsl color) >= shadowThreshold) colors).
Proof. unfold separateIntoThreeGroups. by rewrite fold_separateStep. Qed.

(** X7. The lightness zones partition their input: the highlights are the
    colours with lightness at or above the highlight threshold, the midtones
    those below it and at or above the shadow threshold, the shadows those
    below both, each zone in input order; together the three zones are the
    input, every occurrence exactly once. *)
Theorem separateIntoThreeGroups_partition (colors : list string)
    (highlightThreshold shadowThreshold : R) :
  (separateIntoThreeGroups colors highlightThreshold shadowThreshold).1.1
  = filter (λ color, hsl_l (toHsl color) >= highlightThreshold) colors /\
  (separateIntoThreeGroups colors highlightThreshold shadowThreshold).1.2
  = filter (λ color, ¬ hsl_l (toHsl color) >= highlightThreshold /\
                     hsl_l (toHsl color) >= shadowThreshold) colors /\
  (separateIntoThreeGroups colors highlightThreshold shadowThreshold).2
  = filter (λ color, ¬ hsl_l (toHsl color) >= highlightThreshold /\
                     ¬ hsl_l (toHsl color) >= shadowThreshold) colors /\
  (separateIntoThreeGroups colors highlightThreshold shadowThreshold).1.1
    ++ (separateIntoThreeGroups colors highlightThreshold shadowThreshold).1.2
    ++ (separateIntoThreeGroups colors highlightThreshold shadowThreshold).2
  ≡ₚ colors.
Proof.
  rewrite separateIntoThreeGroups_filters. cbn [fst snd].
  repeat split. apply three_way_filter_Permutation.
Qed.

(** The six triple-hue fields of a result. *)
Lemma singleHueResult_fields (avgHue avgChroma avgLightness : R) :
  let result := singleHueResult avgHue avgChroma avgLightness in
  AverageHSL.highlightHue result = None /\
  AverageHSL.midtoneHue result = None /\
  AverageHSL.shadowHue result = None /\
  AverageHSL.highlightColors result = None /\
  AverageHSL.midtoneColors result = None /\
  AverageHSL.shadowColors result = None.
Proof. by repeat split. Qed.

(** X8. The six triple-hue fields of the group statistics are all present
    or all absent. They are present exactly when the configuration is
    enabled, the family is not gray and some member has a saturation of at
    least 15; the three colour lists are then the lightness zones of the
    members with a saturation of at least 15, under the configured
    thresholds (66 and 33 by default). *)
Theorem zone_fields_all_or_nothing (colors : list string)
    (hueCategory : OpenColorHue) (tripleHueConfig : option TripleHueConfig.t) :
  (tripleHueApplies colors hueCategory tripleHueConfig ->
   exists config highlight midtone shadow,
     tripleHueConfig = Some config /\
     AverageHSL.highlightHue
       (calculateAverageHSL colors hueCategory tripleHueConfig) = Some highlight /\
     AverageHSL.midtoneHue
       (calculateAverageHSL colors hueCategory tripleHueConfig) = Some midtone /\
     AverageHSL.shadowHue
       (calculateAverageHSL colors hueCategory tripleHueConfig) = Some shadow /\
     (AverageHSL.highlightColors
        (calculateAverageHSL colors hueCategory tripleHueConfig),
      AverageHSL.midtoneColors
        (calculateAverageHSL colors hueCategory tripleHueConfig),
      AverageHSL.shadowColors
        (calculateAverageHSL colors hueCategory tripleHueConfig))
     = let zones :=
         separateIntoThreeGroups
           (filter (λ color, hsl_s (toHsl color) >= 15) colors)
           (default 66 (TripleHueConfig.highlightThreshold config))
           (default 33 (TripleHueConfig.shadowThreshold config)) in
       (Some zones.1.1, Some zones.1.2, Some zones.2)) /\
  (¬ tripleHueApplies colors hueCategory tripleHueConfig ->
   AverageHSL.highlightHue
     (calculateAverageHSL colors hueCategory tripleHueConfig) = None /\
   AverageHSL.midtoneHue
     (calculateAverageHSL colors hueCategory tripleHueConfig) = None /\
   AverageHSL.shadowHue
     (calculateAverageHSL colors hueCategory tripleHueConfig) = None /\
   AverageHSL.highlightColors
     (calculateAverageHSL colors hueCategory tripleHueConfig) = None /\
   AverageHSL.midtoneColors
     (calculateAverageHSL colors hueCategory tripleHueConfig) = None /\
   AverageHSL.shadowColors
     (calculateAverageHSL colors hueCategory tripleHueConfig) = None).
Proof.
  unfold tripleHueApplies, calculateAverageHSL.
  destruct (decide (colors = [])) as [-> | Hcolors].
  { split; [| intros _; apply singleHueResult_fields].
    intros (_ & _ & color & Hin & _). by apply elem_of_nil in Hin. }
  destruct (decide (hueCategory = gray)) as [Hgray | Hchromatic].
  { split; [| intros _; apply singleHueResult_fields].
    intros (_ & Hne & _). contradiction. }
  cbv zeta.
  destruct (decide (filter (λ color, hsl_s (toHsl color) >= 15) colors = []))
    as [Hnone | Hsome].
  { split; [| intros _; apply singleHueResult_fields].
    intros (_ & _ & color & Hin & Hsat).
    assert (Hmember : color ∈ filter (λ color, hsl_s (toHsl color) >= 15) colors)
      by (by apply list_elem_of_filter).
    rewrite Hnone in Hmember. by apply elem_of_nil in Hmember. }
  assert (Hmember : exists color, color ∈ colors /\ hsl_s (toHsl color) >= 15).
  { destruct (filter (λ color, hsl_s (toHsl color) >= 15) colors)
      as [| color rest] eqn:Hfilter; [done |].
    assert (Hin : color ∈ filter (λ color, hsl_s (toHsl color) >= 15) colors)
      by (rewrite Hfilter; by left).
    apply list_elem_of_filter in Hin. exists color. tauto. }
  destruct tripleHueConfig as [config |].
  2: { split; [| intros _; apply singleHueResult_fields].
       intros ((config & [=] & _) & _). }
  destruct (TripleHueConfig.enabled config) eqn:Henabled.
  2: { split; [| intros _; apply singleHueResult_fields].
       intros ((config' & [= <-] & Hon) & _). congruence. }
  split.
  - intros _. exists config. cbv zeta.
    destruct (separateIntoThreeGroups _ _ _) as [[highlights midtones] shadows].
    destruct (zoneHue highlights) as [hl |], (zoneHue midtones) as [mid |],
      (zoneHue shadows) as [sh |]; cbn; do 3 eexists; repeat split.
  - intros Hnot. exfalso. apply Hnot. eauto 10.
Qed.

End StatisticsProperties.

(** The reds [#ff0015] and [#ff1500] in the red family, triple-hue mode on
    with the default thresholds. *)
Lemma zone_fields_all_or_nothing_witness :
  exists config highlight midtone shadow,
    tripleHueOn = Some config /\
    AverageHSL.highlightHue
      (@calculateAverageHSL colord_reference ["#ff0015"; "#ff1500"] red
         tripleHueOn) = Some highlight /\
    AverageHSL.midtoneHue
      (@calculateAverageHSL colord_reference ["#ff0015"; "#ff1500"] red
         tripleHueOn) = Some midtone /\
    AverageHSL.shadowHue
      (@calculateAverageHSL colord_reference ["#ff0015"; "#ff1500"] red
         tripleHueOn) = Some shadow /\
    (AverageHSL.highlightColors
       (@calculateAverageHSL colord_reference ["#ff0015"; "#ff1500"] red
          tripleHueOn),
     AverageHSL.midtoneColors
       (@calculateAverageHSL colord_reference ["#ff0015"; "#ff1500"] red
          tripleHueOn),
     AverageHSL.shadowColors
       (@calculateAverageHSL colord_reference ["#ff0015"; "#ff1500"] red
          tripleHueOn))
    = let zones :=
        @separateIntoThreeGroups colord_reference
          (filter (λ color, hsl_s (colord_toHsl color) >= 15)
                  ["#ff0015"; "#ff1500"])
          (default 66 (TripleHueConfig.highlightThreshold config))
          (default 33 (TripleHueConfig.shadowThreshold config)) in
      (Some zones.1.1, Some zones.1.2, Some zones.2).
Proof.
  apply (proj1 (@zone_fields_all_or_nothing colord_reference
                  ["#ff0015"; "#ff1500"] red tripleHueOn)).
  split; [by eexists | split; [discriminate |]].
  exists "#ff0015". split; [by left |].
  cbn [toHsl colord_reference].
  destruct colord_toHsl_reds as [-> _]. cbn [hsl_s]. lra.
Defined.

(** * Further properties of the orchestration *)

Lemma getSpectralIndex_inj (a b : OpenColorHue) :
  getSpectralIndex a = getSpectralIndex b -> a = b.
Proof.
  destruct a, b; intros Heq; try reflexivity; vm_compute in Heq; discriminate.
Qed.

Lemma insertByKey_sorted {A : Type} (key : A -> nat) (x : A) (sorted : list A) :
  StronglySorted (λ a b, (key a <= key b)%nat) sorted ->
  StronglySorted (λ a b, (key a <= key b)%nat) (insertByKey key x sorted).
Proof.
  induction sorted as [| y rest IH]; intros Hsorted; cbn.
  - by repeat constructor.
  - apply StronglySorted_cons in Hsorted as [Hall Hrest].
    destruct (decide (key x <= key y)%nat) as [Hle | Hgt].
    + apply StronglySorted_cons. split.
      * constructor; [done |].
        eapply Forall_impl; [exact Hall |]. cbn. intros z Hz. lia.
      * by apply StronglySorted_cons.
    + apply StronglySorted_cons. split; [| by apply IH].
      apply Forall_forall. intros z Hz.
      rewrite insertByKey_Permutation in Hz.
      apply elem_of_cons in Hz as [-> | Hz]; [lia |].
      by eapply Forall_forall in Hall.
Qed.

Lemma sortByKey_sorted {A : Type} (key : A -> nat) (items : list A) :
  StronglySorted (λ a b, (key a <= key b)%nat) (sortByKey key items).
Proof.
  unfold sortByKey. induction items as [| x items IH]; cbn.
  - constructor.
  - by apply insertByKey_sorted.
Qed.

(** A list sorted by a key without repeated keys is strictly sorted. *)
Lemma sorted_NoDup_strict {A : Type} (key : A -> nat) (items : list A) :
  StronglySorted (λ a b, (key a <= key b)%nat) items ->
  NoDup (key <$> items) ->
  StronglySorted (λ a b, (key a < key b)%nat) items.
Proof.
  induction items as [| x items IH]; intros Hsorted Hnodup; [constructor |].
  apply StronglySorted_cons in Hsorted as [Hall Hrest].
  rewrite fmap_cons in Hnodup. apply NoDup_cons in Hnodup as [Hx Hnodup].
  apply StronglySorted_cons. split; [| by apply IH].
  apply Forall_forall. intros y Hy.
  assert (key x <= key y)%nat by (by eapply Forall_forall in Hall).
  assert (key x ≠ key y).
  { intros Heq. apply Hx. rewrite Heq. by apply list_elem_of_fmap_2. }
  lia.
Qed.

Lemma StronglySorted_filter {A : Type} (R : A -> A -> Prop) (P : A -> Prop)
    `{forall x, Decision (P x)} (items : list A) :
  StronglySorted R items -> StronglySorted R (filter P items).
Proof.
  induction items as [| x items IH]; intros Hsorted; [constructor |].
  apply StronglySorted_cons in Hsorted as [Hall Hrest].
  rewrite filter_cons. destruct (decide (P x)); [| by apply IH].
  apply StronglySorted_cons. split; [| by apply IH].
  apply Forall_forall. intros y [_ Hy]%list_elem_of_filter.
  by eapply Forall_forall in Hall.
Qed.

Lemma StronglySorted_fmap_key {A B : Type} (f : A -> B) (keyA : A -> nat)
    (keyB : B -> nat) (items : list A) :
  (forall x, keyB (f x) = keyA x) ->
  StronglySorted (λ a b, (keyA a < keyA b)%nat) items ->
  StronglySorted (λ a b, (keyB a < keyB b)%nat) (f <$> items).
Proof.
  intros Hkey. induction items as [| x items IH]; intros Hsorted; [constructor |].
  apply StronglySorted_cons in Hsorted as [Hall Hrest].
  rewrite fmap_cons. apply StronglySorted_cons. split; [| by apply IH].
  apply Forall_fmap. eapply Forall_impl; [exact Hall |].
  cbn. intros y Hy. by rewrite !Hkey.
Qed.

(** The sum that [reduce] accumulates from 0. *)
Lemma fold_left_sum {A : Type} (f : A -> nat) (items : list A) (start : nat) :
  fold_left (fun sum x => (sum + f x)%nat) items start
  = (start + sum_list_with f items)%nat.
Proof.
  revert start. induction items as [| x items IH]; intros start; cbn.
  - lia.
  - rewrite IH. lia.
Qed.

Lemma sum_list_with_concat {A : Type} (f : A -> nat) (lists : list (list A)) :
  sum_list_with f (concat lists) = sum_list_with (sum_list_with f) lists.
Proof.
  induction lists as [| l lists IH]; [done |]. cbn.
  by rewrite sum_list_with_app, IH.
Qed.

Lemma filter_none {A : Type} (P : A -> Prop) `{forall x, Decision (P x)}
    (items : list A) :
  (forall x, x ∈ items -> ¬ P x) -> filter P items = [].
Proof.
  induction items as [| x items IH]; intros Hnone; [done |].
  rewrite filter_cons, decide_False by (apply Hnone; by left).
  apply IH. intros y Hy. apply Hnone. by right.
Qed.

Lemma sum_list_with_length_concat {A : Type} (lists : list (list A)) :
  sum_list_with length lists = length (concat lists).
Proof.
  induction lists as [| l lists IH]; [done |]. cbn.
  by rewrite length_app, IH.
Qed.

Lemma sum_list_with_fmap {A B : Type} (f : B -> nat) (g : A -> B)
    (items : list A) :
  sum_list_with f (g <$> items) = sum_list_with (f ∘ g) items.
Proof. induction items as [| x items IH]; [done |]. cbn. by rewrite IH. Qed.

Lemma sum_list_with_ext_in {A : Type} (f g : A -> nat) (items : list A) :
  (forall x, x ∈ items -> f x = g x) ->
  sum_list_with f items = sum_list_with g items.
Proof.
  induction items as [| x items IH]; intros Hext; [done |]. cbn.
  rewrite Hext by (by left). rewrite IH; [done |].
  intros y Hy. apply Hext. by right.
Qed.

(** Entries that contribute nothing can be filtered out of a sum. *)
Lemma sum_list_with_filter_zero {A : Type} (f : A -> nat) (P : A -> Prop)
    `{forall x, Decision (P x)} (items : list A) :
  (forall x, ¬ P x -> f x = 0%nat) ->
  sum_list_with f (filter P items) = sum_list_with f items.
Proof.
  intros Hzero. induction items as [| x items IH]; [done |].
  rewrite filter_cons. destruct (decide (P x)); cbn.
  - by rewrite IH.
  - rewrite IH, Hzero by done. lia.
Qed.

(** In a list without repeated keys, [find] by the key of a member returns
    that member. *)
Lemma find_by_key_NoDup {A K : Type} `{EqDecision K} (key : A -> K)
    (items : list A) (x : A) :
  NoDup (key <$> items) -> x ∈ items ->
  find (fun y => bool_decide (key y = key x)) items = Some x.
Proof.
  induction items as [| y items IH]; intros Hnodup Hin.
  - by apply elem_of_nil in Hin.
  - rewrite fmap_cons in Hnodup. apply NoDup_cons in Hnodup as [Hy Hnodup].
    cbn. apply elem_of_cons in Hin as [-> | Hin].
    + by rewrite bool_decide_eq_true_2.
    + rewrite bool_decide_eq_false_2; [by apply IH |].
      intros Heq. apply Hy. rewrite Heq. by apply list_elem_of_fmap_2.
Qed.

Lemma find_by_key_None {A K : Type} `{EqDecision K} (key : A -> K)
    (items : list A) (k : K) :
  k ∉ key <$> items ->
  find (fun y => bool_decide (key y = k)) items = None.
Proof.
  induction items as [| y items IH]; intros Hnot; [done |].
  cbn. rewrite fmap_cons in Hnot. apply not_elem_of_cons in Hnot as [Hne Hnot].
  rewrite bool_decide_eq_false_2 by done. by apply IH.
Qed.

Section OrchestrationProperties.
Context `{Colord}.

(** A colour outside the gray family has a saturation of at least 15. *)
Lemma chromatic_member_saturation (color : string) :
  findClosestOpenColorHue color ≠ gray -> hsl_s (toHsl color) >= 15.
Proof.
  unfold findClosestOpenColorHue. cbv zeta.
  destruct (decide (hsl_s (toHsl color) < 15)); [done | lra].
Qed.

Lemma filter_all {A : Type} (P : A -> Prop) `{forall x, Decision (P x)}
    (items : list A) :
  (forall x, x ∈ items -> P x) -> filter P items = items.
Proof.
  induction items as [| x items IH]; intros Hall; [done |].
  rewrite filter_cons, decide_True by (apply Hall; by left).
  rewrite IH; [done |]. intros y Hy. apply Hall. by right.
Qed.

Lemma fold_left_saturation_bound (values : list HslColor) (start : R) :
  (forall hsl, hsl ∈ values -> hsl_s hsl >= 15) ->
  fold_left (fun sum hsl => sum + hsl_s hsl) values start
  >= start + 15 * INR (length values).
Proof.
  revert start. induction values as [| hsl values IH]; intros start Hall.
  - cbn. lra.
  - cbn [fold_left length]. rewrite S_INR.
    assert (hsl_s hsl >= 15) by (apply Hall; by left).
    assert (Hrest : forall v, v ∈ values -> hsl_s v >= 15)
      by (intros v Hv; apply Hall; by right).
    specialize (IH (start + hsl_s hsl) Hrest). lra.
Qed.

(** The statistics of a chromatic family all of whose members have a
    saturation of at least 15. *)
Lemma calculateAverageHSL_chromatic (colors : list string)
    (hueCategory : OpenColorHue) (tripleHueConfig : option TripleHueConfig.t) :
  colors ≠ [] -> hueCategory ≠ gray ->
  (forall color, color ∈ colors -> hsl_s (toHsl color) >= 15) ->
  AverageHSL.avgHue (calculateAverageHSL colors hueCategory tripleHueConfig)
  = calculateCircularMean (map hsl_h (map toHsl colors)) /\
  AverageHSL.avgChroma (calculateAverageHSL colors hueCategory tripleHueConfig)
  = fold_left (fun sum hsl => sum + hsl_s hsl) (map toHsl colors) 0
    / INR (length colors) /\
  AverageHSL.avgLightness (calculateAverageHSL colors hueCategory tripleHueConfig)
  = fold_left (fun sum hsl => sum + hsl_l hsl) (map toHsl colors) 0
    / INR (length colors).
Proof.
  intros Hcolors Hchromatic Hall. unfold calculateAverageHSL.
  rewrite decide_False by done. rewrite decide_False by done. cbv zeta.
  rewrite filter_all by done. rewrite decide_False by done.
  destruct tripleHueConfig as [config |]; [| done].
  destruct (TripleHueConfig.enabled config); [| done].
  destruct (separateIntoThreeGroups _ _ _) as [[highlights midtones] shadows].
  by destruct (zoneHue highlights), (zoneHue midtones), (zoneHue shadows).
Qed.

(** X9. In the analyses of the orchestration, a chromatic family has only
    members with a saturation of at least 15, none of which the statistics
    leave out: its average chroma is the mean saturation of all its members
    and is at least 15. The gray family has only members with a saturation
    below 15 and reports hue 210 and chroma 5. *)
Theorem family_statistics_cover_all_members (colorData : ColorDataMap)
    (tripleHueConfig : option TripleHueConfig.t) (analysis : HueAnalysis.t) :
  analysis ∈ ColorSchemeAnalysis.hueAnalyses
               (analyzeColorsForSchemeGeneration colorData tripleHueConfig) ->
  (HueAnalysis.hue analysis ≠ gray ->
   (forall color, color ∈ HueAnalysis.colors analysis ->
                  hsl_s (toHsl color) >= 15) /\
   HueAnalysis.avgChroma analysis
   = fold_left (fun sum hsl => sum + hsl_s hsl)
               (map toHsl (HueAnalysis.colors analysis)) 0
     / INR (length (HueAnalysis.colors analysis)) /\
   HueAnalysis.avgChroma analysis >= 15) /\
  (HueAnalysis.hue analysis = gray ->
   (forall color, color ∈ HueAnalysis.colors analysis ->
                  hsl_s (toHsl color) < 15) /\
   HueAnalysis.avgHue analysis = 210 /\
   HueAnalysis.avgChroma analysis = 5).
Proof.
  cbn [ColorSchemeAnalysis.hueAnalyses analyzeColorsForSchemeGeneration].
  intros ([key members] & -> & Hgroup & Hmembers)%elem_of_computeHueAnalyses.
  apply groupColorsByOpenColorHue_lookup in Hgroup. cbn [snd] in Hmembers.
  cbn [analyzeGroup HueAnalysis.hue HueAnalysis.colors HueAnalysis.avgChroma
         HueAnalysis.avgHue].
  split.
  - intros Hchromatic.
    assert (Hall : forall color, color ∈ members -> hsl_s (toHsl color) >= 15).
    { intros color Hin. rewrite Hgroup in Hin. unfold membersOf in Hin.
      apply list_elem_of_filter in Hin as [Hkey _].
      apply chromatic_member_saturation. by rewrite Hkey. }
    split; [done |].
    destruct (calculateAverageHSL_chromatic members key tripleHueConfig)
      as (_ & -> & _); [done .. |].
    split; [done |].
    assert (Hsum := fold_left_saturation_bound (map toHsl members) 0).
    rewrite length_map in Hsum.
    assert (Hpos : 0 < INR (length members)).
    { apply lt_0_INR. destruct members; [done | cbn; lia]. }
    assert (Hge : fold_left (fun sum hsl => sum + hsl_s hsl) (map toHsl members) 0
                  >= 15 * INR (length members)).
    { rewrite <- (Rplus_0_l (15 * _)). apply Hsum.
      intros hsl (color & -> & Hin)%list_elem_of_fmap. by apply Hall. }
    apply Rle_ge. apply Rmult_le_reg_r with (INR (length members)); [done |].
    unfold Rdiv. rewrite Rmult_assoc, Rinv_l by lra. lra.
  - intros ->. split.
    + intros color Hin. rewrite Hgroup in Hin. unfold membersOf in Hin.
      apply list_elem_of_filter in Hin as [Hkey _].
      unfold findClosestOpenColorHue in Hkey. cbv zeta in Hkey.
      destruct (decide (hsl_s (toHsl color) < 15)) as [Hlow | Hhigh]; [done |].
      exfalso.
      destruct (closestHue_fold_invariant (hsl_h (toHsl color))
                  OPEN_COLOR_HUES red 180) as (_ & _ & Hfrom).
      cbv zeta in Hfrom.
      destruct Hfrom as [Heq | (entry & _ & Hne & Heq)];
        rewrite Heq in Hkey; cbn [fst] in Hkey; [discriminate | done].
    + unfold calculateAverageHSL.
      rewrite decide_False by done. by rewrite decide_True.
Qed.

End OrchestrationProperties.

Lemma reds_group :
  filter (λ entry : OpenColorHue * list string, entry.2 ≠ [])
         (@groupColorsByOpenColorHue colord_reference ["#ff0015"; "#ff1500"])
  = [(red, ["#ff0015"; "#ff1500"])].
Proof.
  rewrite groupColorsByOpenColorHue_tabulate. unfold membersOf.
  destruct reds_are_red as [Hred1 Hred2].
  assert (Hmembers : forall key,
            filter (λ color, @findClosestOpenColorHue colord_reference color = key)
                   ["#ff0015"; "#ff1500"]
            = if decide (red = key) then ["#ff0015"; "#ff1500"] else []).
  { intros key. rewrite !filter_cons, filter_nil. rewrite Hred1, Hred2.
    by destruct (decide (red = key)). }
  rewrite (map_ext _ _ (fun key => f_equal (pair key) (Hmembers key))).
  reflexivity.
Qed.

Lemma usedReds_analyses (tripleHueConfig : option TripleHueConfig.t) :
  ColorSchemeAnalysis.hueAnalyses
    (@analyzeColorsForSchemeGeneration colord_reference usedReds tripleHueConfig)
  = [usedRedsAnalysis tripleHueConfig].
Proof.
  cbn [ColorSchemeAnalysis.hueAnalyses analyzeColorsForSchemeGeneration].
  unfold computeHueAnalyses.
  change (map ColorData.hexValue usedReds.*2) with ["#ff0015"; "#ff1500"].
  rewrite reds_group. reflexivity.
Qed.

(** The red family of [usedReds]. *)
Lemma family_statistics_cover_all_members_witness :
  (HueAnalysis.hue (usedRedsAnalysis None) ≠ gray ->
   (forall color, color ∈ HueAnalysis.colors (usedRedsAnalysis None) ->
                  hsl_s (colord_toHsl color) >= 15) /\
   HueAnalysis.avgChroma (usedRedsAnalysis None)
   = fold_left (fun sum hsl => sum + hsl_s hsl)
               (map colord_toHsl (HueAnalysis.colors (usedRedsAnalysis None))) 0
     / INR (length (HueAnalysis.colors (usedRedsAnalysis None))) /\
   HueAnalysis.avgChroma (usedRedsAnalysis None) >= 15) /\
  (HueAnalysis.hue (usedRedsAnalysis None) = gray ->
   (forall color, color ∈ HueAnalysis.colors (usedRedsAnalysis None) ->
                  hsl_s (colord_toHsl color) < 15) /\
   HueAnalysis.avgHue (usedRedsAnalysis None) = 210 /\
   HueAnalysis.avgChroma (usedRedsAnalysis None) = 5).
Proof.
  apply (@family_statistics_cover_all_members colord_reference usedReds None).
  rewrite usedReds_analyses. by left.
Defined.

Lemma concat_Permutation {A : Type} (lists1 lists2 : list (list A)) :
  lists1 ≡ₚ lists2 -> concat lists1 ≡ₚ concat lists2.
Proof.
  induction 1 as [| l lists1 lists2 _ IH | l1 l2 lists | ? ? ? _ IH1 _ IH2]; cbn.
  - done.
  - by rewrite IH.
  - rewrite !app_assoc. by rewrite (Permutation_app_comm l1 l2).
  - by rewrite IH1.
Qed.

(** Dropping the entries with an empty list loses no element. *)
Lemma concat_snd_filter_nonempty {K A : Type}
    `{forall entry : K * list A, Decision (entry.2 ≠ [])}
    (entries : list (K * list A)) :
  concat (filter (λ entry, entry.2 ≠ []) entries).*2 = concat entries.*2.
Proof.
  induction entries as [| [k l] entries IH]; [done |].
  rewrite filter_cons.
  destruct (decide ((k, l).2 ≠ [])) as [Hne | Hempty]; cbn.
  - by rewrite IH.
  - destruct l; [by rewrite IH | by destruct Hempty].
Qed.

Lemma sortByKey_fmap {A B : Type} (f : A -> B) (key : B -> nat)
    (items : list A) :
  sortByKey key (f <$> items) = f <$> sortByKey (key ∘ f) items.
Proof.
  unfold sortByKey. induction items as [| x items IH]; [done |].
  cbn [fmap list_fmap foldr]. rewrite IH. clear IH.
  induction (foldr (insertByKey (key ∘ f)) [] items) as [| y rest IHr]; [done |].
  cbn. destruct (decide (key (f x) <= key (f y))%nat); [done |].
  cbn. by rewrite <- IHr.
Qed.

Section AnalysisStructure.
Context `{Colord}.

Lemma fold_insert_reference_lookup (colors : list ColorData.t)
    (mapping : gmap string OpenColorReference) (hexColor : string) :
  fold_left
    (fun acc color =>
       let reference := findClosestOpenColor (ColorData.hexValue color) in
       <[ColorData.hexValue color := reference]> acc)
    colors mapping !! hexColor
  = if decide (hexColor ∈ ColorData.hexValue <$> colors)
    then Some (findClosestOpenColor hexColor)
    else mapping !! hexColor.
Proof.
  revert mapping. induction colors as [| color colors IH]; intros mapping.
  - cbn. rewrite decide_False; [done |]. apply not_elem_of_nil.
  - cbn [fold_left]. rewrite IH. rewrite fmap_cons.
    destruct (decide (hexColor ∈ ColorData.hexValue <$> colors)) as [Hin | Hnot].
    + rewrite decide_True; [done | by right].
    + destruct (decide (hexColor = ColorData.hexValue color)) as [-> | Hne].
      * rewrite decide_True by (by left). cbv zeta. by rewrite lookup_insert_eq.
      * rewrite decide_False.
        -- cbv zeta. by rewrite lookup_insert_ne.
        -- intros [? | ?]%elem_of_cons; contradiction.
Qed.

(** X10. The reference mapping of the result has exactly the hex values of
    the input as keys, and maps each of them to its Open Color reference:
    the family of the classifier, a shade index from 0 to 9 and a distance
    that is not negative. Samples that repeat a hex value share one entry. *)
Theorem reference_mapping_lookup (colorData : ColorDataMap)
    (tripleHueConfig : option TripleHueConfig.t) (hexColor : string) :
  ColorSchemeAnalysis.openColorMapping
    (analyzeColorsForSchemeGeneration colorData tripleHueConfig) !! hexColor
  = (if decide (hexColor ∈ ColorData.hexValue <$> colorData.*2)
     then Some (findClosestOpenColor hexColor)
     else None) /\
  ref_hue (findClosestOpenColor hexColor) = findClosestOpenColorHue hexColor /\
  (ref_shade (findClosestOpenColor hexColor) <= 9)%nat /\
  0 <= ref_distance (findClosestOpenColor hexColor).
Proof.
  split; [| split; [done | split]].
  - cbn [ColorSchemeAnalysis.openColorMapping analyzeColorsForSchemeGeneration].
    rewrite fold_insert_reference_lookup. by rewrite lookup_empty.
  - cbn. unfold findClosestOpenColorShade. cbv zeta. lia.
  - cbn. unfold calculateColorDistance. cbv zeta. apply sqrt_pos.
Qed.

Lemma spectral_keys_NoDup (colors : list ColorData.t)
    (tripleHueConfig : option TripleHueConfig.t) :
  NoDup ((fun a => getSpectralIndex (HueAnalysis.hue a))
           <$> computeHueAnalyses colors tripleHueConfig).
Proof.
  rewrite (list_fmap_compose HueAnalysis.hue getSpectralIndex).
  apply (@NoDup_fmap_2 _ _ getSpectralIndex getSpectralIndex_inj).
  apply computeHueAnalyses_NoDup_hue.
Qed.

Lemma computeHueAnalyses_strictly_sorted (colors : list ColorData.t)
    (tripleHueConfig : option TripleHueConfig.t) :
  StronglySorted
    (λ a b, (getSpectralIndex (HueAnalysis.hue a)
             < getSpectralIndex (HueAnalysis.hue b))%nat)
    (computeHueAnalyses colors tripleHueConfig).
Proof.
  apply (sorted_NoDup_strict (fun a => getSpectralIndex (HueAnalysis.hue a)));
    [| apply spectral_keys_NoDup].
  unfold computeHueAnalyses. apply sortByKey_sorted.
Qed.

Lemma computeHueAnalyses_colors_Permutation (colors : list ColorData.t)
    (tripleHueConfig : option TripleHueConfig.t) :
  concat (HueAnalysis.colors <$> computeHueAnalyses colors tripleHueConfig)
  ≡ₚ map ColorData.hexValue colors.
Proof.
  etransitivity.
  { apply concat_Permutation, fmap_Permutation, computeHueAnalyses_Permutation. }
  rewrite <- list_fmap_compose.
  rewrite (list_fmap_ext (HueAnalysis.colors ∘ analyzeGroup colors tripleHueConfig)
             snd _ (fun _ entry _ => analyzeGroup_colors _ _ entry)).
  unfold HueRecord.
  rewrite concat_snd_filter_nonempty, groupColorsByOpenColorHue_tabulate.
  rewrite <- list_fmap_compose.
  apply (concat_filter_by_key findClosestOpenColorHue); auto with hue_keys.
Qed.

End AnalysisStructure.

Section AnalysisTotals.
Context `{Colord}.

(** X11. The per-family analyses of the result are in strictly ascending
    spectral order, and so are the generated schemes. Each analysis holds a
    non-empty member list, which is the list of the input hex values that
    classify into its family; every family with such a value has an
    analysis; the member lists together are the input hex values, each
    occurrence exactly once; and [totalColors] is the number of samples. *)
Theorem analyses_in_spectral_order (colorData : ColorDataMap)
    (tripleHueConfig : option TripleHueConfig.t) :
  StronglySorted
    (λ a b, (getSpectralIndex (HueAnalysis.hue a)
             < getSpectralIndex (HueAnalysis.hue b))%nat)
    (ColorSchemeAnalysis.hueAnalyses
       (analyzeColorsForSchemeGeneration colorData tripleHueConfig)) /\
  StronglySorted
    (λ s t, (getSpectralIndex (GeneratedColorScheme.hue s)
             < getSpectralIndex (GeneratedColorScheme.hue t))%nat)
    (ColorSchemeAnalysis.generatedSchemes
       (analyzeColorsForSchemeGeneration colorData tripleHueConfig)) /\
  (forall analysis,
     analysis ∈ ColorSchemeAnalysis.hueAnalyses
                  (analyzeColorsForSchemeGeneration colorData tripleHueConfig) ->
     HueAnalysis.colors analysis ≠ [] /\
     HueAnalysis.colors analysis
     = membersOf (map ColorData.hexValue colorData.*2)
                 (HueAnalysis.hue analysis)) /\
  (forall key,
     membersOf (map ColorData.hexValue colorData.*2) key ≠ [] ->
     exists analysis,
       analysis ∈ ColorSchemeAnalysis.hueAnalyses
                    (analyzeColorsForSchemeGeneration colorData tripleHueConfig) /\
       HueAnalysis.hue analysis = key) /\
  concat (HueAnalysis.colors
            <$> ColorSchemeAnalysis.hueAnalyses
                  (analyzeColorsForSchemeGeneration colorData tripleHueConfig))
  ≡ₚ map ColorData.hexValue colorData.*2 /\
  ColorSchemeAnalysis.totalColors
    (analyzeColorsForSchemeGeneration colorData tripleHueConfig)
  = length colorData.
Proof.
  cbn [ColorSchemeAnalysis.hueAnalyses ColorSchemeAnalysis.generatedSchemes
         ColorSchemeAnalysis.totalColors analyzeColorsForSchemeGeneration].
  split; [apply computeHueAnalyses_strictly_sorted |].
  split.
  { apply (StronglySorted_fmap_key _
             (fun a => getSpectralIndex (HueAnalysis.hue a))
             (fun s => getSpectralIndex (GeneratedColorScheme.hue s)));
      [done |].
    apply StronglySorted_filter, computeHueAnalyses_strictly_sorted. }
  split.
  { intros analysis
      ([key members] & -> & Hgroup & Hmembers)%elem_of_computeHueAnalyses.
    apply groupColorsByOpenColorHue_lookup in Hgroup. by split. }
  split.
  { intros key Hmembers.
    exists (analyzeGroup colorData.*2 tripleHueConfig
              (key, membersOf (map ColorData.hexValue colorData.*2) key)).
    split; [| done]. apply elem_of_computeHueAnalyses.
    eexists. split; [done |]. split; [| done].
    by apply groupColorsByOpenColorHue_lookup. }
  split; [apply computeHueAnalyses_colors_Permutation |].
  apply length_fmap.
Qed.

Lemma groupUsage_sum (colors : list ColorData.t) (hueColors : list string) :
  groupUsage colors hueColors
  = sum_list_with (occurrenceCount colors) hueColors.
Proof. unfold groupUsage. by rewrite fold_left_sum. Qed.

(** The usages of the analyses add up to the occurrence counts of the input
    hex values, each looked up in the collection. *)
Lemma usage_total_by_lookup (colors : list ColorData.t)
    (tripleHueConfig : option TripleHueConfig.t) :
  sum_list_with HueAnalysis.usage (computeHueAnalyses colors tripleHueConfig)
  = sum_list_with (occurrenceCount colors) (map ColorData.hexValue colors).
Proof.
  rewrite computeHueAnalyses_Permutation, sum_list_with_fmap.
  rewrite (sum_list_with_ext_in _ (groupUsage colors ∘ snd))
    by (intros entry _; apply analyzeGroup_usage).
  unfold HueRecord. rewrite sum_list_with_filter_zero.
  2: { intros [key members] Hempty. cbn in *.
       destruct members; [done | by destruct Hempty]. }
  rewrite groupColorsByOpenColorHue_tabulate, sum_list_with_fmap.
  rewrite (sum_list_with_ext_in _
             (sum_list_with (occurrenceCount colors)
                ∘ membersOf (map ColorData.hexValue colors)))
    by (intros key _; apply groupUsage_sum).
  rewrite <- sum_list_with_fmap, <- sum_list_with_concat.
  apply sum_list_with_Permutation_proper.
  apply (concat_filter_by_key findClosestOpenColorHue); auto with hue_keys.
Qed.

(** X12. When no two samples share a hex value, the usages of the
    per-family analyses add up to the number of usage sites of all samples:
    no usage site is lost or counted twice. *)
Theorem usage_totals_agree (colorData : ColorDataMap)
    (tripleHueConfig : option TripleHueConfig.t) :
  NoDup (map ColorData.hexValue colorData.*2) ->
  sum_list_with HueAnalysis.usage
    (ColorSchemeAnalysis.hueAnalyses
       (analyzeColorsForSchemeGeneration colorData tripleHueConfig))
  = sum_list_with (fun color => length (ColorData.occurrences color))
                  colorData.*2.
Proof.
  intros Hnodup.
  cbn [ColorSchemeAnalysis.hueAnalyses analyzeColorsForSchemeGeneration].
  rewrite usage_total_by_lookup, sum_list_with_fmap.
  apply sum_list_with_ext_in. intros color Hin.
  cbn. unfold occurrenceCount.
  by rewrite (find_by_key_NoDup ColorData.hexValue colorData.*2 color).
Qed.

Lemma find_family_analysis (colors : list ColorData.t)
    (tripleHueConfig : option TripleHueConfig.t) (key : OpenColorHue) :
  find (fun h => bool_decide (HueAnalysis.hue h = key))
       (computeHueAnalyses colors tripleHueConfig)
  = if decide (membersOf (map ColorData.hexValue colors) key = [])
    then None
    else Some (analyzeGroup colors tripleHueConfig
                 (key, membersOf (map ColorData.hexValue colors) key)).
Proof.
  destruct (decide (membersOf (map ColorData.hexValue colors) key = []))
    as [Hempty | Hmembers].
  - apply find_by_key_None.
    intros (analysis & -> & Hin)%list_elem_of_fmap.
    apply elem_of_computeHueAnalyses in Hin
      as ([k members] & -> & Hgroup & Hne).
    apply groupColorsByOpenColorHue_lookup in Hgroup. cbn in *. congruence.
  - apply (find_by_key_NoDup HueAnalysis.hue _
             (analyzeGroup colors tripleHueConfig
                (key, membersOf (map ColorData.hexValue colors) key)));
      [apply computeHueAnalyses_NoDup_hue |].
    apply elem_of_computeHueAnalyses. eexists. split; [done |].
    split; [| done]. by apply groupColorsByOpenColorHue_lookup.
Qed.

(** X13. The family statistics of the generator page are thirteen rows, one
    per family in spectral order from red to gray; the row of a family shows
    how many input hex values classify into it and the usage of those
    values, both 0 for a family without members; the member counts add up to
    the number of samples. *)
Theorem openColorStats_rows (colorData : ColorDataMap)
    (tripleHueConfig : option TripleHueConfig.t) :
  openColorStats (analyzeColorsForSchemeGeneration colorData tripleHueConfig)
  = map (fun key =>
           {| HueStat.hue := key;
              HueStat.name := info_name (hueInfo key);
              HueStat.colors :=
                length (membersOf (map ColorData.hexValue colorData.*2) key);
              HueStat.usage :=
                groupUsage colorData.*2
                  (membersOf (map ColorData.hexValue colorData.*2) key) |})
        SPECTRAL_ORDER /\
  sum_list_with HueStat.colors
    (openColorStats (analyzeColorsForSchemeGeneration colorData tripleHueConfig))
  = length colorData.
Proof.
  assert (Hrows :
    openColorStats (analyzeColorsForSchemeGeneration colorData tripleHueConfig)
    = map (fun key =>
             {| HueStat.hue := key;
                HueStat.name := info_name (hueInfo key);
                HueStat.colors :=
                  length (membersOf (map ColorData.hexValue colorData.*2) key);
                HueStat.usage :=
                  groupUsage colorData.*2
                    (membersOf (map ColorData.hexValue colorData.*2) key) |})
          SPECTRAL_ORDER).
  { unfold openColorStats. cbv zeta.
    cbn [ColorSchemeAnalysis.hueAnalyses analyzeColorsForSchemeGeneration].
    rewrite (map_ext _
      (fun key =>
         {| HueStat.hue := key;
            HueStat.name := info_name (hueInfo key);
            HueStat.colors :=
              length (membersOf (map ColorData.hexValue colorData.*2) key);
            HueStat.usage :=
              groupUsage colorData.*2
                (membersOf (map ColorData.hexValue colorData.*2) key) |})).
    - rewrite (sortByKey_fmap _ (fun stat => getSpectralIndex (HueStat.hue stat))).
      reflexivity.
    - intros key. rewrite find_family_analysis.
      destruct (decide (membersOf (map ColorData.hexValue colorData.*2) key = []))
        as [-> | Hmembers]; reflexivity. }
  split; [exact Hrows |].
  rewrite Hrows, sum_list_with_fmap.
  transitivity
    (length (concat (map (membersOf (map ColorData.hexValue colorData.*2))
                         SPECTRAL_ORDER))).
  - rewrite <- sum_list_with_length_concat. by rewrite sum_list_with_fmap.
  - rewrite <- (length_fmap snd colorData).
    rewrite <- (length_fmap ColorData.hexValue colorData.*2).
    apply Permutation_length.
    apply (concat_filter_by_key findClosestOpenColorHue).
    + compute_done.
    + intros item _. destruct (findClosestOpenColorHue item); compute_done.
Qed.

Lemma occurrenceCount_without_usage (colors : list ColorData.t)
    (hexColor : string) :
  (forall color, color ∈ colors -> ColorData.occurrences color = []) ->
  occurrenceCount colors hexColor = 0%nat.
Proof.
  intros Hnone. unfold occurrenceCount.
  destruct (find _ colors) as [color |] eqn:Hfind; [| done].
  apply find_some in Hfind as [Hin%list_elem_of_In _].
  by rewrite (Hnone color Hin).
Qed.

(** X14. When no sample of the collection has a usage site, no scheme is
    generated and the complete palette is the reference palette, shade for
    shade. *)
Theorem palette_without_usage_is_reference (colorData : ColorDataMap)
    (tripleHueConfig : option TripleHueConfig.t) :
  (forall color, color ∈ colorData.*2 -> ColorData.occurrences color = []) ->
  ColorSchemeAnalysis.generatedSchemes
    (analyzeColorsForSchemeGeneration colorData tripleHueConfig) = [] /\
  generateCompleteOpenColorPalette colorData tripleHueConfig = OPEN_COLOR_PALETTE.
Proof.
  intros Hnone.
  assert (Hschemes :
    ColorSchemeAnalysis.generatedSchemes
      (analyzeColorsForSchemeGeneration colorData tripleHueConfig) = []).
  { cbn [ColorSchemeAnalysis.generatedSchemes analyzeColorsForSchemeGeneration].
    rewrite filter_none; [done |].
    intros analysis
      ([key members] & -> & _)%elem_of_computeHueAnalyses.
    rewrite analyzeGroup_usage, groupUsage_sum. cbn [snd].
    rewrite (sum_list_with_ext_in _ (fun _ => 0%nat))
      by (intros hexColor _; by apply occurrenceCount_without_usage).
    induction members; cbn; lia. }
  split; [done |].
  unfold generateCompleteOpenColorPalette. cbv zeta.
  rewrite Hschemes. cbn [fold_left]. apply palette_copy.
Qed.

End AnalysisTotals.

(** * Further properties of the matchers *)

Lemma nlt_finite_trans (a b c : number) :
  nlt a b = true -> nlt b c = true -> nlt a c = true.
Proof.
  destruct a as [x | | |], b as [y | | |], c as [z | | |]; cbn;
    try discriminate; try done.
  intros Hxy%bool_decide_eq_true Hyz%bool_decide_eq_true.
  apply bool_decide_eq_true. lra.
Qed.

(** Among finite distances the order is total. *)
Lemma nlt_finite_total (a b c : ColorMatch.t) :
  finiteDistance a -> finiteDistance b ->
  nlt (ColorMatch.distance a) (ColorMatch.distance c) = true ->
  nlt (ColorMatch.distance b) (ColorMatch.distance c) = false ->
  nlt (ColorMatch.distance a) (ColorMatch.distance b) = true.
Proof.
  intros [x ->] [y ->]. destruct (ColorMatch.distance c) as [z | | |]; cbn;
    try discriminate.
  intros Hxz%bool_decide_eq_true Hyz%bool_decide_eq_false.
  apply bool_decide_eq_true. lra.
Qed.

Lemma noFartherThan_trans (a b c : ColorMatch.t) :
  finiteDistance a -> finiteDistance b -> finiteDistance c ->
  noFartherThan a b -> noFartherThan b c -> noFartherThan a c.
Proof.
  unfold noFartherThan. intros [x ->] [y ->] [z ->]. cbn.
  intros Hyx%bool_decide_eq_false Hzy%bool_decide_eq_false.
  apply bool_decide_eq_false. lra.
Qed.

Lemma noFartherThan_of_nearer (a b : ColorMatch.t) :
  nlt (ColorMatch.distance a) (ColorMatch.distance b) = true ->
  noFartherThan a b.
Proof.
  unfold noFartherThan.
  destruct (ColorMatch.distance a) as [x | | |],
    (ColorMatch.distance b) as [y | | |]; cbn; try discriminate; try done.
  intros Hxy%bool_decide_eq_true. apply bool_decide_eq_false. lra.
Qed.

Lemma elem_of_middle {A : Type} (items before after : list A) (x : A) :
  items = before ++ x :: after -> x ∈ items.
Proof. intros ->. apply elem_of_app. right. by left. Qed.

(** What the loop returns: the match it started from, when no candidate is
    strictly nearer than it, and otherwise the first nearest candidate. *)
Lemma fold_nearer_spec (candidates : list ColorMatch.t) (start : ColorMatch.t) :
  Forall finiteDistance candidates ->
  (fold_left nearer candidates start = start /\
   forall c, c ∈ candidates -> noFartherThan start c) \/
  (firstNearest candidates (fold_left nearer candidates start) /\
   nlt (ColorMatch.distance (fold_left nearer candidates start))
       (ColorMatch.distance start) = true).
Proof.
  revert start. induction candidates as [| c candidates IH];
    intros start Hfinite.
  - left. split; [done |]. intros c Hc. by apply elem_of_nil in Hc.
  - apply Forall_cons in Hfinite as [Hc Hfinite]. cbn [fold_left].
    assert (Hstep : nearer start c
                    = if nlt (ColorMatch.distance c) (ColorMatch.distance start)
                      then c else start) by done.
    destruct (nlt (ColorMatch.distance c) (ColorMatch.distance start)) eqn:Hlt;
      rewrite Hstep; clear Hstep.
    + right.
      destruct (IH c Hfinite) as [[Heq Hall] | [(before & after & Hsplit & Hb & Ha) Hnear]].
      * rewrite Heq. split; [| done].
        exists [], candidates. split; [done |]. split; [| done].
        intros x Hx. by apply elem_of_nil in Hx.
      * split; [| by eapply nlt_finite_trans].
        exists (c :: before), after. split; [cbn; by rewrite <- Hsplit |].
        split; [| done].
        intros x [-> | Hx]%elem_of_cons; [done | by apply Hb].
    + destruct (IH start Hfinite) as [[Heq Hall] | [(before & after & Hsplit & Hb & Ha) Hnear]].
      * left. split; [done |].
        intros x [-> | Hx]%elem_of_cons; [done | by apply Hall].
      * right. split; [| done].
        exists (c :: before), after. split; [cbn; by rewrite <- Hsplit |].
        split; [| done].
        intros x [-> | Hx]%elem_of_cons; [| by apply Hb].
        eapply nlt_finite_total; [| done | done | done].
        rewrite Forall_forall in Hfinite. apply Hfinite.
        eapply elem_of_middle, Hsplit.
Qed.

(** There is only one first nearest candidate, at only one position. *)
Lemma firstNearest_unique (candidates : list ColorMatch.t)
    (winner1 winner2 : ColorMatch.t) :
  firstNearest candidates winner1 -> firstNearest candidates winner2 ->
  winner1 = winner2.
Proof.
  intros (before1 & after1 & -> & Hb1 & Ha1) (before2 & after2 & Hsplit & Hb2 & Ha2).
  revert before2 Hsplit Hb2.
  induction before1 as [| c before1 IH]; intros [| c2 before2] Hsplit Hb2.
  - by injection Hsplit.
  - cbn in Hsplit. injection Hsplit as -> ->.
    assert (Hnear : nlt (ColorMatch.distance winner2) (ColorMatch.distance c2)
                    = true) by (apply Hb2; by left).
    assert (Hfar : noFartherThan c2 winner2).
    { apply Ha1. apply elem_of_app. right. by left. }
    unfold noFartherThan in Hfar. congruence.
  - cbn in Hsplit. injection Hsplit as -> <-.
    assert (Hnear : nlt (ColorMatch.distance winner1) (ColorMatch.distance winner2)
                    = true) by (apply Hb1; by left).
    assert (Hfar : noFartherThan winner2 winner1).
    { apply Ha2. apply elem_of_app. right. by left. }
    unfold noFartherThan in Hfar. congruence.
  - cbn in Hsplit. injection Hsplit as -> Hsplit.
    apply (IH (fun x Hx => Hb1 x (list_elem_of_further _ _ _ Hx)) before2 Hsplit).
    intros x Hx. apply Hb2. by right.
Qed.

Lemma firstNearest_elem_of (candidates : list ColorMatch.t)
    (winner : ColorMatch.t) :
  firstNearest candidates winner -> winner ∈ candidates.
Proof.
  intros (before & after & -> & _). apply elem_of_app. right. by left.
Qed.

Lemma firstNearest_least (candidates : list ColorMatch.t)
    (winner c : ColorMatch.t) :
  firstNearest candidates winner -> c ∈ candidates -> noFartherThan winner c.
Proof.
  intros (before & after & -> & Hb & Ha) [Hc | [-> | Hc]%elem_of_cons]%elem_of_app.
  - by apply noFartherThan_of_nearer, Hb.
  - unfold noFartherThan.
    destruct (ColorMatch.distance winner) as [x | | |]; cbn; try done.
    apply bool_decide_eq_false. lra.
  - by apply Ha.
Qed.

(** The loop returns the match it started from or one of the candidates. *)
Lemma fold_nearer_elem_of (candidates : list ColorMatch.t) (start : ColorMatch.t) :
  fold_left nearer candidates start = start \/
  fold_left nearer candidates start ∈ candidates.
Proof.
  revert start. induction candidates as [| c candidates IH]; intros start;
    [by left |].
  cbn [fold_left].
  assert (Hstep : nearer start c
                  = if nlt (ColorMatch.distance c) (ColorMatch.distance start)
                    then c else start) by done.
  destruct (nlt (ColorMatch.distance c) (ColorMatch.distance start));
    rewrite Hstep; clear Hstep.
  - right. destruct (IH c) as [-> | Hin]; [by left | by right].
  - destruct (IH start) as [-> | Hin]; [by left | right; by right].
Qed.

Section MatcherProperties.
Context `{Colord}.

Lemma matchShade_nearer (inputColor : string) (scheme : GeneratedColorScheme.t)
    (closestMatch : ColorMatch.t) (indexed : nat * string) :
  matchShade inputColor scheme closestMatch indexed
  = nearer closestMatch (candidateMatch inputColor scheme indexed).
Proof. by destruct indexed. Qed.

(** The candidates of one scheme, in shade order. *)
Lemma fold_matchShade (inputColor : string) (scheme : GeneratedColorScheme.t)
    (indexed : list (nat * string)) (closestMatch : ColorMatch.t) :
  fold_left (matchShade inputColor scheme) indexed closestMatch
  = fold_left nearer (map (candidateMatch inputColor scheme) indexed)
              closestMatch.
Proof.
  revert closestMatch. induction indexed as [| entry indexed IH];
    intros closestMatch; [done |].
  cbn [map fold_left]. by rewrite matchShade_nearer, IH.
Qed.

Lemma fold_matchScheme (inputColor : string)
    (schemes : list GeneratedColorScheme.t) (closestMatch : ColorMatch.t) :
  fold_left (matchScheme inputColor) schemes closestMatch
  = fold_left nearer
      (flat_map
         (fun scheme =>
            map (candidateMatch inputColor scheme)
                (imap (fun index shade => (index, shade))
                      (GeneratedColorScheme.shades scheme)))
         schemes)
      closestMatch.
Proof.
  revert closestMatch. induction schemes as [| scheme schemes IH];
    intros closestMatch; [done |].
  cbn [flat_map fold_left]. rewrite fold_left_app, IH.
  unfold matchScheme. by rewrite fold_matchShade.
Qed.

(** The global matcher runs the comparison loop over the candidates of all
    schemes, in scheme and shade order, from the default match. *)
Lemma findClosestSchemeColor_fold (inputColor : string)
    (analysis : ColorSchemeAnalysis.t) :
  findClosestSchemeColor inputColor analysis
  = fold_left nearer (collectMatches inputColor analysis) defaultMatch.
Proof. apply fold_matchScheme. Qed.

Lemma elem_of_scheme_candidates (inputColor : string)
    (scheme : GeneratedColorScheme.t) (candidate : ColorMatch.t) :
  candidate ∈ map (candidateMatch inputColor scheme)
                  (imap (fun index shade => (index, shade))
                        (GeneratedColorScheme.shades scheme)) <->
  exists index shade,
    GeneratedColorScheme.shades scheme !! index = Some shade /\
    candidate = candidateMatch inputColor scheme (index, shade).
Proof.
  rewrite list_elem_of_fmap. split.
  - intros ([index shade] & -> & Hin).
    apply list_elem_of_lookup in Hin as [i Hi].
    rewrite list_lookup_imap in Hi.
    destruct (GeneratedColorScheme.shades scheme !! i) as [shade' |] eqn:Hshade;
      [| done].
    cbn in Hi. injection Hi as <- <-. by exists i, shade'.
  - intros (index & shade & Hshade & ->). exists (index, shade).
    split; [done |]. apply list_elem_of_lookup. exists index.
    by rewrite list_lookup_imap, Hshade.
Qed.

Lemma elem_of_collectMatches (inputColor : string)
    (analysis : ColorSchemeAnalysis.t) (candidate : ColorMatch.t) :
  candidate ∈ collectMatches inputColor analysis <->
  exists scheme index shade,
    scheme ∈ ColorSchemeAnalysis.generatedSchemes analysis /\
    GeneratedColorScheme.shades scheme !! index = Some shade /\
    candidate = candidateMatch inputColor scheme (index, shade).
Proof.
  unfold collectMatches. rewrite list_elem_of_In, in_flat_map. split.
  - intros (scheme & Hscheme%list_elem_of_In & Hin%list_elem_of_In).
    apply elem_of_scheme_candidates in Hin as (index & shade & Hshade & ->).
    by exists scheme, index, shade.
  - intros (scheme & index & shade & Hscheme & Hshade & ->).
    exists scheme. split; [by apply list_elem_of_In |].
    apply list_elem_of_In, elem_of_scheme_candidates. by exists index, shade.
Qed.

Lemma candidateMatch_finite (inputColor : string)
    (scheme : GeneratedColorScheme.t) (indexed : nat * string) :
  finiteDistance (candidateMatch inputColor scheme indexed).
Proof. destruct indexed. by eexists. Qed.

Lemma scheme_candidates_finite (inputColor : string)
    (scheme : GeneratedColorScheme.t) (indexed : list (nat * string)) :
  Forall finiteDistance (map (candidateMatch inputColor scheme) indexed).
Proof.
  apply Forall_forall. intros c (entry & -> & _)%list_elem_of_fmap.
  apply candidateMatch_finite.
Qed.

Lemma collectMatches_finite (inputColor : string)
    (analysis : ColorSchemeAnalysis.t) :
  Forall finiteDistance (collectMatches inputColor analysis).
Proof.
  apply Forall_forall.
  intros c (scheme & index & shade & _ & _ & ->)%elem_of_collectMatches.
  apply candidateMatch_finite.
Qed.

(** With at least one candidate, the global match is the first nearest
    candidate. *)
Lemma findClosestSchemeColor_firstNearest (inputColor : string)
    (analysis : ColorSchemeAnalysis.t) :
  collectMatches inputColor analysis ≠ [] ->
  firstNearest (collectMatches inputColor analysis)
               (findClosestSchemeColor inputColor analysis).
Proof.
  intros Hsome. rewrite findClosestSchemeColor_fold.
  destruct (fold_nearer_spec (collectMatches inputColor analysis) defaultMatch
              (collectMatches_finite inputColor analysis))
    as [[_ Hall] | [Hfirst _]]; [| done].
  exfalso. destruct (collectMatches inputColor analysis) as [| c rest] eqn:Hc;
    [done |].
  assert (Hfin : finiteDistance c).
  { pose proof (collectMatches_finite inputColor analysis) as Hfinite.
    rewrite Hc in Hfinite. by apply Forall_cons in Hfinite as [? _]. }
  specialize (Hall c ltac:(by left)). unfold noFartherThan in Hall.
  destruct Hfin as [d Hd]. rewrite Hd in Hall. discriminate.
Qed.

(** X15. When some generated scheme has a shade, the global matcher returns
    a shade of a generated scheme, labelled with the family, the name and
    the shade index of that scheme, at its RGB distance from the query, and
    no shade of any generated scheme is nearer to the query. *)
Theorem global_match_is_nearest_shade (inputColor : string)
    (analysis : ColorSchemeAnalysis.t) (scheme : GeneratedColorScheme.t)
    (index : nat) (shade : string) :
  scheme ∈ ColorSchemeAnalysis.generatedSchemes analysis ->
  GeneratedColorScheme.shades scheme !! index = Some shade ->
  (exists winner,
     winner ∈ ColorSchemeAnalysis.generatedSchemes analysis /\
     GeneratedColorScheme.shades winner
       !! ColorMatch.shade (findClosestSchemeColor inputColor analysis)
     = Some (ColorMatch.color (findClosestSchemeColor inputColor analysis)) /\
     ColorMatch.hue (findClosestSchemeColor inputColor analysis)
     = GeneratedColorScheme.hue winner /\
     ColorMatch.schemeName (findClosestSchemeColor inputColor analysis)
     = GeneratedColorScheme.name winner /\
     ColorMatch.colorName (findClosestSchemeColor inputColor analysis)
     = hueKey (GeneratedColorScheme.hue winner) +:+ "-"
       +:+ pretty (ColorMatch.shade (findClosestSchemeColor inputColor analysis))) /\
  ColorMatch.distance (findClosestSchemeColor inputColor analysis)
  = Fin (calculateColorDistance inputColor
           (ColorMatch.color (findClosestSchemeColor inputColor analysis))) /\
  calculateColorDistance inputColor
    (ColorMatch.color (findClosestSchemeColor inputColor analysis))
  <= calculateColorDistance inputColor shade.
Proof.
  intros Hscheme Hshade.
  assert (Hcandidate : candidateMatch inputColor scheme (index, shade)
                         ∈ collectMatches inputColor analysis).
  { apply elem_of_collectMatches. by exists scheme, index, shade. }
  assert (Hsome : collectMatches inputColor analysis ≠ []).
  { intros Hnil. rewrite Hnil in Hcandidate. by apply elem_of_nil in Hcandidate. }
  pose proof (findClosestSchemeColor_firstNearest inputColor analysis Hsome)
    as Hfirst.
  pose proof (firstNearest_least _ _ _ Hfirst Hcandidate) as Hleast.
  apply firstNearest_elem_of, elem_of_collectMatches in Hfirst
    as (winner & i & s & Hwinner & Hs & Heq).
  rewrite Heq in Hleast |- *. cbn in Hleast |- *.
  split; [by exists winner |]. split; [done |].
  unfold noFartherThan in Hleast. cbn in Hleast.
  apply bool_decide_eq_false in Hleast. lra.
Qed.

End MatcherProperties.

(** ** The ranked matcher *)

Lemma insertByDistance_Permutation (x : ColorMatch.t)
    (sorted : list ColorMatch.t) :
  insertByDistance x sorted ≡ₚ x :: sorted.
Proof.
  induction sorted as [| y rest IH]; [done |]. cbn.
  destruct (nlt (ColorMatch.distance y) (ColorMatch.distance x)); [| done].
  rewrite IH. apply perm_swap.
Qed.

Lemma sortByDistance_Permutation (matches : list ColorMatch.t) :
  sortByDistance matches ≡ₚ matches.
Proof.
  unfold sortByDistance. induction matches as [| x matches IH]; [done |]. cbn.
  by rewrite insertByDistance_Permutation, IH.
Qed.

Lemma insertByDistance_sorted (x : ColorMatch.t) (sorted : list ColorMatch.t) :
  finiteDistance x -> Forall finiteDistance sorted ->
  StronglySorted noFartherThan sorted ->
  StronglySorted noFartherThan (insertByDistance x sorted).
Proof.
  intros Hx. induction sorted as [| y rest IH]; intros Hfinite Hsorted; cbn.
  - by repeat constructor.
  - apply Forall_cons in Hfinite as [Hy Hfinite].
    apply StronglySorted_cons in Hsorted as [Hall Hrest].
    destruct (nlt (ColorMatch.distance y) (ColorMatch.distance x)) eqn:Hlt.
    + apply StronglySorted_cons. split; [| by apply IH].
      apply Forall_forall. intros z Hz.
      rewrite insertByDistance_Permutation in Hz.
      apply elem_of_cons in Hz as [-> | Hz];
        [by apply noFartherThan_of_nearer | by eapply Forall_forall in Hall].
    + apply StronglySorted_cons. split; [| by apply StronglySorted_cons].
      constructor; [done |].
      apply Forall_forall. intros z Hz.
      apply (noFartherThan_trans x y z); [done | done | | done |].
      * by eapply Forall_forall in Hfinite.
      * by eapply Forall_forall in Hall.
Qed.

Lemma sortByDistance_sorted (matches : list ColorMatch.t) :
  Forall finiteDistance matches ->
  StronglySorted noFartherThan (sortByDistance matches).
Proof.
  unfold sortByDistance. induction matches as [| x matches IH]; intros Hfinite;
    cbn; [constructor |].
  apply Forall_cons in Hfinite as [Hx Hfinite].
  apply insertByDistance_sorted; [done | | by apply IH].
  fold (sortByDistance matches). by rewrite sortByDistance_Permutation.
Qed.

(** The stable sort puts the first nearest candidate in front. *)
Lemma sortByDistance_head (matches : list ColorMatch.t) :
  Forall finiteDistance matches -> matches ≠ [] ->
  exists winner,
    head (sortByDistance matches) = Some winner /\ firstNearest matches winner.
Proof.
  induction matches as [| x matches IH]; intros Hfinite Hsome; [done |].
  apply Forall_cons in Hfinite as [Hx Hfinite].
  destruct matches as [| x' matches'].
  { exists x. split; [done |]. exists [], []. split; [done |].
    split; intros c Hc; by apply elem_of_nil in Hc. }
  destruct (IH Hfinite ltac:(done)) as (y & Hhead & Hfirst).
  change (sortByDistance (x :: x' :: matches'))
    with (insertByDistance x (sortByDistance (x' :: matches'))).
  apply head_Some in Hhead as [rest Hsorted]. rewrite Hsorted. cbn.
  destruct (nlt (ColorMatch.distance y) (ColorMatch.distance x)) eqn:Hlt.
  - exists y. split; [done |].
    destruct Hfirst as (before & after & Hsplit & Hb & Ha).
    exists (x :: before), after. split; [cbn; by rewrite <- Hsplit |].
    split; [| done].
    intros c [-> | Hc]%elem_of_cons; [done | by apply Hb].
  - exists x. split; [done |].
    exists [], (x' :: matches'). split; [done |].
    split; [intros c Hc; by apply elem_of_nil in Hc |].
    intros c Hc.
    apply (noFartherThan_trans x y c); [done | | | done |].
    + rewrite Forall_forall in Hfinite.
      by apply Hfinite, firstNearest_elem_of.
    + by eapply Forall_forall in Hfinite.
    + by apply (firstNearest_least (x' :: matches')).
Qed.

Lemma length_flat_map {A B : Type} (f : A -> list B) (items : list A) :
  length (flat_map f items) = sum_list_with (fun x => length (f x)) items.
Proof.
  induction items as [| x items IH]; [done |]. cbn.
  by rewrite length_app, IH.
Qed.

Section RankedMatcher.
Context `{Colord}.

Lemma length_collectMatches (inputColor : string)
    (analysis : ColorSchemeAnalysis.t) :
  length (collectMatches inputColor analysis)
  = sum_list_with (fun scheme => length (GeneratedColorScheme.shades scheme))
                  (ColorSchemeAnalysis.generatedSchemes analysis).
Proof.
  unfold collectMatches. rewrite length_flat_map.
  apply sum_list_with_ext_in. intros scheme _.
  by rewrite length_map, length_imap.
Qed.

(** X16. For a count that is not negative (5 when it is left out), the
    ranked matcher returns the shades of the generated schemes that are
    nearest to the query, in ascending order of distance: as many as the
    count, or all of them when there are fewer; every shade it leaves out is
    at least as far from the query as every shade it returns. *)
Theorem ranked_matches_are_nearest (inputColor : string)
    (analysis : ColorSchemeAnalysis.t) (count : option Z) :
  (0 <= default 5 count)%Z ->
  StronglySorted noFartherThan
    (findClosestSchemeColors inputColor analysis count) /\
  length (findClosestSchemeColors inputColor analysis count)
  = Nat.min (Z.to_nat (default 5%Z count))
            (sum_list_with
               (fun scheme => length (GeneratedColorScheme.shades scheme))
               (ColorSchemeAnalysis.generatedSchemes analysis)) /\
  exists leftOut,
    findClosestSchemeColors inputColor analysis count ++ leftOut
    ≡ₚ collectMatches inputColor analysis /\
    forall returned other,
      returned ∈ findClosestSchemeColors inputColor analysis count ->
      other ∈ leftOut ->
      noFartherThan returned other.
Proof.
  intros Hcount. unfold findClosestSchemeColors, sliceFromStart.
  rewrite (proj2 (Z.ltb_ge _ _) Hcount).
  pose proof (sortByDistance_sorted _ (collectMatches_finite inputColor analysis))
    as Hsorted.
  rewrite <- (take_drop (Z.to_nat (default 5%Z count))
                (sortByDistance (collectMatches inputColor analysis)))
    in Hsorted.
  split; [by apply StronglySorted_app_1_l in Hsorted |].
  split.
  - rewrite length_take.
    by rewrite sortByDistance_Permutation, length_collectMatches.
  - exists (drop (Z.to_nat (default 5%Z count))
              (sortByDistance (collectMatches inputColor analysis))).
    split; [by rewrite take_drop, sortByDistance_Permutation |].
    intros returned other. by apply StronglySorted_app_1_elem_of.
Qed.

(** X17. When some generated scheme has a shade and the count is at least 1
    (or left out), the first entry of the ranked list is the match of the
    global matcher: the two functions agree on the nearest shade, also on
    which of several equally near shades it is. *)
Theorem top_ranked_is_global_match (inputColor : string)
    (analysis : ColorSchemeAnalysis.t) (count : option Z)
    (scheme : GeneratedColorScheme.t) (index : nat) (shade : string) :
  scheme ∈ ColorSchemeAnalysis.generatedSchemes analysis ->
  GeneratedColorScheme.shades scheme !! index = Some shade ->
  (1 <= default 5 count)%Z ->
  head (findClosestSchemeColors inputColor analysis count)
  = Some (findClosestSchemeColor inputColor analysis).
Proof.
  intros Hscheme Hshade Hcount.
  assert (Hsome : collectMatches inputColor analysis ≠ []).
  { intros Hnil.
    assert (Hin : candidateMatch inputColor scheme (index, shade)
                    ∈ collectMatches inputColor analysis)
      by (apply elem_of_collectMatches; by exists scheme, index, shade).
    rewrite Hnil in Hin. by apply elem_of_nil in Hin. }
  destruct (sortByDistance_head _ (collectMatches_finite inputColor analysis)
              Hsome) as (winner & Hhead & Hfirst).
  rewrite (firstNearest_unique _ _ _
             (findClosestSchemeColor_firstNearest inputColor analysis Hsome)
             Hfirst).
  unfold findClosestSchemeColors, sliceFromStart.
  rewrite (proj2 (Z.ltb_ge _ _)) by lia.
  apply head_Some in Hhead as [rest ->].
  destruct (Z.to_nat (default 5%Z count)) as [| n] eqn:Hn; [lia | done].
Qed.

End RankedMatcher.

(** ** The family matcher *)

Lemma find_Some_first {A : Type} (P : A -> bool) (items : list A) (x : A) :
  find P items = Some x ->
  exists before after,
    items = before ++ x :: after /\ P x = true /\
    forall y, y ∈ before -> P y = false.
Proof.
  induction items as [| y items IH]; [done |]. cbn.
  destruct (P y) eqn:Hy.
  - intros [= ->]. exists [], items. split; [done |]. split; [done |].
    intros z Hz. by apply elem_of_nil in Hz.
  - intros (before & after & -> & Hx & Hbefore)%IH.
    exists (y :: before), after. split; [done |]. split; [done |].
    intros z [-> | Hz]%elem_of_cons; [done | by apply Hbefore].
Qed.

Section FamilyMatcher.
Context `{Colord}.

(** The match that the loop of the family matcher starts from. *)
Lemma findClosestColorInHue_found (inputColor : string) (hue : OpenColorHue)
    (analysis : ColorSchemeAnalysis.t) (scheme : GeneratedColorScheme.t)
    (firstShade : string) (rest : list string) :
  find (fun s => bool_decide (GeneratedColorScheme.hue s = hue))
       (ColorSchemeAnalysis.generatedSchemes analysis) = Some scheme ->
  GeneratedColorScheme.shades scheme = firstShade :: rest ->
  findClosestColorInHue inputColor hue analysis
  = HueMatch
      (fold_left nearer
         (map (candidateMatch inputColor scheme)
              (imap (fun index shade => (index, shade))
                    (GeneratedColorScheme.shades scheme)))
         {| ColorMatch.color := firstShade;
            ColorMatch.hue := GeneratedColorScheme.hue scheme;
            ColorMatch.shade := 0;
            ColorMatch.schemeName := GeneratedColorScheme.name scheme;
            ColorMatch.distance := PosInf;
            ColorMatch.colorName :=
              hueKey (GeneratedColorScheme.hue scheme) +:+ "-0" |}).
Proof.
  intros Hfind Hshades. unfold findClosestColorInHue.
  rewrite Hfind, <- fold_matchShade. by rewrite Hshades.
Qed.

(** From a start at infinite distance, the loop over a non-empty list of
    candidates returns the first nearest candidate. *)
Lemma fold_nearer_from_infinity (candidates : list ColorMatch.t)
    (start : ColorMatch.t) :
  Forall finiteDistance candidates -> candidates ≠ [] ->
  ColorMatch.distance start = PosInf ->
  firstNearest candidates (fold_left nearer candidates start).
Proof.
  intros Hfinite Hsome Hstart.
  destruct (fold_nearer_spec candidates start Hfinite)
    as [[_ Hall] | [Hfirst _]]; [| done].
  exfalso. destruct candidates as [| c rest]; [done |].
  apply Forall_cons in Hfinite as [[d Hd] _].
  specialize (Hall c ltac:(by left)). unfold noFartherThan in Hall.
  rewrite Hd, Hstart in Hall. discriminate.
Qed.




Lemma candidateMatch_hue (inputColor : string) (scheme : GeneratedColorScheme.t)
    (indexed : nat * string) :
  ColorMatch.hue (candidateMatch inputColor scheme indexed)
  = GeneratedColorScheme.hue scheme.
Proof. by destruct indexed. Qed.

(** A candidate of a list of schemes carries the family of one of them. *)
Lemma flat_candidates_hue (inputColor : string)
    (schemes : list GeneratedColorScheme.t) (candidate : ColorMatch.t) :
  candidate ∈ flat_map
                (fun scheme =>
                   map (candidateMatch inputColor scheme)
                       (imap (fun index shade => (index, shade))
                             (GeneratedColorScheme.shades scheme)))
                schemes ->
  ColorMatch.hue candidate ∈ GeneratedColorScheme.hue <$> schemes.
Proof.
  rewrite list_elem_of_In, in_flat_map.
  intros (scheme & Hscheme%list_elem_of_In & Hin%list_elem_of_In).
  apply list_elem_of_fmap in Hin as (indexed & -> & _).
  rewrite candidateMatch_hue. by apply list_elem_of_fmap_2.
Qed.

(** X19. When no two generated schemes share a family, as in every result
    of the orchestration, and some scheme has a shade, the family matcher
    asked for the family of the global match returns the global match. *)
Theorem family_match_agrees_with_global (inputColor : string)
    (analysis : ColorSchemeAnalysis.t) (scheme : GeneratedColorScheme.t)
    (index : nat) (shade : string) :
  NoDup (GeneratedColorScheme.hue
           <$> ColorSchemeAnalysis.generatedSchemes analysis) ->
  scheme ∈ ColorSchemeAnalysis.generatedSchemes analysis ->
  GeneratedColorScheme.shades scheme !! index = Some shade ->
  findClosestColorInHue inputColor
    (ColorMatch.hue (findClosestSchemeColor inputColor analysis)) analysis
  = HueMatch (findClosestSchemeColor inputColor analysis).
Proof.
  intros Hnodup Hscheme Hshade.
  assert (Hsome : collectMatches inputColor analysis ≠ []).
  { intros Hnil.
    assert (Hin : candidateMatch inputColor scheme (index, shade)
                    ∈ collectMatches inputColor analysis)
      by (apply elem_of_collectMatches; by exists scheme, index, shade).
    rewrite Hnil in Hin. by apply elem_of_nil in Hin. }
  clear scheme index shade Hscheme Hshade.
  pose proof (findClosestSchemeColor_firstNearest inputColor analysis Hsome)
    as Hglobal.
  pose proof (firstNearest_elem_of _ _ Hglobal) as Hwinner.
  apply elem_of_collectMatches in Hwinner
    as (scheme & index & shade & Hscheme & Hshade & Heq).
  assert (Hhue : ColorMatch.hue (findClosestSchemeColor inputColor analysis)
                 = GeneratedColorScheme.hue scheme)
    by (by rewrite Heq).
  assert (Hfinite : finiteDistance (findClosestSchemeColor inputColor analysis))
    by (rewrite Heq; apply candidateMatch_finite).
  assert (Hfind :
    find (fun s => bool_decide
                     (GeneratedColorScheme.hue s
                      = ColorMatch.hue (findClosestSchemeColor inputColor analysis)))
         (ColorSchemeAnalysis.generatedSchemes analysis) = Some scheme).
  { rewrite Hhue. by apply (find_by_key_NoDup GeneratedColorScheme.hue). }
  destruct (GeneratedColorScheme.shades scheme) as [| firstShade rest]
    eqn:Hshades; [done |].
  rewrite (findClosestColorInHue_found _ _ _ scheme firstShade rest Hfind Hshades).
  f_equal.
  apply (firstNearest_unique
           (map (candidateMatch inputColor scheme)
                (imap (fun index shade => (index, shade))
                      (GeneratedColorScheme.shades scheme)))).
  { apply fold_nearer_from_infinity;
      [apply scheme_candidates_finite | | done].
    rewrite Hshades. discriminate. }
  rewrite <- Hshades in *. clear Hshades firstShade rest Hfind.
  apply list_elem_of_split in Hscheme as (before & after & Hsplit).
  rewrite Hsplit in Hnodup.
  rewrite fmap_app, fmap_cons in Hnodup.
  apply NoDup_app in Hnodup as (_ & Hbefore & [Hafter _]%NoDup_cons).
  assert (Hfold : findClosestSchemeColor inputColor analysis
    = fold_left nearer
        (flat_map
           (fun scheme =>
              map (candidateMatch inputColor scheme)
                  (imap (fun index shade => (index, shade))
                        (GeneratedColorScheme.shades scheme)))
           after)
        (fold_left nearer
           (map (candidateMatch inputColor scheme)
                (imap (fun index shade => (index, shade))
                      (GeneratedColorScheme.shades scheme)))
           (fold_left nearer
              (flat_map
                 (fun scheme =>
                    map (candidateMatch inputColor scheme)
                        (imap (fun index shade => (index, shade))
                              (GeneratedColorScheme.shades scheme)))
                 before)
              defaultMatch))).
  { rewrite findClosestSchemeColor_fold. unfold collectMatches.
    rewrite Hsplit, flat_map_app. cbn [flat_map].
    by rewrite !fold_left_app. }
  set (fromBefore := fold_left nearer (flat_map _ before) defaultMatch) in Hfold.
  set (fromScheme := fold_left nearer (map _ _) fromBefore) in Hfold.
  assert (Hkept : findClosestSchemeColor inputColor analysis = fromScheme).
  { destruct (fold_nearer_elem_of
                (flat_map
                   (fun scheme =>
                      map (candidateMatch inputColor scheme)
                          (imap (fun index shade => (index, shade))
                                (GeneratedColorScheme.shades scheme)))
                   after) fromScheme) as [Hsame | Hin].
    - by rewrite Hfold.
    - rewrite <- Hfold in Hin. apply flat_candidates_hue in Hin.
      rewrite Hhue in Hin. contradiction. }
  rewrite Hkept.
  destruct (fold_nearer_spec
              (map (candidateMatch inputColor scheme)
                   (imap (fun index shade => (index, shade))
                         (GeneratedColorScheme.shades scheme)))
              fromBefore (scheme_candidates_finite _ _ _))
    as [[Hsame _] | [Hfirst _]]; [| done].
  exfalso. fold fromScheme in Hsame. rewrite Hsame in Hkept.
  destruct (fold_nearer_elem_of
              (flat_map
                 (fun scheme =>
                    map (candidateMatch inputColor scheme)
                        (imap (fun index shade => (index, shade))
                              (GeneratedColorScheme.shades scheme)))
                 before) defaultMatch) as [Hdefault | Hin].
  - fold fromBefore in Hdefault. rewrite Hdefault in Hkept.
    destruct Hfinite as [d Hd]. rewrite Hkept in Hd. discriminate.
  - fold fromBefore in Hin. rewrite <- Hkept in Hin.
    apply flat_candidates_hue in Hin. rewrite Hhue in Hin.
    by apply (Hbefore _ Hin); left.
Qed.

End FamilyMatcher.

(** * Further properties of the shade synthesizer *)

Lemma lightnessSteps_bounds (index : nat) (lightness : R) :
  lightnessSteps !! index = Some lightness -> 16 <= lightness <= 96.
Proof.
  unfold lightnessSteps. intros Hstep.
  do 10 (destruct index as [| index];
         [injection Hstep as <-; lra | cbn in Hstep]).
  discriminate.
Qed.

Lemma getChromaForLightness_finite (chroma lightness : R) :
  exists s, getChromaForLightness (Fin chroma) lightness = Fin s.
Proof.
  unfold getChromaForLightness. cbn [nmax nmin]. cbv zeta.
  repeat destruct (decide _); cbn [nscale]; by eexists.
Qed.

Lemma hueToUse_range (baseHue : R) (tripleHueMode : option bool)
    (highlightHue midtoneHue shadowHue : option R) (lightness : R) :
  0 <= hueToUse baseHue tripleHueMode highlightHue midtoneHue shadowHue lightness
  < 360.
Proof.
  unfold hueToUse, threeZoneHue. cbv zeta.
  destruct (useTripleHue _ _ _ _); [| apply normalizeHue_range].
  repeat destruct (decide _); apply normalizeHue_range.
Qed.

Lemma globalChromaOf_finite (hueAnalyses : list HueAnalysis.t) :
  hueAnalyses ≠ [] -> exists g, globalChromaOf hueAnalyses = Fin g.
Proof.
  intros Hsome. unfold globalChromaOf, ndiv.
  rewrite decide_False; [by eexists |].
  destruct hueAnalyses as [| analysis rest]; [done |].
  apply not_0_INR. cbn. lia.
Qed.

Section SynthesizerProperties.
Context `{Colord}.

(** The request that the synthesizer makes for one lightness step, for a
    base chroma that is a finite number. *)
Lemma generateOpenColorShades_lookup (baseHue chroma : R)
    (hueCategory : OpenColorHue) (tripleHueMode : option bool)
    (highlightHue midtoneHue shadowHue : option R)
    (index : nat) (lightness : R) :
  lightnessSteps !! index = Some lightness ->
  exists h s,
    generateOpenColorShades baseHue (Fin chroma) hueCategory tripleHueMode
      highlightHue midtoneHue shadowHue !! index
    = Some (hslToHex (Fin h) (Fin s) (Fin lightness)) /\
    0 <= h < 360 /\ 0 <= s <= 100 /\
    (hueCategory = gray -> h = 210 /\ s = 8).
Proof.
  intros Hstep. pose proof (lightnessSteps_bounds _ _ Hstep) as Hbounds.
  unfold generateOpenColorShades.
  destruct (decide (hueCategory = gray)) as [Hgray | Hchromatic].
  - exists 210, 8. rewrite list_lookup_fmap, Hstep.
    split; [done |]. split; [lra |]. split; [lra | done].
  - destruct (getChromaForLightness_finite chroma lightness) as [s Hs].
    exists (hueToUse baseHue tripleHueMode highlightHue midtoneHue shadowHue
              lightness), (Rmin 100 (Rmax 0 s)).
    rewrite list_lookup_fmap, Hstep. cbn [fmap option_fmap option_map].
    cbv zeta. rewrite Hs. cbn [nmax nmin].
    rewrite (Rmax_right 0 lightness) by lra.
    rewrite (Rmin_right 100 lightness) by lra.
    split; [done |]. split; [apply hueToUse_range |].
    split; [| done].
    unfold Rmin, Rmax. repeat destruct (Rle_dec _ _); lra.
Qed.

(** X20. Every shade of every generated scheme is the colour that the
    colour library returns for three finite numbers: a hue from 0 up to, not
    including, 360, a saturation from 0 to 100, and the lightness step of
    the shade, from 96 for shade 0 down to 16 for shade 9. The undefined
    overall chroma of an empty collection never reaches the library. The
    shades of the gray family are requested at hue 210 and saturation 8,
    whatever the input colours are. *)
Theorem generated_shades_are_well_formed (colorData : ColorDataMap)
    (tripleHueConfig : option TripleHueConfig.t)
    (scheme : GeneratedColorScheme.t) (index : nat) (lightness : R) :
  scheme ∈ ColorSchemeAnalysis.generatedSchemes
             (analyzeColorsForSchemeGeneration colorData tripleHueConfig) ->
  lightnessSteps !! index = Some lightness ->
  exists h s,
    GeneratedColorScheme.shades scheme !! index
    = Some (hslToHex (Fin h) (Fin s) (Fin lightness)) /\
    0 <= h < 360 /\ 0 <= s <= 100 /\ 16 <= lightness <= 96 /\
    (GeneratedColorScheme.hue scheme = gray -> h = 210 /\ s = 8).
Proof.
  intros (analysis & -> & Hin & _)%elem_of_generatedSchemes Hstep.
  destruct (globalChromaOf_finite
              (computeHueAnalyses colorData.*2 tripleHueConfig)) as [g ->].
  { intros Hnil. rewrite Hnil in Hin. by apply elem_of_nil in Hin. }
  cbn [buildScheme GeneratedColorScheme.shades GeneratedColorScheme.hue nmax].
  destruct (generateOpenColorShades_lookup
              (HueAnalysis.avgHue analysis)
              (Rmax (HueAnalysis.avgChroma analysis) g)
              (HueAnalysis.hue analysis)
              (TripleHueConfig.enabled <$> tripleHueConfig)
              (HueAnalysis.highlightHue analysis)
              (HueAnalysis.midtoneHue analysis)
              (HueAnalysis.shadowHue analysis) index lightness Hstep)
    as (h & s & Hshade & Hh & Hs & Hgray).
  exists h, s. split; [done |]. split; [done |]. split; [done |].
  split; [by eapply lightnessSteps_bounds | done].
Qed.

End SynthesizerProperties.

(** * The further properties on the worked inputs *)

(** The first shade of the gray scheme that [usedGray] generates. *)
Lemma usedGrayScheme_first_shade (tripleHueConfig : option TripleHueConfig.t) :
  GeneratedColorScheme.shades (usedGrayScheme tripleHueConfig) !! 0%nat
  = Some (colord_hslToHex (Fin 210) (Fin 8) (Fin 96)).
Proof. reflexivity. Qed.

Lemma usedGrayScheme_generated (tripleHueConfig : option TripleHueConfig.t) :
  usedGrayScheme tripleHueConfig
    ∈ ColorSchemeAnalysis.generatedSchemes
        (@analyzeColorsForSchemeGeneration colord_reference usedGray
           tripleHueConfig).
Proof. rewrite usedGray_schemes. by left. Qed.

(** The two reds of [usedReds] have one usage site each. *)
Lemma usage_totals_agree_witness :
  sum_list_with HueAnalysis.usage
    (ColorSchemeAnalysis.hueAnalyses
       (@analyzeColorsForSchemeGeneration colord_reference usedReds None))
  = sum_list_with (fun color => length (ColorData.occurrences color))
                  usedReds.*2.
Proof.
  apply (@usage_totals_agree colord_reference usedReds None).
  cbn. apply NoDup_cons. split; [| apply NoDup_singleton].
  intros Hin%list_elem_of_singleton. discriminate.
Defined.

(** The one sample of [unusedGray] has no usage site. *)
Lemma palette_without_usage_is_reference_witness :
  ColorSchemeAnalysis.generatedSchemes
    (@analyzeColorsForSchemeGeneration colord_reference unusedGray None) = [] /\
  @generateCompleteOpenColorPalette colord_reference unusedGray None
  = OPEN_COLOR_PALETTE.
Proof.
  apply (@palette_without_usage_is_reference colord_reference unusedGray None).
  intros color Hin. cbn in Hin. apply list_elem_of_singleton in Hin.
  by rewrite Hin.
Defined.

(** The query [#336699] against the gray scheme of [usedGray]. *)
Lemma global_match_is_nearest_shade_witness :
  (exists winner,
     winner ∈ ColorSchemeAnalysis.generatedSchemes
                (@analyzeColorsForSchemeGeneration colord_reference usedGray None) /\
     GeneratedColorScheme.shades winner
       !! ColorMatch.shade
            (@findClosestSchemeColor colord_reference "#336699"
               (@analyzeColorsForSchemeGeneration colord_reference usedGray None))
     = Some (ColorMatch.color
               (@findClosestSchemeColor colord_reference "#336699"
                  (@analyzeColorsForSchemeGeneration colord_reference usedGray
                     None))) /\
     ColorMatch.hue
       (@findClosestSchemeColor colord_reference "#336699"
          (@analyzeColorsForSchemeGeneration colord_reference usedGray None))
     = GeneratedColorScheme.hue winner /\
     ColorMatch.schemeName
       (@findClosestSchemeColor colord_reference "#336699"
          (@analyzeColorsForSchemeGeneration colord_reference usedGray None))
     = GeneratedColorScheme.name winner /\
     ColorMatch.colorName
       (@findClosestSchemeColor colord_reference "#336699"
          (@analyzeColorsForSchemeGeneration colord_reference usedGray None))
     = hueKey (GeneratedColorScheme.hue winner) +:+ "-"
       +:+ pretty (ColorMatch.shade
                     (@findClosestSchemeColor colord_reference "#336699"
                        (@analyzeColorsForSchemeGeneration colord_reference
                           usedGray None)))) /\
  ColorMatch.distance
    (@findClosestSchemeColor colord_reference "#336699"
       (@analyzeColorsForSchemeGeneration colord_reference usedGray None))
  = Fin (@calculateColorDistance colord_reference "#336699"
           (ColorMatch.color
              (@findClosestSchemeColor colord_reference "#336699"
                 (@analyzeColorsForSchemeGeneration colord_reference usedGray
                    None)))) /\
  @calculateColorDistance colord_reference "#336699"
    (ColorMatch.color
       (@findClosestSchemeColor colord_reference "#336699"
          (@analyzeColorsForSchemeGeneration colord_reference usedGray None)))
  <= @calculateColorDistance colord_reference "#336699"
       (colord_hslToHex (Fin 210) (Fin 8) (Fin 96)).
Proof.
  apply (@global_match_is_nearest_shade colord_reference "#336699"
           (@analyzeColorsForSchemeGeneration colord_reference usedGray None)
           (usedGrayScheme None) 0%nat).
  - apply usedGrayScheme_generated.
  - apply usedGrayScheme_first_shade.
Defined.

(** The ranked matcher with the default count on the analysis of
    [usedGray]. *)
Lemma ranked_matches_are_nearest_witness :
  StronglySorted noFartherThan
    (@findClosestSchemeColors colord_reference "#336699"
       (@analyzeColorsForSchemeGeneration colord_reference usedGray None) None) /\
  length (@findClosestSchemeColors colord_reference "#336699"
            (@analyzeColorsForSchemeGeneration colord_reference usedGray None)
            None)
  = Nat.min (Z.to_nat (default 5%Z None))
            (sum_list_with
               (fun scheme => length (GeneratedColorScheme.shades scheme))
               (ColorSchemeAnalysis.generatedSchemes
                  (@analyzeColorsForSchemeGeneration colord_reference usedGray
                     None))) /\
  exists leftOut,
    @findClosestSchemeColors colord_reference "#336699"
      (@analyzeColorsForSchemeGeneration colord_reference usedGray None) None
      ++ leftOut
    ≡ₚ @collectMatches colord_reference "#336699"
         (@analyzeColorsForSchemeGeneration colord_reference usedGray None) /\
    forall returned other,
      returned ∈ @findClosestSchemeColors colord_reference "#336699"
                   (@analyzeColorsForSchemeGeneration colord_reference usedGray
                      None) None ->
      other ∈ leftOut ->
      noFartherThan returned other.
Proof.
  apply (@ranked_matches_are_nearest colord_reference). cbn. lia.
Defined.

Lemma top_ranked_is_global_match_witness :
  head (@findClosestSchemeColors colord_reference "#336699"
          (@analyzeColorsForSchemeGeneration colord_reference usedGray None)
          None)
  = Some (@findClosestSchemeColor colord_reference "#336699"
            (@analyzeColorsForSchemeGeneration colord_reference usedGray None)).
Proof.
  apply (@top_ranked_is_global_match colord_reference "#336699"
           (@analyzeColorsForSchemeGeneration colord_reference usedGray None)
           None (usedGrayScheme None) 0%nat
           (colord_hslToHex (Fin 210) (Fin 8) (Fin 96))).
  - apply usedGrayScheme_generated.
  - apply usedGrayScheme_first_shade.
  - cbn. lia.
Defined.

Lemma family_match_agrees_with_global_witness :
  @findClosestColorInHue colord_reference "#336699"
    (ColorMatch.hue
       (@findClosestSchemeColor colord_reference "#336699"
          (@analyzeColorsForSchemeGeneration colord_reference usedGray None)))
    (@analyzeColorsForSchemeGeneration colord_reference usedGray None)
  = HueMatch
      (@findClosestSchemeColor colord_reference "#336699"
         (@analyzeColorsForSchemeGeneration colord_reference usedGray None)).
Proof.
  apply (@family_match_agrees_with_global colord_reference "#336699"
           (@analyzeColorsForSchemeGeneration colord_reference usedGray None)
           (usedGrayScheme None) 0%nat
           (colord_hslToHex (Fin 210) (Fin 8) (Fin 96))).
  - apply generatedSchemes_NoDup_hue.
  - apply usedGrayScheme_generated.
  - apply usedGrayScheme_first_shade.
Defined.

(** The lightest shade of the gray scheme of [usedGray]. *)
Lemma generated_shades_are_well_formed_witness :
  exists h s,
    GeneratedColorScheme.shades (usedGrayScheme None) !! 0%nat
    = Some (colord_hslToHex (Fin h) (Fin s) (Fin 96)) /\
    0 <= h < 360 /\ 0 <= s <= 100 /\ 16 <= 96 <= 96 /\
    (GeneratedColorScheme.hue (usedGrayScheme None) = gray -> h = 210 /\ s = 8).
Proof.
  apply (@generated_shades_are_well_formed colord_reference usedGray None
           (usedGrayScheme None) 0%nat 96).
  - apply usedGrayScheme_generated.
  - reflexivity.
Defined.

(** * The reach of the families *)

(** Every hue of the colour wheel is within 21 of the reference hue of some
    chromatic family. *)
Lemma family_within_21 (h : R) :
  0 <= h <= 360 ->
  exists key, key ≠ gray /\ calculateHueDistance h (info_hue (hueInfo key)) <= 21.
Proof.
  intros Hrange.
  assert (Hcases :
    h <= 21 \/ 21 < h <= 46 \/ 46 < h <= 65 \/ 65 < h <= 104 \/
    104 < h <= 141 \/ 141 < h <= 183 \/ 183 < h <= 208 \/ 208 < h <= 221 \/
    221 < h <= 263 \/ 263 < h <= 281 \/ 281 < h <= 315 \/ 315 < h <= 349 \/
    349 < h) by lra.
  destruct Hcases as [Hc | [Hc | [Hc | [Hc | [Hc | [Hc | [Hc | [Hc | [Hc |
                     [Hc | [Hc | [Hc | Hc]]]]]]]]]]]];
    [exists red | exists orange | exists yellow | exists lime | exists green
    | exists teal | exists cyan | exists blue | exists indigo | exists violet
    | exists grape | exists pink | exists red];
    (split; [discriminate |]);
    unfold calculateHueDistance, Rmin, Rabs; cbn [info_hue hueInfo];
    repeat match goal with
           | |- context [Rcase_abs ?x] => destruct (Rcase_abs x)
           | |- context [Rle_dec ?x ?y] => destruct (Rle_dec x y)
           end;
    lra.
Qed.

(** X21. A colour with a saturation of at least 15 and a hue on the colour
    wheel, from 0 to 360, is classified into a family whose reference hue is
    at most 21 away from the hue of the colour. *)
Theorem classified_within_21_of_reference `{Colord} (hexColor : string) :
  15 <= hsl_s (toHsl hexColor) ->
  0 <= hsl_h (toHsl hexColor) <= 360 ->
  calculateHueDistance (hsl_h (toHsl hexColor))
    (info_hue (hueInfo (findClosestOpenColorHue hexColor)))
  <= 21.
Proof.
  intros Hsat Hrange. unfold findClosestOpenColorHue. cbv zeta.
  rewrite decide_False by lra.
  destruct (family_within_21 _ Hrange) as (key & Hkey & Hnear).
  destruct (closestHue_fold_invariant (hsl_h (toHsl hexColor))
              OPEN_COLOR_HUES red 180) as (_ & Hmin & Hfrom).
  cbv zeta in Hmin, Hfrom.
  assert (Hin : (key, hueInfo key) ∈ OPEN_COLOR_HUES).
  { unfold OPEN_COLOR_HUES. apply list_elem_of_fmap. exists key.
    split; [done | auto with hue_keys]. }
  specialize (Hmin (key, hueInfo key) Hin Hkey). cbn [fst snd] in Hmin.
  destruct Hfrom as [Heq | (entry & Hentry & _ & Heq)].
  - rewrite Heq in Hmin. cbn [snd] in Hmin. lra.
  - rewrite Heq in Hmin |- *. cbn [fst snd] in *.
    unfold OPEN_COLOR_HUES in Hentry.
    apply list_elem_of_fmap in Hentry as (k & -> & _). cbn [fst snd] in *. lra.
Qed.

(** The red [#ff0015], of hue 355 and saturation 100. *)
Lemma classified_within_21_of_reference_witness :
  calculateHueDistance (hsl_h (colord_toHsl "#ff0015"))
    (info_hue (hueInfo (@findClosestOpenColorHue colord_reference "#ff0015")))
  <= 21.
Proof.
  destruct colord_toHsl_reds as [Hred _].
  apply (@classified_within_21_of_reference colord_reference "#ff0015");
    cbn [toHsl colord_reference]; rewrite Hred; cbn [hsl_s hsl_h]; lra.
Defined.
